(** * NomadPal backend: the hybrid result-aggregation layer

    A shallow embedding of the parts of the Express backend that reconcile
    the paginated record store with the Python prediction service:

    - [Helpers]            utils/helpers.js (response helpers, [paginateResults],
                           [sanitizeInput]);
    - [PythonService]      services/python.service.js ([mergeCityData],
                           [getPersonalizedCities], the availability probe);
    - [CitiesRoutes]       the cities router that enriches record-store pages
                           with [mergeCityData] (routes [/filter] and [/]);
    - [CitiesRoutesDirect] the cities router that fetches the page from the
                           prediction service first (routes [/] and
                           [/personalized]).

    Modelling conventions.  A JavaScript object is a finite map from property
    names to scalar values.  A finite JavaScript number is the rational it
    denotes; the integers the pagination code computes with are rounded to
    the doubles ([to_double]), +Infinity and -Infinity are [infinity] and its
    opposite, and NaN is the [None] of an [option].  Strings are ASCII.  The
    requests of the cities routes are those whose query members are single
    strings; a repeated or bracketed key, which Express delivers as an array
    or an object ([qvalue]), is modelled for the jobs router only.  Code that
    can throw returns an [outcome]; the record store and the HTTP client of
    the prediction service are oracles passed to the handlers. *)

From Stdlib Require Import ZArith QArith Qround Qabs Lqa Ascii String List Lia Permutation Sorted.
From stdpp Require Import base option gmap strings pretty list.

Open Scope string_scope.
Open Scope Z_scope.

(** ** JavaScript values *)

Inductive jsval : Type :=
  | VUndefined
  | VNull
  | VBool (b : bool)
  | VNum (q : Q)
  | VStr (s : string).

(** An object, as the rows of the record store and the JSON objects of the
    prediction service are: property name to value. *)
Abbreviation obj := (gmap string jsval).

(** [o.k]: reading a property that is absent yields [undefined]. *)
Definition get (o : obj) (k : string) : jsval := default VUndefined (o !! k).

(** ToBoolean. *)
Definition truthy (v : jsval) : bool :=
  match v with
  | VUndefined | VNull => false
  | VBool b => b
  | VNum q => negb (Qeq_bool q 0)
  | VStr s => negb (String.eqb s "")
  end.

(** An argument that is either an array of objects or some other value
    ([Array.isArray] tells them apart). *)
Inductive jsarg : Type :=
  | Arr (l : list obj)
  | NonArr (v : jsval).

(** ** Exceptions *)

Inductive exn : Type := TypeError | ServiceError | StorageError.

Inductive outcome (A : Type) : Type :=
  | Returns (a : A)
  | Throws (e : exn).
Arguments Returns {A} a.
Arguments Throws {A} e.

#[global] Instance outcome_ret : MRet outcome := fun A a => Returns a.

#[global] Instance outcome_bind : MBind outcome := fun A B k m =>
  match m with
  | Returns a => k a
  | Throws e => Throws e
  end.

(** [try { body } catch { handler }] *)
Definition try_catch {A} (body : outcome A) (handler : exn -> A) : A :=
  match body with
  | Returns a => a
  | Throws e => handler e
  end.

(** Sequential [for ... of] / [map] with a body that may throw. *)
Fixpoint mapM {A B} (f : A -> outcome B) (l : list A) : outcome (list B) :=
  match l with
  | [] => Returns []
  | x :: xs => y ← f x; ys ← mapM f xs; Returns (y :: ys)
  end.

(** ** Strings *)

Definition ascii_code (c : ascii) : Z := Z.of_nat (nat_of_ascii c).

Definition lower_char (c : ascii) : ascii :=
  if (65 <=? ascii_code c) && (ascii_code c <=? 90)
  then ascii_of_nat (nat_of_ascii c + 32) else c.

Definition upper_char (c : ascii) : ascii :=
  if (97 <=? ascii_code c) && (ascii_code c <=? 122)
  then ascii_of_nat (nat_of_ascii c - 32) else c.

Fixpoint map_string (f : ascii -> ascii) (s : string) : string :=
  match s with
  | EmptyString => EmptyString
  | String c r => String (f c) (map_string f r)
  end.

Definition toLowerCase : string -> string := map_string lower_char.
Definition toUpperCase : string -> string := map_string upper_char.

(** White space of the ASCII range: TAB, LF, VT, FF, CR, SP. *)
Definition is_space (c : ascii) : bool :=
  let n := ascii_code c in ((9 <=? n) && (n <=? 13)) || (n =? 32).

Fixpoint trimStart (s : string) : string :=
  match s with
  | String c r => if is_space c then trimStart r else s
  | EmptyString => EmptyString
  end.

Fixpoint rev_string (s : string) (acc : string) : string :=
  match s with
  | EmptyString => acc
  | String c r => rev_string r (String c acc)
  end.

Definition trimEnd (s : string) : string :=
  rev_string (trimStart (rev_string s "")) "".

Definition trim (s : string) : string := trimEnd (trimStart s).

(** ** Numbers *)

(** +Infinity.  Every double is below 2^1024 in magnitude, so the integer
    2^1024 is free to stand for it: it compares with the finite numbers as
    Infinity does. *)
Definition infinity : Z := 2 ^ 1024.

(** The integer nearest to [n / d], the even one of two that are equally
    near; [n] is not negative and [d] is positive. *)
Definition round_half_even (n d : Z) : Z :=
  let q := n / d in
  let r := n mod d in
  if (d <? 2 * r) || ((2 * r =? d) && Z.odd q) then q + 1 else q.

(** The number an integer denotes: itself below 2^53; beyond, the nearest
    integer with 53 significant bits, and [infinity] past the largest
    double. *)
Definition to_double (z : Z) : Z :=
  let a := Z.abs z in
  if a <? 2 ^ 53 then z
  else
    let e := Z.log2 a - 52 in
    Z.sgn z * Z.min (round_half_even a (2 ^ e) * 2 ^ e) infinity.

(** [a - b] for a finite [b]. *)
Definition js_sub (a b : Z) : Z := to_double (a - b).

(** [a * b]; zero times an infinity is NaN. *)
Definition js_mul (a b : Z) : option Z :=
  if ((a =? 0) && (Z.abs b =? infinity)) || ((b =? 0) && (Z.abs a =? infinity))
  then None
  else Some (to_double (a * b)).

(** [b ^ n] for an exponent of either sign. *)
Definition power (b n : Z) : Q :=
  if 0 <=? n then inject_Z (b ^ n) else / inject_Z (b ^ (- n)).

(** For a positive rational, the [e] with 2^e <= x < 2^(e+1). *)
Definition floor_log2 (x : Q) : Z :=
  let e := Z.log2 (Qnum x) - Z.log2 (Z.pos (Qden x)) in
  if Qle_bool (power 2 e) x then e else e - 1.

(** For a positive rational, the [e] with 10^e <= x < 10^(e+1). *)
Definition floor_log10 (x : Q) : Z :=
  let g := floor_log2 x * 30103 / 100000 in
  if Qle_bool (power 10 (g + 1)) x then g + 1
  else if Qle_bool (power 10 g) x then g else g - 1.

Definition nearest_integer (y : Q) : Z :=
  round_half_even (Qnum y) (Z.pos (Qden y)).

(** The double nearest to a positive rational (subnormals included). *)
Definition nearest_double (x : Q) : Q :=
  let u := Z.max (floor_log2 x - 52) (- 1074) in
  (inject_Z (nearest_integer (x / power 2 u)) * power 2 u)%Q.

(** Number::toString finds the least [k] for which a decimal of [k]
    significant digits reads back as the number.  [candidate x e10 k] is that
    decimal when there is one: its digits [s] and the exponent [n] with
    value s * 10^(n - k).  It is one of the two decimals of [k] digits that
    enclose [x]; of two that both read back as [x], the nearer one. *)
Definition candidate (x : Q) (e10 k : Z) : option (Z * Z) :=
  let p := e10 - k + 1 in
  let t := Qfloor (x / power 10 p) in
  let lo := (inject_Z t * power 10 p)%Q in
  let hi := (inject_Z (t + 1) * power 10 p)%Q in
  let ok_lo := Qeq_bool (nearest_double lo) x in
  let ok_hi := Qeq_bool (nearest_double hi) x in
  let nearer_hi :=
    match ((hi - x) ?= (x - lo))%Q with
    | Lt => true
    | Eq => Z.odd t
    | Gt => false
    end in
  if ok_hi && (negb ok_lo || nearer_hi)
  then Some (if t + 1 =? 10 ^ k then (10 ^ (k - 1), e10 + 2) else (t + 1, e10 + 1))
  else if ok_lo then Some (t, e10 + 1) else None.

Fixpoint shortest_from (x : Q) (e10 k : Z) (fuel : nat) : Z * Z * Z :=
  match fuel with
  | O => (Qfloor (x / power 10 (e10 - k + 1)), k, e10 + 1)
  | S fuel =>
      match candidate x e10 k with
      | Some (s, n) => (s, k, n)
      | None => shortest_from x e10 (k + 1) fuel
      end
  end.

(** The digits [s], their number [k] and the exponent [n] of the string of
    a positive number (seventeen digits always suffice). *)
Definition shortest (x : Q) : Z * Z * Z :=
  let d := nearest_double x in
  shortest_from d (floor_log10 d) 1 17.

Definition first_digit (x : Q) : Z :=
  let '(s, k, _) := shortest x in (s / 10 ^ (k - 1)) mod 10.

Definition decimal_exponent (x : Q) : Z :=
  let '(_, _, n) := shortest x in n.

(** ** parseInt *)

Definition digit_value (radix : Z) (c : ascii) : option Z :=
  let n := ascii_code c in
  let d := if (48 <=? n) && (n <=? 57) then n - 48
           else if (97 <=? n) && (n <=? 122) then n - 87
           else if (65 <=? n) && (n <=? 90) then n - 55
           else radix in
  if d <? radix then Some d else None.

(** The longest prefix of digits of the radix, as a number; [acc] is [None]
    until a first digit has been read. *)
Fixpoint parse_digits (radix : Z) (s : string) (acc : option Z) : option Z :=
  match s with
  | EmptyString => acc
  | String c r =>
      match digit_value radix c with
      | Some d => parse_digits radix r (Some (default 0 acc * radix + d))
      | None => acc
      end
  end.

(** [parseInt(s)] on a string, no radix argument: leading white space,
    an optional sign, an optional [0x] prefix; the integer the digits spell
    is returned as a number, so rounded; [None] is NaN. *)
Definition parseInt_string (s : string) : option Z :=
  let s1 := trimStart s in
  let '(sign, s2) :=
    match s1 with
    | String "-" r => (-1, r)
    | String "+" r => (1, r)
    | _ => (1, s1)
    end in
  let '(radix, s3) :=
    match s2 with
    | String "0" (String "x" r) => (16, r)
    | String "0" (String "X" r) => (16, r)
    | _ => (10, s2)
    end in
  match parse_digits radix s3 None with
  | Some n => Some (to_double (sign * n))
  | None => None
  end.

(** Truncation towards zero. *)
Definition Qtrunc (q : Q) : Z :=
  if Qle_bool 0 q then Qfloor q else Qceiling q.

(** [parseInt(x)] for a number that is an integer.  Its string is
    "Infinity", or its decimal digits below 1e21 (and reading them gives the
    number back), or in exponent notation from 1e21 on, where [parseInt]
    stops at the [.] or the [e] behind the first digit. *)
Definition parseInt_integer (z : Z) : option Z :=
  let d := to_double z in
  let a := Z.abs d in
  if infinity <=? a then None
  else if a <? 10 ^ 21 then Some d
  else Some (Z.sgn d * first_digit (inject_Z a)).

(** [parseInt(x)] for a finite number that is not an integer: the digits in
    front of the point from 1 on, 0 for "0.000ddd", and the first digit for
    the exponent notation of the magnitudes below 1e-6. *)
Definition parseInt_fraction (q : Q) : option Z :=
  let a := Qabs q in
  if Qle_bool 1 a then Some (to_double (Qtrunc q))
  else if -6 <? decimal_exponent a then Some 0
  else Some ((if Qle_bool 0 q then 1 else -1) * first_digit a).

Definition parseInt_number (q : Q) : option Z :=
  if Qeq_bool q (inject_Z (Qfloor q)) then parseInt_integer (Qfloor q)
  else parseInt_fraction q.

(** [parseInt(v)]: the argument is first converted to a string, so
    [undefined], [null] and the booleans give NaN, and a number is read back
    from the string Number::toString gives it. *)
Definition parseInt (v : jsval) : option Z :=
  match v with
  | VStr s => parseInt_string s
  | VNum q => parseInt_number q
  | VUndefined | VNull | VBool _ => None
  end.

(** [n || d] for a number [n]: NaN and 0 are falsy. *)
Definition num_or (n : option Z) (d : Z) : Z :=
  match n with
  | Some 0 | None => d
  | Some z => z
  end.

(** A default parameter value applies when the argument is [undefined]. *)
Definition default_param (v d : jsval) : jsval :=
  match v with
  | VUndefined => d
  | _ => v
  end.

Definition VInt (z : Z) : jsval := VNum (inject_Z z).

(** The ceiling of the quotient of two integers, [b <> 0]. *)
Definition ceil_div (a b : Z) : Z := Qceiling (inject_Z a / inject_Z b).

(** [Math.ceil(total / limit)] for a count of rows and a limit that is not
    zero: the quotient by an infinity is zero, and for a count below 2^53 the
    rounded quotient has the ceiling of the exact one. *)
Definition ceil_quotient (total limit : Z) : Z :=
  if Z.abs limit =? infinity then 0 else ceil_div total limit.

(** ** Members of a query string *)

(** A member of [req.query] as Express parses it: a string, and for a key
    that is repeated or written with brackets an array or an object of such
    values. *)
#[warnings="-register-all"] Inductive qvalue : Type :=
  | QString (s : string)
  | QArray (items : list qvalue)
  | QObject (members : list (string * qvalue)).

(** [String(v)]: the items of an array joined by commas, and
    "[object Object]" for an object. *)
Fixpoint to_string (v : qvalue) : string :=
  match v with
  | QString s => s
  | QArray items => String.concat "," (map to_string items)
  | QObject _ => "[object Object]"
  end.

(** ** utils/helpers.js *)

Module Helpers.

(** The pagination block of a listing response. *)
Record pagination (N B : Type) : Type := Pagination {
  current_page : N;
  total_pages : N;
  total_items : N;
  items_per_page : N;
  has_next_page : B;
  has_prev_page : B
}.
Arguments Pagination {N B}.
Arguments current_page {N B}.
Arguments total_pages {N B}.
Arguments total_items {N B}.
Arguments items_per_page {N B}.
Arguments has_next_page {N B}.
Arguments has_prev_page {N B}.

(** The [data] member of a success envelope. *)
Inductive payload : Type :=
  | Listing (cities : list obj) (pg : pagination Z bool)
  | Personalized (cities : list obj) (pg : pagination jsval jsval)
                 (user_preferences : jsval).

Inductive body : Type :=
  | Success (message : string) (data : payload)
  | Failure (message : string) (code : Z).

Record response : Type := Response { status : Z; json : body }.

Definition successResponse (data : payload) (message : string) : response :=
  {| status := 200; json := Success message data |}.

Definition errorResponse (message : string) (statusCode : Z) : response :=
  {| status := statusCode; json := Failure message statusCode |}.

Record paging : Type := Paging { offset : option Z; limit : Z }.

Definition pageNum (page : jsval) : Z :=
  num_or (parseInt (default_param page (VInt 1))) 1.

Definition limitNum (limit : jsval) : Z :=
  num_or (parseInt (default_param limit (VInt 10))) 10.

Definition paginateResults (page limit : jsval) : paging :=
  let pageNum := pageNum page in
  let limitNum := limitNum limit in
  let offset := product ← js_mul (js_sub pageNum 1) limitNum;
                parseInt (VInt product) in
  {| offset := offset; limit := limitNum |}.

Definition strip_angle (s : string) : string :=
  string_of_list_ascii
    (List.filter (fun c => negb (Ascii.eqb c "<" || Ascii.eqb c ">"))
                 (list_ascii_of_string s)).

(** [input.trim().replace(/[<>]/g, '')]: [sanitizeInput] on a string. *)
Definition sanitizeInput (input : string) : string :=
  strip_angle (trim input).

(** [sanitizeInput] on any member of a query:
    [if (typeof input !== 'string') return input] comes first. *)
Definition sanitizeInput_any (input : qvalue) : qvalue :=
  match input with
  | QString s => QString (sanitizeInput s)
  | QArray _ | QObject _ => input
  end.

End Helpers.

(** ** services/python.service.js *)

Module PythonService.

(** The [pagination] member of the reply to [POST /cities/personalized]. *)
Record pagination_reply : Type := PaginationReply {
  pg_offset : jsval;
  pg_current_page : jsval;
  pg_total_pages : jsval;
  pg_has_next_page : jsval;
  pg_has_prev_page : jsval
}.

(** [response.data] of a reply of the prediction service.  A member the
    service did not send reads as [undefined]; [r_data] is the array of the
    [data] member, [None] when the reply has none (it reads [undefined] or
    [null]); [r_pagination] is [None] when the member is missing or falsy. *)
Record reply : Type := Reply {
  r_data : option (list obj);
  r_total : jsval;
  r_limit : jsval;
  r_country : jsval;
  r_pagination : option pagination_reply;
  r_user_preferences : jsval
}.

(** The axios client: every request either resolves with a reply or rejects
    (connection refused, timeout, non-2xx status). *)
Record client : Type := Client {
  get_health : outcome jsval;
  get_cities_top : Z -> outcome reply;
  get_cities_by_country : string -> Z -> outcome reply;
  post_cities_personalized : obj -> Z -> Z -> outcome reply
}.

(** What the service methods resolve with; a property a method does not set
    reads as [undefined]. *)
Record result : Type := Result {
  success : bool;
  data_member : option (list obj);
  total : jsval;
  limit : jsval;
  country : jsval;
  offset : jsval;
  current_page : jsval;
  total_pages : jsval;
  has_next_page : jsval;
  has_prev_page : jsval;
  userPreferences : jsval
}.

(** [mlResult.data] where it is an array; the empty array stands in where
    the member is missing, which the routes meet as a TypeError before they
    read an element. *)
Definition data (r : result) : list obj := default [] (data_member r).

Definition handleError (operation : string) (error : exn) : exn := ServiceError.

(** [try { body } catch (error) { throw this.handleError(operation, error) }] *)
Definition rethrow {A} (operation : string) (body : outcome A) : outcome A :=
  match body with
  | Returns a => Returns a
  | Throws e => Throws (handleError operation e)
  end.

Definition checkHealth (c : client) : bool :=
  try_catch (_ ← get_health c; Returns true) (fun _ => false).

Definition isAvailable (c : client) : bool := checkHealth c.

Definition getTopCities (c : client) (limit : Z) : outcome result :=
  rethrow "getTopCities"
    (response ← get_cities_top c (Z.min limit 50);
     Returns {| success := true; data_member := r_data response;
                total := r_total response; limit := r_limit response;
                country := VUndefined; offset := VUndefined;
                current_page := VUndefined; total_pages := VUndefined;
                has_next_page := VUndefined; has_prev_page := VUndefined;
                userPreferences := VUndefined |}).

Definition getCitiesByCountry (c : client) (country : string) (limit : Z)
  : outcome result :=
  rethrow "getCitiesByCountry"
    (if String.eqb (trim country) "" then Throws ServiceError else
     response ← get_cities_by_country c country (Z.min limit 50);
     Returns {| success := true; data_member := r_data response;
                total := r_total response; limit := VUndefined;
                country := r_country response; offset := VUndefined;
                current_page := VUndefined; total_pages := VUndefined;
                has_next_page := VUndefined; has_prev_page := VUndefined;
                userPreferences := VUndefined |}).

(** [response.data.pagination || {}], then one member of it. *)
Definition pagination_member (p : option pagination_reply)
  (member : pagination_reply -> jsval) : jsval :=
  match p with
  | Some pg => member pg
  | None => VUndefined
  end.

(** [userPreferences] is a row of the users table, an object, so the guard
    on its type never fires. *)
Definition getPersonalizedCities (c : client) (userPreferences : obj)
  (limit page : Z) : outcome result :=
  rethrow "getPersonalizedCities"
    (let validatedLimit := Z.min limit 200 in
     let validatedPage := Z.max page 1 in
     response ← post_cities_personalized c userPreferences
                  validatedLimit validatedPage;
     let pagination := r_pagination response in
     Returns {| success := true; data_member := r_data response;
                total := r_total response; limit := r_limit response;
                country := VUndefined;
                offset := pagination_member pagination pg_offset;
                current_page := pagination_member pagination pg_current_page;
                total_pages := pagination_member pagination pg_total_pages;
                has_next_page := pagination_member pagination pg_has_next_page;
                has_prev_page := pagination_member pagination pg_has_prev_page;
                userPreferences := r_user_preferences response |}).

(** [v?.toLowerCase()] inside a template literal: [undefined] and [null]
    print as "undefined"; a value that is neither nullish nor a string has
    no [toLowerCase] method and the call throws. *)
Definition lowered (v : jsval) : outcome string :=
  match v with
  | VUndefined | VNull => Returns "undefined"
  | VStr s => Returns (toLowerCase s)
  | VBool _ | VNum _ => Throws TypeError
  end.

(** The join key: [`${city.name?.toLowerCase()}_${city.country?.toLowerCase()}`] *)
Definition key (city : obj) : outcome string :=
  n ← lowered (get city "name");
  c ← lowered (get city "country");
  Returns (n +:+ "_" +:+ c).

(** [mlCities.forEach(mlCity => mlMap.set(key, mlCity))] *)
Fixpoint build_map (mlCities : list obj) (mlMap : gmap string obj)
  : outcome (gmap string obj) :=
  match mlCities with
  | [] => Returns mlMap
  | mlCity :: rest =>
      k ← key mlCity;
      build_map rest (<[k := mlCity]> mlMap)
  end.

Definition enhanced (dbCity mlCity : obj) : obj :=
  <["ml_enhanced" := VBool true]>
    (<["predicted_score" := get mlCity "predicted_score"]> dbCity).

Definition unenhanced (dbCity : obj) : obj :=
  <["ml_enhanced" := VBool false]> (<["predicted_score" := VInt 0]> dbCity).

Definition merge_one (mlMap : gmap string obj) (dbCity : obj) : outcome obj :=
  k ← key dbCity;
  match mlMap !! k with
  | Some mlCity => Returns (enhanced dbCity mlCity)
  | None => Returns (unenhanced dbCity)
  end.

Definition mergeCityData (dbCities mlCities : jsarg) : outcome jsarg :=
  match dbCities, mlCities with
  | Arr db, Arr ml =>
      mlMap ← build_map ml ∅;
      merged ← mapM (merge_one mlMap) db;
      Returns (Arr merged)
  | _, _ =>
      Returns (match dbCities with
               | NonArr v => if truthy v then dbCities else Arr []
               | Arr _ => dbCities
               end)
  end.

End PythonService.

(** ** The request and the collaborators of the routes *)

Module Express.

(** [req.query], the value of [req.headers.authorization?.split(' ')[1]],
    and [req.user.id] as [optionalAuth] leaves it.  Every member of the query
    is a single string when present, which is what Express delivers for a key
    that is given once and without brackets.  (A repeated or bracketed key
    arrives as an array or an object; these routes are not modelled on such a
    request, on which [sort_order.toUpperCase()] throws and they answer
    500.) *)
Record request : Type := Request {
  page : option string;
  limit : option string;
  country : option string;
  climate : option string;
  min_cost : option string;
  max_cost : option string;
  min_safety : option string;
  sort_by : option string;
  sort_order : option string;
  token : option string;
  user : option string
}.

(** [const { name = d } = req.query] *)
Definition param (v : option string) (d : jsval) : jsval :=
  match v with
  | Some s => VStr s
  | None => d
  end.

Definition param_string (v : option string) (d : string) : string :=
  default d v.

(** [if (name)] for a query member: present and not the empty string. *)
Definition given (v : option string) : option string :=
  match v with
  | Some s => if truthy (VStr s) then Some s else None
  | None => None
  end.

End Express.

Module Db.

(** One conjunct of the WHERE clause together with its bound parameter. *)
Inductive cond : Type :=
  | CountryLike (pattern : string)
  | ClimateLike (pattern : string)
  | CostAtLeast (q : Q)
  | CostAtMost (q : Q)
  | SafetyAtLeast (q : Q).

(** [SELECT ... FROM cities WHERE q_where ORDER BY q_field q_order
    LIMIT q_limit OFFSET q_offset] *)
Record query : Type := Query {
  q_where : list cond;
  q_field : string;
  q_order : string;
  q_limit : Z;
  q_offset : option Z
}.

End Db.

(** The builtins that are not modelled ([parseFloat], the conversion of a
    string to a number, [JSON.parse] of the lifestyle column), the connection
    pool, the token verifier and the client of the prediction service. *)
Record world : Type := World {
  parseFloat : string -> option Q;
  StringToNumber : string -> option Q;
  parse_lifestyle_priorities : obj -> obj;
  count_cities : list Db.cond -> outcome Z;
  select_cities : Db.query -> outcome (list obj);
  select_saved : string -> jsval -> outcome bool;
  select_user : string -> outcome (option obj);
  jwt_verify : string -> outcome (option string);
  python : PythonService.client
}.

(** ** What the two cities routers share *)

Module Routes.

Definition like (s : string) : string := "%" +:+ Helpers.sanitizeInput s +:+ "%".

Definition push_like (mk : string -> Db.cond) (v : option string)
  (whereParams : list Db.cond) : list Db.cond :=
  match Express.given v with
  | Some s => whereParams ++ [mk (like s)]
  | None => whereParams
  end.

Definition push_number (w : world) (mk : Q -> Db.cond) (v : option string)
  (whereParams : list Db.cond) : list Db.cond :=
  match Express.given v with
  | Some s =>
      match parseFloat w s with
      | Some q => whereParams ++ [mk q]
      | None => whereParams
      end
  | None => whereParams
  end.

(** The WHERE clause: country, climate, min_cost, max_cost, min_safety. *)
Definition whereParams (w : world) (req : Express.request) : list Db.cond :=
  push_number w Db.SafetyAtLeast (Express.min_safety req)
    (push_number w Db.CostAtMost (Express.max_cost req)
      (push_number w Db.CostAtLeast (Express.min_cost req)
        (push_like Db.ClimateLike (Express.climate req)
          (push_like Db.CountryLike (Express.country req) [])))).

Definition allowedSortFields : list string :=
  ["name"; "country"; "monthly_cost_usd"; "safety_score";
   "nightlife_rating"; "transport_rating"].

Definition allowedSortOrders : list string := ["ASC"; "DESC"].

Definition includes (l : list string) (s : string) : bool :=
  existsb (String.eqb s) l.

Definition sortField (sort_by : string) : string :=
  if includes allowedSortFields sort_by then sort_by else "name".

Definition sortOrder (sort_order : string) : string :=
  if includes allowedSortOrders (toUpperCase sort_order)
  then toUpperCase sort_order else "ASC".

(** The per-city loop that sets [city.is_saved]. *)
Definition mark_saved (w : world) (userId : string) (city : obj) : outcome obj :=
  saved ← select_saved w userId (get city "id");
  Returns (<["is_saved" := VBool saved]> city).

Definition saved_status (w : world) (user : option string) (cities : list obj)
  : outcome (list obj) :=
  match user with
  | Some userId => mapM (mark_saved w userId) cities
  | None => Returns cities
  end.

Definition with_defaults (city : obj) : obj :=
  <["ml_enhanced" := VBool false]> (<["predicted_score" := VInt 0]> city).

Definition pagination_block (pageNum total limit : Z) : Helpers.pagination Z bool :=
  let totalPages := ceil_quotient total limit in
  let hasNextPage := pageNum <? totalPages in
  let hasPrevPage := 1 <? pageNum in
  {| Helpers.current_page := pageNum;
     Helpers.total_pages := totalPages;
     Helpers.total_items := total;
     Helpers.items_per_page := limit;
     Helpers.has_next_page := hasNextPage;
     Helpers.has_prev_page := hasPrevPage |}.

(** The page and limit of [GET /filter]. *)
Definition filter_pageNum (req : Express.request) : Z :=
  num_or (parseInt (Express.param (Express.page req) (VInt 1))) 1.

Definition filter_limitNum (req : Express.request) : Z :=
  num_or (parseInt (Express.param (Express.limit req) (VInt 20))) 20.

(** The statement [GET /filter] sends for the page of cities. *)
Definition filter_query (w : world) (req : Express.request) : Db.query :=
  let paging := Helpers.paginateResults (VInt (filter_pageNum req))
                                        (VInt (filter_limitNum req)) in
  let offset := Helpers.offset paging in
  let queryLimit := Helpers.limit paging in
  let sortField := sortField (Express.param_string (Express.sort_by req) "name") in
  let sortOrder := sortOrder (Express.param_string (Express.sort_order req) "ASC") in
  {| Db.q_where := whereParams w req; Db.q_field := sortField;
     Db.q_order := sortOrder; Db.q_limit := queryLimit; Db.q_offset := offset |}.

(** [GET /filter], the same text in both routers. *)
Definition get_filter (w : world) (req : Express.request) : Helpers.response :=
  try_catch
    (let pageNum := filter_pageNum req in
     let queryLimit := Db.q_limit (filter_query w req) in
     total ← count_cities w (whereParams w req);
     cities ← select_cities w (filter_query w req);
     cities ← saved_status w (Express.user req) cities;
     Returns (Helpers.successResponse
                (Helpers.Listing cities (pagination_block pageNum total queryLimit))
                "Filtered cities retrieved successfully"))
    (fun _ => Helpers.errorResponse "Failed to retrieve filtered cities" 500).

(** The page and limit of [GET /], clamped before [paginateResults]. *)
Definition list_pageNum (req : Express.request) : Z :=
  Z.max 1 (num_or (parseInt (Express.param (Express.page req) (VInt 1))) 1).

Definition list_limitNum (req : Express.request) : Z :=
  Z.max 1 (Z.min 100
    (num_or (parseInt (Express.param (Express.limit req) (VInt 20))) 20)).

End Routes.

(** ** Array.prototype.sort *)

(** The sort is stable; with a comparator that is a consistent ordering the
    result is the one of this insertion sort.  [x] comes from in front of
    [l], so it moves behind [y] only when the comparator says [x > y]; a NaN
    from the comparator counts as 0. *)
Fixpoint sort_insert {A} (comparefn : A -> A -> option Q) (x : A) (l : list A)
  : list A :=
  match l with
  | [] => [x]
  | y :: r =>
      if Qle_bool (default 0%Q (comparefn x y)) 0
      then x :: y :: r
      else y :: sort_insert comparefn x r
  end.

Fixpoint js_sort {A} (comparefn : A -> A -> option Q) (l : list A) : list A :=
  match l with
  | [] => []
  | x :: r => sort_insert comparefn x (js_sort comparefn r)
  end.

(** ToNumber on the scalar values. *)
Definition toNumber (w : world) (v : jsval) : option Q :=
  match v with
  | VNum q => Some q
  | VBool b => Some (if b then 1%Q else 0%Q)
  | VNull => Some 0%Q
  | VUndefined => None
  | VStr s => StringToNumber w s
  end.

(** ** The cities router that merges predictions into record-store pages *)

Module CitiesRoutes.

(** [city.predicted_score || 0], as the number the subtraction sees. *)
Definition score (w : world) (city : obj) : option Q :=
  let v := get city "predicted_score" in
  toNumber w (if truthy v then v else VInt 0).

(** [(a, b) => (b.predicted_score || 0) - (a.predicted_score || 0)] *)
Definition by_score_desc (w : world) (a b : obj) : option Q :=
  match score w b, score w a with
  | Some sb, Some sa => Some (sb - sa)%Q
  | _, _ => None
  end.

(** The [try] block of the enrichment step of [GET /]; reading the length
    of a [data] that is missing throws. *)
Definition enhance (w : world) (sort_by sort_order : string) (cities : list obj)
  : outcome (list obj) :=
  if PythonService.isAvailable (python w) then
    mlResult ← PythonService.getTopCities (python w) 1000;
    if PythonService.success mlResult then
      match PythonService.data_member mlResult with
      | None => Throws TypeError
      | Some mlCities =>
          if 0 <? Z.of_nat (length mlCities) then
            merged ← PythonService.mergeCityData (Arr cities) (Arr mlCities);
            match merged with
            | Arr enhancedCities =>
                Returns (if String.eqb sort_by "name" && String.eqb sort_order "ASC"
                         then js_sort (by_score_desc w) enhancedCities
                         else enhancedCities)
            | NonArr _ => Throws TypeError
            end
          else Returns cities
      end
    else Returns cities
  else Returns (map Routes.with_defaults cities).

Definition enrich (w : world) (sort_by sort_order : string) (cities : list obj)
  : list obj :=
  try_catch (enhance w sort_by sort_order cities)
            (fun _ => map Routes.with_defaults cities).

(** The record-store query of [GET /]: without filters the statement orders
    by [name ASC]; with filters it orders by the validated sort field and
    order. *)
Definition list_query (whereParams : list Db.cond) (sortField sortOrder : string)
  (finalLimit finalOffset : Z) : Db.query :=
  if (Z.of_nat (length whereParams) =? 0) then
    {| Db.q_where := []; Db.q_field := "name"; Db.q_order := "ASC";
       Db.q_limit := finalLimit; Db.q_offset := Some finalOffset |}
  else
    {| Db.q_where := whereParams; Db.q_field := sortField;
       Db.q_order := sortOrder; Db.q_limit := finalLimit;
       Db.q_offset := Some finalOffset |}.

(** [GET /] *)
Definition get_root (w : world) (req : Express.request) : Helpers.response :=
  try_catch
    (let sort_by := Express.param_string (Express.sort_by req) "name" in
     let sort_order := Express.param_string (Express.sort_order req) "ASC" in
     let pageNum := Routes.list_pageNum req in
     let limitNum := Routes.list_limitNum req in
     let pagination := Helpers.paginateResults (VInt pageNum) (VInt limitNum) in
     let queryLimit := Helpers.limit pagination in
     match Helpers.offset pagination with
     | None => Returns (Helpers.errorResponse "Invalid pagination parameters" 400)
     | Some offset =>
         if (queryLimit <? 1) || (offset <? 0)
         then Returns (Helpers.errorResponse "Invalid pagination parameters" 400)
         else
           let finalLimit := queryLimit in
           let finalOffset := offset in
           let whereParams := Routes.whereParams w req in
           let sortField := Routes.sortField sort_by in
           let sortOrder := Routes.sortOrder sort_order in
           total ← count_cities w whereParams;
           cities ← select_cities w
             (list_query whereParams sortField sortOrder finalLimit finalOffset);
           let cities := enrich w sort_by sort_order cities in
           cities ← Routes.saved_status w (Express.user req) cities;
           Returns (Helpers.successResponse
                      (Helpers.Listing cities
                         (Routes.pagination_block pageNum total finalLimit))
                      "Cities retrieved successfully")
     end)
    (fun _ => Helpers.errorResponse "Failed to retrieve cities" 500).

End CitiesRoutes.

(** ** The cities router that asks the prediction service for the page *)

Module CitiesRoutesDirect.

Definition flag_enhanced (city : obj) : obj := <["ml_enhanced" := VBool true]> city.

(** The call of the [try] block that fetches the page: by country when the
    request names one. *)
Definition service_call (w : world) (country : option string) (finalLimit : Z)
  : outcome PythonService.result :=
  match Express.given country with
  | Some c => PythonService.getCitiesByCountry (python w) c finalLimit
  | None => PythonService.getTopCities (python w) finalLimit
  end.

(** What [cities] holds after the [try] block that fetches the page and its
    [catch].  It starts as the empty array and stays so when the probe fails
    or the call rejects; a call that resolves assigns it [mlResult.data], and
    the flagged copy once [map] has run.  [None] is a [cities] that is not an
    array: the reply had no data, the log line that reads its length threw,
    and the [catch] left [cities] as it was assigned. *)
Definition fetched (w : world) (country : option string) (finalLimit : Z)
  : option (list obj) :=
  if PythonService.isAvailable (python w) then
    match service_call w country finalLimit with
    | Returns mlResult =>
        if PythonService.success mlResult then
          match PythonService.data_member mlResult with
          | Some page => Some (map flag_enhanced page)
          | None => None
          end
        else Some []
    | Throws _ => Some []
    end
  else Some [].

(** The page the prediction service supplied, empty when it supplied
    none. *)
Definition from_python (w : world) (country : option string) (finalLimit : Z)
  : list obj :=
  default [] (fetched w country finalLimit).

(** The fallback statement of [GET /]: with or without filters it orders by
    the validated sort field and order. *)
Definition fallback_query (whereParams : list Db.cond)
  (sortField sortOrder : string) (finalLimit finalOffset : Z) : Db.query :=
  {| Db.q_where := whereParams; Db.q_field := sortField;
     Db.q_order := sortOrder; Db.q_limit := finalLimit;
     Db.q_offset := Some finalOffset |}.

(** [GET /] *)
Definition get_root (w : world) (req : Express.request) : Helpers.response :=
  try_catch
    (let sort_by := Express.param_string (Express.sort_by req) "name" in
     let sort_order := Express.param_string (Express.sort_order req) "ASC" in
     let pageNum := Routes.list_pageNum req in
     let limitNum := Routes.list_limitNum req in
     let pagination := Helpers.paginateResults (VInt pageNum) (VInt limitNum) in
     let queryLimit := Helpers.limit pagination in
     match Helpers.offset pagination with
     | None => Returns (Helpers.errorResponse "Invalid pagination parameters" 400)
     | Some offset =>
         if (queryLimit <? 1) || (offset <? 0)
         then Returns (Helpers.errorResponse "Invalid pagination parameters" 400)
         else
           let finalLimit := queryLimit in
           let finalOffset := offset in
           let whereParams := Routes.whereParams w req in
           let sortField := Routes.sortField sort_by in
           let sortOrder := Routes.sortOrder sort_order in
           total ← count_cities w whereParams;
           match fetched w (Express.country req) finalLimit with
           | None => Throws TypeError
           | Some cities =>
               cities ←
                 (if Z.of_nat (length cities) =? 0 then
                    rows ← select_cities w
                      (fallback_query whereParams sortField sortOrder
                                      finalLimit finalOffset);
                    Returns (map Routes.with_defaults rows)
                  else Returns cities);
               cities ← Routes.saved_status w (Express.user req) cities;
               Returns (Helpers.successResponse
                          (Helpers.Listing cities
                             (Routes.pagination_block pageNum total finalLimit))
                          "Cities retrieved successfully")
           end
     end)
    (fun _ => Helpers.errorResponse "Failed to retrieve cities" 500).

(** [GET /personalized] *)
Definition get_personalized (w : world) (req : Express.request)
  : Helpers.response :=
  try_catch
    (match Express.given (Express.token req) with
     | None => Returns (Helpers.errorResponse "Authentication required" 401)
     | Some token =>
         match jwt_verify w token with
         | Throws _ => Returns (Helpers.errorResponse "Invalid token" 401)
         | Returns userId =>
             match Express.given userId with
             | None => Returns (Helpers.errorResponse "Invalid user token" 401)
             | Some userIdStr =>
                 let limitNum :=
                   Z.min (num_or (parseInt (Express.param (Express.limit req) (VInt 20))) 20) 200 in
                 let pageNum :=
                   Z.max (num_or (parseInt (Express.param (Express.page req) (VInt 1))) 1) 1 in
                 userPrefs ← select_user w userIdStr;
                 match userPrefs with
                 | None => Returns (Helpers.errorResponse "User not found" 404)
                 | Some row =>
                     let userPreferences := parse_lifestyle_priorities w row in
                     mlResult ← PythonService.getPersonalizedCities (python w)
                                  userPreferences limitNum pageNum;
                     if PythonService.success mlResult then
                       data ← match PythonService.data_member mlResult with
                              | Some data => Returns data
                              | None => Throws TypeError
                              end;
                       cities ← mapM (Routes.mark_saved w userIdStr) data;
                       Returns (Helpers.successResponse
                         (Helpers.Personalized cities
                            {| Helpers.current_page := PythonService.current_page mlResult;
                               Helpers.total_pages := PythonService.total_pages mlResult;
                               Helpers.total_items := PythonService.total mlResult;
                               Helpers.items_per_page := PythonService.limit mlResult;
                               Helpers.has_next_page := PythonService.has_next_page mlResult;
                               Helpers.has_prev_page := PythonService.has_prev_page mlResult |}
                            (PythonService.userPreferences mlResult))
                         "Personalized city recommendations retrieved successfully")
                     else Returns (Helpers.errorResponse
                                     "Failed to get personalized recommendations" 500)
                 end
             end
         end
     end)
    (fun _ => Helpers.errorResponse "Failed to retrieve personalized cities" 500).

End CitiesRoutesDirect.

(** ** Vocabulary of the statements *)

(** An integer JavaScript computes with exactly: its magnitude is below
    2^53, so it is a number and not the rounding of another integer. *)
Definition safe_integer (z : Z) : Prop := Z.abs z < 2 ^ 53.


(** The string of [n] digits 1. *)
Definition ones (n : nat) : string := string_of_list_ascii (repeat "1"%char n).

(** A name or country the key can be computed from: a string, or nullish. *)
Definition stringish (v : jsval) : bool :=
  match v with
  | VUndefined | VNull | VStr _ => true
  | VBool _ | VNum _ => false
  end.

(** A city record as both sources deliver it: [name] and [country] are
    strings when present. *)
Definition well_keyed (city : obj) : bool :=
  stringish (get city "name") && stringish (get city "country").

(** The join key of a record whose key computation returns. *)
Definition key_of (city : obj) : string :=
  match PythonService.key city with
  | Returns k => k
  | Throws _ => ""
  end.

(** The last prediction of the list that has the key. *)
Fixpoint last_with_key (k : string) (mlCities : list obj) : option obj :=
  match mlCities with
  | [] => None
  | mlCity :: rest =>
      match last_with_key k rest with
      | Some found => Some found
      | None => if String.eqb (key_of mlCity) k then Some mlCity else None
      end
  end.

(** The record [mergeCityData] builds for one record of the store. *)
Definition merged_record (mlCities : list obj) (dbCity : obj) : obj :=
  match last_with_key (key_of dbCity) mlCities with
  | Some mlCity => PythonService.enhanced dbCity mlCity
  | None => PythonService.unenhanced dbCity
  end.

(** The OFFSET of the statement of the two [GET /] handlers: the offset the
    helper returns for their page and limit (0 stands in for a NaN, which the
    guard of the handlers answers with 400). *)
Definition list_offset (req : Express.request) : Z :=
  default 0
    (Helpers.offset
       (Helpers.paginateResults (VInt (Routes.list_pageNum req))
                                (VInt (Routes.list_limitNum req)))).

(** The statement the merging router sends for the page of [GET /], and
    the fallback statement of the router that asks the prediction service
    first, which is sent when the service supplied no city. *)
Definition merging_list_query (w : world) (req : Express.request) : Db.query :=
  CitiesRoutes.list_query (Routes.whereParams w req)
    (Routes.sortField (Express.param_string (Express.sort_by req) "name"))
    (Routes.sortOrder (Express.param_string (Express.sort_order req) "ASC"))
    (Routes.list_limitNum req)
    (list_offset req).

Definition direct_list_query (w : world) (req : Express.request) : Db.query :=
  CitiesRoutesDirect.fallback_query (Routes.whereParams w req)
    (Routes.sortField (Express.param_string (Express.sort_by req) "name"))
    (Routes.sortOrder (Express.param_string (Express.sort_order req) "ASC"))
    (Routes.list_limitNum req)
    (list_offset req).

(** The three listing routes whose pagination block is computed from the
    record store, with the statement each sends for its page; the router that
    asks the prediction service first sends its statement only when the
    service supplied no city. *)
Inductive listing_route : Type := Filter | MergingList | DirectList.

Definition listing_handler (route : listing_route)
  : world -> Express.request -> Helpers.response :=
  match route with
  | Filter => Routes.get_filter
  | MergingList => CitiesRoutes.get_root
  | DirectList => CitiesRoutesDirect.get_root
  end.

Definition listing_query (route : listing_route)
  : world -> Express.request -> Db.query :=
  match route with
  | Filter => Routes.filter_query
  | MergingList => merging_list_query
  | DirectList => direct_list_query
  end.


(** [city] is [row] up to the three properties the routes set. *)
Definition same_city (row city : obj) : Prop :=
  forall k : string,
    k <> "predicted_score" -> k <> "ml_enhanced" -> k <> "is_saved" ->
    city !! k = row !! k.

(** What the saved-status loop makes of one city when its lookups return. *)
Definition annotate (w : world) (user : option string) (city : obj) : obj :=
  match user with
  | Some userId =>
      match select_saved w userId (get city "id") with
      | Returns saved => <["is_saved" := VBool saved]> city
      | Throws _ => city
      end
  | None => city
  end.

(** The score the comparator of the sort reads off a city, 0 for NaN. *)
Definition score_of (w : world) (city : obj) : Q :=
  default 0%Q (CitiesRoutes.score w city).

(** The probe says the prediction service is down, or its call fails: in
    the merging router the try block of the enrichment step throws anywhere,
    in the router that asks the service first the call to the service
    throws. *)
Definition enrichment_fails (route : listing_route) (w : world)
  (req : Express.request) (rows : list obj) : Prop :=
  PythonService.isAvailable (python w) = false \/
  match route with
  | Filter => False
  | MergingList =>
      exists e,
        CitiesRoutes.enhance w
          (Express.param_string (Express.sort_by req) "name")
          (Express.param_string (Express.sort_order req) "ASC") rows = Throws e
  | DirectList =>
      exists e,
        CitiesRoutesDirect.service_call w (Express.country req)
          (Routes.list_limitNum req) = Throws e
  end.

(** The comparator [(a, b) => key(b) - key(a)], the order it sorts into,
    and the test for a given key. *)
Definition descending_by {A} (key : A -> Q) (a b : A) : option Q :=
  Some (key b - key a)%Q.

Definition not_below {A} (key : A -> Q) (a b : A) : Prop := (key b <= key a)%Q.

Definition has_key {A} (key : A -> Q) (q : Q) (a : A) : bool :=
  Qeq_bool (key a) q.

(** ** Records of the scenarios *)

Module Scenario.

Definition lisbon : obj :=
  {[ "name" := VStr "Lisbon"; "country" := VStr "Portugal" ]}.

Definition bangkok : obj :=
  {[ "name" := VStr "Bangkok"; "country" := VStr "Thailand" ]}.

Definition chiang_mai : obj :=
  {[ "name" := VStr "Chiang Mai"; "country" := VStr "Thailand" ]}.

Definition lisbon_scored : obj :=
  {[ "name" := VStr "lisbon"; "country" := VStr "PORTUGAL";
     "predicted_score" := VNum 0.72 ]}.

Definition lisbon_rescored : obj :=
  {[ "name" := VStr "Lisbon"; "country" := VStr "Portugal";
     "predicted_score" := VNum 0.31 ]}.

Definition bangkok_scored : obj :=
  {[ "name" := VStr "Bangkok"; "country" := VStr "Thailand";
     "predicted_score" := VNum 0.85 ]}.

(** A prediction service that answers every request with the given
    predictions, and one that is down. *)
Definition answer (predictions : list obj) : PythonService.reply :=
  {| PythonService.r_data := Some predictions;
     PythonService.r_total := VInt 42;
     PythonService.r_limit := VInt 20;
     PythonService.r_country := VUndefined;
     PythonService.r_pagination :=
       Some {| PythonService.pg_offset := VInt 20;
               PythonService.pg_current_page := VInt 2;
               PythonService.pg_total_pages := VInt 5;
               PythonService.pg_has_next_page := VBool true;
               PythonService.pg_has_prev_page := VBool true |};
     PythonService.r_user_preferences := VUndefined |}.

Definition python_up (predictions : list obj) : PythonService.client :=
  {| PythonService.get_health := Returns VNull;
     PythonService.get_cities_top := fun _ => Returns (answer predictions);
     PythonService.get_cities_by_country := fun _ _ => Returns (answer predictions);
     PythonService.post_cities_personalized :=
       fun _ _ _ => Returns (answer predictions) |}.

Definition python_down : PythonService.client :=
  {| PythonService.get_health := Throws ServiceError;
     PythonService.get_cities_top := fun _ => Throws ServiceError;
     PythonService.get_cities_by_country := fun _ _ => Throws ServiceError;
     PythonService.post_cities_personalized := fun _ _ _ => Throws ServiceError |}.

(** A world whose record store answers every statement: [total] cities
    match, the page holds [rows], no city is saved, the user exists and the
    token is the one of user u1.  The requests of the scenarios carry no
    numeric filter and the scores are numbers, so the string conversions
    are never called. *)
Definition a_world (service : PythonService.client) (rows : list obj) (total : Z)
  : world :=
  {| parseFloat := fun _ => None;
     StringToNumber := fun _ => None;
     parse_lifestyle_priorities := fun row => row;
     count_cities := fun _ => Returns total;
     select_cities := fun _ => Returns rows;
     select_saved := fun _ _ => Returns false;
     select_user := fun _ => Returns (Some ∅);
     jwt_verify := fun _ => Returns (Some "u1");
     python := service |}.

(** [GET <route>?page=..&limit=..&sort_by=..&sort_order=..] with a bearer
    token and no [req.user]. *)
Definition a_request (page limit sort_by sort_order : option string)
  : Express.request :=
  {| Express.page := page; Express.limit := limit;
     Express.country := None; Express.climate := None;
     Express.min_cost := None; Express.max_cost := None;
     Express.min_safety := None;
     Express.sort_by := sort_by; Express.sort_order := sort_order;
     Express.token := Some "t"; Express.user := None |}.

End Scenario.

(** ** Vocabulary of the further statements *)

(** The world with another client of the prediction service. *)
Definition with_python (w : world) (service : PythonService.client) : world :=
  {| parseFloat := parseFloat w;
     StringToNumber := StringToNumber w;
     parse_lifestyle_priorities := parse_lifestyle_priorities w;
     count_cities := count_cities w;
     select_cities := select_cities w;
     select_saved := select_saved w;
     select_user := select_user w;
     jwt_verify := jwt_verify w;
     python := service |}.

(** The world with another answer to the statement for the page of cities. *)
Definition with_select_cities (w : world)
  (select : Db.query -> outcome (list obj)) : world :=
  {| parseFloat := parseFloat w;
     StringToNumber := StringToNumber w;
     parse_lifestyle_priorities := parse_lifestyle_priorities w;
     count_cities := count_cities w;
     select_cities := select;
     select_saved := select_saved w;
     select_user := select_user w;
     jwt_verify := jwt_verify w;
     python := python w |}.

(** The user id the token-checking routes end up with: the token is there,
    it verifies, and its payload carries a user id. *)
Definition authenticated (w : world) (req : Express.request) : option string :=
  match Express.given (Express.token req) with
  | Some token =>
      match jwt_verify w token with
      | Returns userId => Express.given userId
      | Throws _ => None
      end
  | None => None
  end.

(** The characters of a string, first to last. *)
Definition chars (s : string) : list ascii := list_ascii_of_string s.

Definition is_angle (c : ascii) : bool := Ascii.eqb c "<" || Ascii.eqb c ">".

(** ** [GET /saved] of the router that asks the prediction service first *)

(** [array.slice(start, end)]: a negative index counts from the end, and
    both are clamped to the array. *)
Definition slice {A} (l : list A) (start end_ : Z) : list A :=
  let len := Z.of_nat (length l) in
  let k := if start <? 0 then Z.max (len + start) 0 else Z.min start len in
  let final := if end_ <? 0 then Z.max (len + end_) 0 else Z.min end_ len in
  take (Z.to_nat (final - k)) (drop (Z.to_nat k) l).

Module CitiesRoutesSaved.

(** The statements of the route on the saved_cities table of one user:
    the count, the join without a window, and the fallback join with its
    fixed window [ORDER BY c.name LIMIT 20 OFFSET 0].  (The route also sends
    a test statement whose outcome it only logs.) *)
Record store : Type := Store {
  count_saved : string -> outcome Z;
  test_saved : string -> outcome Z;
  select_all_saved : string -> outcome (list obj);
  select_first_saved : string -> outcome (list obj)
}.

Definition pageNum (req : Express.request) : Z :=
  num_or (parseInt (Express.param (Express.page req) (VInt 1))) 1.

Definition limitNum (req : Express.request) : Z :=
  num_or (parseInt (Express.param (Express.limit req) (VInt 20))) 20.

Definition finalLimit (req : Express.request) : Z :=
  Z.max 1 (Z.min (num_or (parseInt (VInt (limitNum req))) 20) 100).

(** [Math.max(0, (parseInt(pageNum) || 1) - 1) * finalLimit].  The product
    is kept exact: it is rounded only from 2^53 on, beyond the length of every
    array, where the slice is empty either way. *)
Definition finalOffset (req : Express.request) : Z :=
  Z.max 0 (js_sub (num_or (parseInt (VInt (pageNum req))) 1) 1) * finalLimit req.

Definition mark (city : obj) : obj := <["is_saved" := VBool true]> city.

(** The page of saved cities: the slice of the whole list, or the rows of
    the fallback statement when the first statement throws. *)
Definition saved_page (s : store) (userIdStr : string) (mysqlLimit mysqlOffset : Z)
  : outcome (list obj) :=
  match select_all_saved s userIdStr with
  | Returns allSavedCities =>
      let startIndex := mysqlOffset in
      let endIndex := startIndex + mysqlLimit in
      Returns (slice allSavedCities startIndex endIndex)
  | Throws _ => select_first_saved s userIdStr
  end.

(** [GET /saved] *)
Definition get_saved (w : world) (s : store) (req : Express.request)
  : Helpers.response :=
  try_catch
    (match Express.given (Express.token req) with
     | None => Returns (Helpers.errorResponse "Authentication required" 401)
     | Some token =>
         match jwt_verify w token with
         | Throws _ => Returns (Helpers.errorResponse "Invalid token" 401)
         | Returns userId =>
             match Express.given userId with
             | None => Returns (Helpers.errorResponse "Invalid user token" 401)
             | Some userIdStr =>
                 let pageNum := pageNum req in
                 let finalLimit := finalLimit req in
                 let finalOffset := finalOffset req in
                 if (finalLimit <? 0) || (finalOffset <? 0)
                 then Returns (Helpers.errorResponse "Internal server error" 500)
                 else
                   total ← count_saved s userIdStr;
                   let logged := try_catch (test_saved s userIdStr) (fun _ => 0) in
                   savedCities ← saved_page s userIdStr finalLimit finalOffset;
                   let cities := map mark savedCities in
                   Returns (Helpers.successResponse
                              (Helpers.Listing cities
                                 (Routes.pagination_block pageNum total finalLimit))
                              "Saved cities retrieved successfully")
             end
         end
     end)
    (fun _ => Helpers.errorResponse "Failed to retrieve saved cities" 500).

End CitiesRoutesSaved.

(** The cities of a successful page of [GET /saved]. *)
Definition saved_cities_of (resp : Helpers.response) : list obj :=
  match Helpers.json resp with
  | Helpers.Success _ (Helpers.Listing cities _) => cities
  | _ => []
  end.

(** A store of saved cities that answers every statement: the user has
    saved the cities [all]. *)
Definition a_saved_store (all : list obj) : CitiesRoutesSaved.store :=
  {| CitiesRoutesSaved.count_saved := fun _ => Returns (Z.of_nat (length all));
     CitiesRoutesSaved.test_saved := fun _ => Returns (Z.of_nat (length all));
     CitiesRoutesSaved.select_all_saved := fun _ => Returns all;
     CitiesRoutesSaved.select_first_saved := fun _ => Returns (take 20 all) |}.

(** ** Responses whose data is not a page of cities *)

Module Http.

Inductive body (A : Type) : Type :=
  | Success (message : string) (data : A)
  | Failure (message : string) (code : Z).
Arguments Success {A} message data.
Arguments Failure {A} message code.

Record response (A : Type) : Type := Response { status : Z; json : body A }.
Arguments Response {A} status json.
Arguments status {A} r.
Arguments json {A} r.

Definition successResponse {A} (data : A) (message : string) : response A :=
  {| status := 200; json := Success message data |}.

Definition errorResponse {A} (message : string) (statusCode : Z) : response A :=
  {| status := statusCode; json := Failure message statusCode |}.

End Http.

(** ** [POST /:id/save] *)

Module CitiesRoutesSave.

(** The four statements of the route. *)
Inductive statement : Type := CityCheck | ExistingSave | DeleteSave | InsertSave.

(** The cities table (which ids it holds) and, for each statement, whether
    the pool throws on it; a statement that throws leaves saved_cities as it
    was. *)
Record tables : Type := Tables {
  known_city : string -> bool;
  throws : statement -> bool
}.

(** [await pool.execute(statement)] with the given effect. *)
Definition execute {A} (t : tables) (st : statement) (result : A) : outcome A :=
  if throws t st then Throws StorageError else Returns result.

(** The handler, from the saved_cities table (pairs of user id and city
    id) to the response with its [is_saved] and the table it leaves. *)
Definition post_save (w : world) (t : tables) (id : string)
  (req : Express.request) (saved_cities : gset (string * string))
  : Http.response bool * gset (string * string) :=
  try_catch
    (match Express.given (Express.token req) with
     | None =>
         Returns (Http.errorResponse "Authentication required" 401, saved_cities)
     | Some token =>
         match jwt_verify w token with
         | Throws _ => Returns (Http.errorResponse "Invalid token" 401, saved_cities)
         | Returns userId =>
             match Express.given userId with
             | None =>
                 Returns (Http.errorResponse "Invalid user token" 401, saved_cities)
             | Some userIdStr =>
                 if negb (truthy (VStr id))
                 then Returns (Http.errorResponse "City ID is required" 400,
                               saved_cities)
                 else
                   let cityIdStr := id in
                   cityCheck ← execute t CityCheck (known_city t cityIdStr);
                   if negb cityCheck
                   then Returns (Http.errorResponse "City not found" 404, saved_cities)
                   else
                     existingSave ← execute t ExistingSave
                       (bool_decide ((userIdStr, cityIdStr) ∈ saved_cities));
                     if (existingSave : bool) then
                       left ← execute t DeleteSave
                                (saved_cities ∖ {[ (userIdStr, cityIdStr) ]});
                       Returns (Http.successResponse false
                                  "City removed from saved list", left)
                     else
                       grown ← execute t InsertSave
                                 ({[ (userIdStr, cityIdStr) ]} ∪ saved_cities);
                       Returns (Http.successResponse true
                                  "City saved successfully", grown)
             end
         end
     end)
    (fun _ => (Http.errorResponse "Failed to save/unsave city" 500, saved_cities)).

End CitiesRoutesSave.

(** Tables that hold the given cities and never throw. *)
Definition sound_tables (cities : list string) : CitiesRoutesSave.tables :=
  {| CitiesRoutesSave.known_city := fun id => existsb (String.eqb id) cities;
     CitiesRoutesSave.throws := fun _ => false |}.

(** ** middleware/auth.middleware.js *)

(** [s.split(' ')]: the pieces between single spaces, at least one. *)
Fixpoint split_space (s : string) : list string :=
  match s with
  | EmptyString => [EmptyString]
  | String c r =>
      if Ascii.eqb c " " then EmptyString :: split_space r
      else match split_space r with
           | piece :: pieces => String c piece :: pieces
           | [] => [String c EmptyString]
           end
  end.

Module AuthMiddleware.

(** What an awaited call gives: a value, or an error with its [name]. *)
Inductive attempt (A : Type) : Type :=
  | Resolved (a : A)
  | Rejected (name : string).
Arguments Resolved {A} a.
Arguments Rejected {A} name.

(** [jwt.verify] (to [decoded.userId]) and the statement that reads the
    user with that id. *)
Record services : Type := Services {
  verify : string -> attempt jsval;
  select_user_by_id : jsval -> attempt (list obj)
}.

(** [authHeader && authHeader.split(' ')[1]]; [None] is [undefined]. *)
Definition token_of (authHeader : option string) : option string :=
  match authHeader with
  | None => None
  | Some header =>
      if truthy (VStr header) then split_space header !! 1%nat else Some header
  end.

(** The ways the middleware ends: [next()] with [req.user], or a response
    with a status, an error and a message. *)
Inductive verdict : Type :=
  | Next (user : obj)
  | Denied (status : Z) (error message : string).

Definition on_error (name : string) : verdict :=
  if String.eqb name "JsonWebTokenError"
  then Denied 401 "Access denied" "Invalid token"
  else if String.eqb name "TokenExpiredError"
  then Denied 401 "Access denied" "Token expired"
  else Denied 500 "Internal server error" "Authentication failed".

Definition authenticateToken (s : services) (authHeader : option string)
  : verdict :=
  match Express.given (token_of authHeader) with
  | None => Denied 401 "Access denied" "No token provided"
  | Some token =>
      match verify s token with
      | Rejected name => on_error name
      | Resolved userId =>
          match select_user_by_id s userId with
          | Rejected name => on_error name
          | Resolved [] => Denied 401 "Access denied" "Invalid token"
          | Resolved (user :: _) => Next user
          end
      end
  end.

(** [optionalAuth] always calls [next()]; the result is [req.user]. *)
Definition optionalAuth (s : services) (authHeader : option string)
  : option obj :=
  match Express.given (token_of authHeader) with
  | None => None
  | Some token =>
      match verify s token with
      | Rejected _ => None
      | Resolved userId =>
          match select_user_by_id s userId with
          | Rejected _ => None
          | Resolved [] => None
          | Resolved (user :: _) => Some user
          end
      end
  end.

End AuthMiddleware.

(** A string without a space. *)
Definition spaceless (s : string) : Prop := Forall (fun c => c <> " "%char) (chars s).

(** ** The jobs router *)

Module JobsRoutes.

(** [req.query] of [GET /]; [None] is a key the query string does not
    have. *)
Record query : Type := Query {
  category : option qvalue;
  company_name : option qvalue;
  search : option qvalue;
  limit : option qvalue
}.

(** The [params] object sent to the Remotive API; [None] is a member that
    was not set. *)
Record params : Type := Params {
  p_category : option qvalue;
  p_company_name : option qvalue;
  p_search : option qvalue;
  p_limit : option Z
}.

(** How [axios.get] ends: a body ([job-count] and, when the body has it, the
    [jobs] array), an error with a response, an error with only a request,
    or any other error. *)
Inductive upstream : Type :=
  | Replied (job_count : jsval) (jobs : option (list obj))
  | ResponseError (status : Z)
  | RequestError
  | OtherError.

Record listing : Type := Listing { total_jobs : jsval; jobs : list obj }.

(** [if (v)] for a member of the query: of the values Express gives, only
    the empty string is falsy. *)
Definition given (v : option qvalue) : option qvalue :=
  match v with
  | Some (QString "") | None => None
  | Some x => Some x
  end.

(** [if (name) params.name = sanitizeInput(name)] *)
Definition text_param (v : option qvalue) : option qvalue :=
  match given v with
  | Some x => Some (Helpers.sanitizeInput_any x)
  | None => None
  end.

(** [if (limit) { limitNum = parseInt(limit); if (!isNaN(limitNum) &&
    limitNum > 0) params.limit = limitNum }] for a limit that is a string. *)
Definition limit_param (v : option string) : option Z :=
  match Express.given v with
  | Some s =>
      match parseInt (VStr s) with
      | Some limitNum => if 0 <? limitNum then Some limitNum else None
      | None => None
      end
  | None => None
  end.

(** The same for any member: [parseInt] reads the string of an array or
    an object. *)
Definition limit_member (v : option qvalue) : option Z :=
  match given v with
  | Some x =>
      match parseInt (VStr (to_string x)) with
      | Some limitNum => if 0 <? limitNum then Some limitNum else None
      | None => None
      end
  | None => None
  end.

Definition params_of (q : query) : params :=
  {| p_category := text_param (category q);
     p_company_name := text_param (company_name q);
     p_search := text_param (search q);
     p_limit := limit_member (limit q) |}.

(** The members a formatted job is built from, under their new names. *)
Definition formatted_from : list (string * string) :=
  [("id", "id"); ("title", "title"); ("company_name", "company_name");
   ("company_logo", "company_logo"); ("category", "category");
   ("job_type", "job_type"); ("salary", "salary");
   ("location", "candidate_required_location");
   ("publication_date", "publication_date"); ("url", "url");
   ("description", "description")].

(** [job => ({ id: job.id, ..., location: job.candidate_required_location,
    ... })] *)
Definition format (job : obj) : obj :=
  foldr (fun '(to, from) formatted => <[to := get job from]> formatted)
        ∅ formatted_from.

(** [GET /] *)
Definition get_jobs (remotive : params -> upstream) (q : query)
  : Http.response listing :=
  match remotive (params_of q) with
  | Replied job_count (Some upstream_jobs) =>
      Http.successResponse
        {| total_jobs := job_count; jobs := map format upstream_jobs |}
        "Jobs retrieved successfully"
  | Replied _ None => Http.errorResponse "Failed to retrieve jobs" 500
  | ResponseError status =>
      Http.errorResponse ("External API error: " +:+ pretty status) status
  | RequestError => Http.errorResponse "Network error while fetching jobs" 503
  | OtherError => Http.errorResponse "Failed to retrieve jobs" 500
  end.

(** The [params] of [GET /latest]: [{ limit: parseInt(limit) || 10 }] *)
Definition latest_limit (limit : option string) : Z :=
  num_or (parseInt (Express.param limit (VInt 10))) 10.

End JobsRoutes.

(** What [GET /jobs] sends for a text member of the query: nothing for a
    missing member or the empty string; a string sanitized, so without [<]
    and [>]; an array or an object as it came. *)
Definition forwarded_text (given_value sent : option qvalue) : Prop :=
  match given_value with
  | None | Some (QString "") => sent = None
  | Some (QString given_text) =>
      sent = Some (QString (Helpers.sanitizeInput given_text)) /\
      Forall (fun c => c <> "<"%char /\ c <> ">"%char)
             (chars (Helpers.sanitizeInput given_text))
  | Some given_value => sent = Some given_value
  end.

(** [formatted] is what [GET /jobs] makes of the upstream [job]. *)
Definition formats (job formatted : obj) : Prop :=
  dom formatted = list_to_set (map fst JobsRoutes.formatted_from) /\
  formatted !! "location" = Some (get job "candidate_required_location") /\
  forall k, k ∈ dom formatted -> k <> "location" ->
            formatted !! k = Some (get job k).

(** A job as Remotive sends it, with a member the router does not copy. *)
Definition a_job : obj :=
  {[ "id" := VInt 7; "title" := VStr "Editor";
     "candidate_required_location" := VStr "Worldwide";
     "job_type" := VStr "contract" ]}.

(** Services that accept the token [good] only, and know one user. *)
Definition a_services : AuthMiddleware.services :=
  {| AuthMiddleware.verify := fun token =>
       if String.eqb token "good" then AuthMiddleware.Resolved (VInt 7)
       else AuthMiddleware.Rejected "JsonWebTokenError";
     AuthMiddleware.select_user_by_id := fun _ =>
       AuthMiddleware.Resolved [ {[ "id" := VInt 7 ]} ] |}.

(** ** Regular expressions *)

Module RegExp.

Inductive regex : Type :=
  | Void
  | Eps
  | Class (member : ascii -> bool)
  | Cat (r1 r2 : regex)
  | Alt (r1 r2 : regex)
  | Star (r : regex).

(** [r+] *)
Definition Plus (r : regex) : regex := Cat r (Star r).

(** A literal character. *)
Definition Lit (c : ascii) : regex := Class (Ascii.eqb c).

Definition any : regex := Class (fun _ => true).

Fixpoint nullable (r : regex) : bool :=
  match r with
  | Void => false
  | Eps => true
  | Class _ => false
  | Cat r1 r2 => nullable r1 && nullable r2
  | Alt r1 r2 => nullable r1 || nullable r2
  | Star _ => true
  end.

(** What is left of [r] to match after the character [c]. *)
Fixpoint derive (c : ascii) (r : regex) : regex :=
  match r with
  | Void => Void
  | Eps => Void
  | Class member => if member c then Eps else Void
  | Cat r1 r2 =>
      Alt (Cat (derive c r1) r2) (if nullable r1 then derive c r2 else Void)
  | Alt r1 r2 => Alt (derive c r1) (derive c r2)
  | Star r => Cat (derive c r) (Star r)
  end.

Fixpoint accepts (r : regex) (s : list ascii) : bool :=
  match s with
  | [] => nullable r
  | c :: s => accepts (derive c r) s
  end.

(** The strings a pattern matches from their first to their last
    character. *)
Inductive lang : regex -> list ascii -> Prop :=
  | lang_eps : lang Eps []
  | lang_class member c : member c = true -> lang (Class member) [c]
  | lang_cat r1 r2 s1 s2 :
      lang r1 s1 -> lang r2 s2 -> lang (Cat r1 r2) (s1 ++ s2)%list
  | lang_alt_l r1 r2 s : lang r1 s -> lang (Alt r1 r2) s
  | lang_alt_r r1 r2 s : lang r2 s -> lang (Alt r1 r2) s
  | lang_star_nil r : lang (Star r) []
  | lang_star_cons r s1 s2 :
      lang r s1 -> lang (Star r) s2 -> lang (Star r) (s1 ++ s2)%list.

(** [/^r$/.test(s)] *)
Definition test_whole (r : regex) (s : string) : bool := accepts r (chars s).

(** [/r/.test(s)]: a match anywhere in [s]. *)
Definition test (r : regex) (s : string) : bool :=
  accepts (Cat (Star any) (Cat r (Star any))) (chars s).

End RegExp.

(** ** utils/helpers.js: the validators *)

(** [[lo-hi]] *)
Definition in_range (lo hi c : ascii) : bool :=
  (ascii_code lo <=? ascii_code c) && (ascii_code c <=? ascii_code hi).

(** [[^\s@]] *)
Definition not_space_at (c : ascii) : bool :=
  negb (is_space c || Ascii.eqb c "@").

(** [/^[^\s@]+@[^\s@]+\.[^\s@]+$/] *)
Definition emailRegex : RegExp.regex :=
  RegExp.Cat (RegExp.Plus (RegExp.Class not_space_at))
    (RegExp.Cat (RegExp.Lit "@")
       (RegExp.Cat (RegExp.Plus (RegExp.Class not_space_at))
          (RegExp.Cat (RegExp.Lit ".")
             (RegExp.Plus (RegExp.Class not_space_at))))).

Definition isValidEmail (email : string) : bool :=
  RegExp.test_whole emailRegex email.

(** The twenty characters of the class [hasSpecialChar] tests for; the
    fourteenth is the double quote. *)
Definition special_chars : list ascii :=
  ["!"; "@"; "#"; "$"; "%"; "^"; "&"; "*"; "("; ")"; ","; "."; "?"; "034";
   ":"; "{"; "}"; "|"; "<"; ">"]%char.

Record strength_details : Type := StrengthDetails {
  minLength : bool;
  hasUpperCase : bool;
  hasLowerCase : bool;
  hasNumbers : bool;
  hasSpecialChar : bool
}.

Record strength : Type := Strength {
  isValid : bool;
  details : strength_details
}.

Definition validatePasswordStrength (password : string) : strength :=
  let minLength := 8%nat in
  let hasUpperCase := RegExp.test (RegExp.Class (in_range "A" "Z")) password in
  let hasLowerCase := RegExp.test (RegExp.Class (in_range "a" "z")) password in
  let hasNumbers := RegExp.test (RegExp.Class (in_range "0" "9")) password in
  let hasSpecialChar :=
    RegExp.test
      (RegExp.Class (fun c => existsb (Ascii.eqb c) special_chars)) password in
  {| isValid :=
       (minLength <=? String.length password)%nat
       && hasUpperCase && hasLowerCase && hasNumbers;
     details :=
       {| minLength := (minLength <=? String.length password)%nat;
          hasUpperCase := hasUpperCase;
          hasLowerCase := hasLowerCase;
          hasNumbers := hasNumbers;
          hasSpecialChar := hasSpecialChar |} |}.

(** A string without white space and without [@]. *)
Definition plain (s : string) : Prop :=
  Forall (fun c => is_space c = false /\ c <> "@"%char) (chars s).

(** ** [POST /login] of the auth router *)

Module AuthRoutes.

(** The statement that reads the users with an email, [comparePassword]
    and [generateToken]. *)
Record services : Type := Services {
  select_user_by_email : jsval -> outcome (list obj);
  comparePassword : jsval -> jsval -> outcome bool;
  generateToken : jsval -> outcome string
}.

Record session : Type := Session { user : obj; token : string }.

Definition login (s : services) (email password : jsval)
  : Http.response session :=
  try_catch
    (users ← select_user_by_email s email;
     match users with
     | [] => Returns (Http.errorResponse "Invalid email or password" 401)
     | user :: _ =>
         isPasswordValid ←
           comparePassword s password (get user "password_hash");
         if (isPasswordValid : bool)
         then
           token ← generateToken s (get user "id");
           Returns (Http.successResponse
                      {| user := delete "password_hash" user; token := token |}
                      "Login successful")
         else Returns (Http.errorResponse "Invalid email or password" 401)
     end)
    (fun _ => Http.errorResponse "Login failed" 500).

(** The checks of express-validator the route is registered with:
    [isEmail] and [notEmpty] on a member of the body, and the sanitizer
    [normalizeEmail], which replaces the member. *)
Record validation : Type := Validation {
  isEmail : jsval -> bool;
  normalizeEmail : jsval -> jsval;
  notEmpty : jsval -> bool
}.

(** What the route sends: the response of the handler, or the response of
    [handleValidationErrors],
    [res.status(400).json({ error: 'Validation failed',
    message: 'Please check your input', details })], with the messages of the
    checks that failed. *)
Inductive sent : Type :=
  | Handled (r : Http.response session)
  | ValidationFailed (details : list string).

Definition status (r : sent) : Z :=
  match r with
  | Handled r => Http.status r
  | ValidationFailed _ => 400
  end.

(** [validateUserLogin]: the messages of the failed checks, the email
    first. *)
Definition validateUserLogin (v : validation) (email password : jsval)
  : list string :=
  (if isEmail v email then [] else ["Please provide a valid email address"])
  ++ (if notEmpty v password then [] else ["Password is required"]).

(** [router.post('/login', validateUserLogin, handler)]: the handler runs
    when no check failed, on the normalized email. *)
Definition post_login (v : validation) (s : services) (email password : jsval)
  : sent :=
  match validateUserLogin v email password with
  | [] => Handled (login s (normalizeEmail v email) password)
  | errors => ValidationFailed errors
  end.

End AuthRoutes.

(** Services with one user, whose password is [right]. *)
Definition a_login_services : AuthRoutes.services :=
  {| AuthRoutes.select_user_by_email := fun email =>
       Returns (match email with
                | VStr "ana@nomad.pal" =>
                    [ {[ "id" := VInt 7; "password_hash" := VStr "$2a$12$h" ]} ]
                | _ => []
                end);
     AuthRoutes.comparePassword := fun password _ =>
       Returns (match password with
                | VStr given_password => String.eqb given_password "right"
                | _ => false
                end);
     AuthRoutes.generateToken := fun _ => Returns "t" |}.

(** Checks that take a string with an [@] for an email, lower its case, and
    take every string but the empty one for a password. *)
Definition a_validation : AuthRoutes.validation :=
  {| AuthRoutes.isEmail := fun email =>
       match email with
       | VStr s => existsb (Ascii.eqb "@") (chars s)
       | _ => false
       end;
     AuthRoutes.normalizeEmail := fun email =>
       match email with
       | VStr s => VStr (toLowerCase s)
       | _ => email
       end;
     AuthRoutes.notEmpty := truthy |}.

(** * Properties *)

(** ** Numbers *)

Lemma Qtrunc_inject_Z (z : Z) : Qtrunc (inject_Z z) = z.
Proof.
  unfold Qtrunc. destruct (Qle_bool 0 (inject_Z z)).
  - apply Qfloor_Z.
  - apply Qceiling_Z.
Qed.

Lemma two_53 : 2 ^ 53 = 9007199254740992.
Proof. reflexivity. Qed.

Lemma ten_21 : 10 ^ 21 = 1000000000000000000000.
Proof. reflexivity. Qed.

Lemma ten_21_infinity : 10000000000000000000000000 < infinity.
Proof. by vm_compute. Qed.

(** An integer below 2^53 is a number. *)
Lemma to_double_safe (z : Z) : safe_integer z -> to_double z = z.
Proof.
  unfold safe_integer, to_double. intros H.
  by rewrite (proj2 (Z.ltb_lt _ _) H).
Qed.

Lemma round_half_even_bounds (n d : Z) :
  0 <= n -> 0 < d ->
  0 <= round_half_even n d /\ round_half_even n d * d <= n + d.
Proof.
  intros Hn Hd. unfold round_half_even.
  pose proof (Z.div_pos n d Hn Hd) as Hq.
  pose proof (Z.mul_div_le n d Hd) as Hle.
  destruct (_ || _); split; lia.
Qed.

(** Rounding keeps the sign and at most doubles the magnitude. *)
Lemma to_double_bounds (z : Z) :
  0 <= z -> 0 <= to_double z <= 2 * z.
Proof.
  intros Hz. unfold to_double. rewrite (Z.abs_eq z) by done.
  destruct (Z.ltb_spec z (2 ^ 53)) as [Hlt | Hge]; [lia|].
  assert (0 < z) as Hpos by (rewrite two_53 in Hge; lia).
  rewrite (Z.sgn_pos z) by done.
  assert (53 <= Z.log2 z) as Hlog by (by apply Z.log2_le_pow2).
  set (e := Z.log2 z - 52).
  assert (0 < 2 ^ e) as He by (apply Z.pow_pos_nonneg; lia).
  assert (2 ^ e <= z) as Hez.
  { etrans; [|apply (Z.log2_spec z Hpos)].
    apply Z.pow_le_mono_r; lia. }
  destruct (round_half_even_bounds z (2 ^ e)) as [H0 H1]; [lia | done |].
  assert (0 < infinity) by (by vm_compute). nia.
Qed.

Lemma to_double_finite (z : Z) :
  0 <= z -> 2 * z < infinity -> Z.abs (to_double z) < infinity.
Proof. intros Hz Hlt. pose proof (to_double_bounds z Hz). lia. Qed.

(** No number is the odd integer after 2^53. *)
Lemma to_double_gap (z : Z) : to_double z <> 2 ^ 53 + 1.
Proof.
  unfold to_double.
  destruct (Z.ltb_spec (Z.abs z) (2 ^ 53)) as [Hlt | Hge]; [lia|].
  assert (53 <= Z.log2 (Z.abs z)) as Hlog
    by (apply Z.log2_le_pow2; rewrite two_53 in *; lia).
  set (e := Z.log2 (Z.abs z) - 52).
  set (r := round_half_even (Z.abs z) (2 ^ e)).
  replace (2 ^ e) with (2 * 2 ^ (e - 1))
    by (rewrite <- Z.pow_succ_r by lia; f_equal; lia).
  assert (infinity = 2 * 2 ^ 1023) as -> by (by vm_compute).
  rewrite two_53.
  destruct (Z.min_spec (r * (2 * 2 ^ (e - 1))) (2 * 2 ^ 1023)) as [[_ ->] | [_ ->]];
    destruct (Z.sgn_spec z) as [[_ ->] | [[_ ->] | [_ ->]]]; lia.
Qed.

(** ** [parseInt] *)

Lemma parseInt_VInt_integer (z : Z) : parseInt (VInt z) = parseInt_integer z.
Proof.
  unfold VInt. simpl. unfold parseInt_number. rewrite Qfloor_Z.
  by rewrite (proj2 (Qeq_bool_iff _ _) (Qeq_refl _)).
Qed.

(** [parseInt] gives an integer below 2^53 back. *)
Lemma parseInt_VInt (z : Z) : safe_integer z -> parseInt (VInt z) = Some z.
Proof.
  intros Hz. rewrite parseInt_VInt_integer. unfold parseInt_integer.
  rewrite (to_double_safe z Hz). unfold safe_integer in Hz.
  pose proof ten_21_infinity. rewrite two_53 in Hz. rewrite ten_21 in *.
  destruct (Z.leb_spec infinity (Z.abs z)); [lia|].
  destruct (Z.ltb_spec (Z.abs z) 1000000000000000000000); [done | lia].
Qed.

(** What [parseInt] makes of a number that is not negative is not negative
    and below 1e21. *)
Lemma parseInt_VInt_nonneg (z r : Z) :
  0 <= z -> parseInt (VInt z) = Some r -> 0 <= r < 10 ^ 21.
Proof.
  intros Hz. rewrite parseInt_VInt_integer. unfold parseInt_integer.
  pose proof (to_double_bounds z Hz) as Hd.
  rewrite (Z.abs_eq (to_double z)) by lia.
  destruct (Z.leb_spec infinity (to_double z)); [done|].
  destruct (Z.ltb_spec (to_double z) (10 ^ 21)); intros [= <-]; [lia|].
  unfold first_digit. destruct (shortest _) as [[s k] n].
  pose proof (Z.mod_pos_bound (s / 10 ^ (k - 1)) 10 ltac:(lia)) as Hm.
  rewrite ten_21.
  destruct (Z.sgn_spec (to_double z)) as [[? ->] | [[? ->] | [? ->]]]; lia.
Qed.

Lemma parseInt_VInt_finite (z : Z) :
  0 <= z -> 2 * z < infinity -> is_Some (parseInt (VInt z)).
Proof.
  intros Hz Hlt. rewrite parseInt_VInt_integer. unfold parseInt_integer.
  pose proof (to_double_finite z Hz Hlt).
  destruct (Z.leb_spec infinity (Z.abs (to_double z))); [lia|].
  by destruct (_ <? _).
Qed.

Lemma num_or_nonzero (n : option Z) (d : Z) : d <> 0 -> num_or n d <> 0.
Proof. destruct n as [[| |]|]; simpl; intros; lia. Qed.

Lemma num_or_Some (z d : Z) : z <> 0 -> num_or (Some z) d = z.
Proof. destruct z; simpl; intros; lia. Qed.







(** ** [paginateResults] *)

Lemma pageNum_nonzero (page : jsval) : Helpers.pageNum page <> 0.
Proof. unfold Helpers.pageNum. apply num_or_nonzero. lia. Qed.

Lemma limitNum_nonzero (limit : jsval) : Helpers.limitNum limit <> 0.
Proof. unfold Helpers.limitNum. apply num_or_nonzero. lia. Qed.

Lemma js_sub_safe (a b : Z) : safe_integer (a - b) -> js_sub a b = a - b.
Proof. apply to_double_safe. Qed.

Lemma js_mul_safe (a b : Z) :
  safe_integer a -> safe_integer b -> safe_integer (a * b) ->
  js_mul a b = Some (a * b).
Proof.
  unfold safe_integer, js_mul. intros Ha Hb Hab.
  assert (2 ^ 53 < infinity) by (by vm_compute).
  destruct (Z.eqb_spec (Z.abs b) infinity); [lia|].
  destruct (Z.eqb_spec (Z.abs a) infinity); [lia|].
  rewrite !andb_false_r. simpl. by rewrite to_double_safe.
Qed.

(** The offset is the product of the resolved page minus one and the
    resolved limit as long as these are integers below 2^53. *)
Lemma paginateResults_offset (page limit : jsval) :
  safe_integer (Helpers.pageNum page - 1) ->
  safe_integer (Helpers.limitNum limit) ->
  safe_integer ((Helpers.pageNum page - 1) * Helpers.limitNum limit) ->
  Helpers.offset (Helpers.paginateResults page limit)
  = Some ((Helpers.pageNum page - 1) * Helpers.limitNum limit).
Proof.
  intros Hp Hl Hpl. unfold Helpers.paginateResults. cbn [Helpers.offset].
  rewrite js_sub_safe, js_mul_safe by done. simpl. by apply parseInt_VInt.
Qed.

Lemma pageNum_VInt (z : Z) :
  z <> 0 -> safe_integer z -> Helpers.pageNum (VInt z) = z.
Proof.
  intros Hz Hs. unfold Helpers.pageNum.
  change (default_param (VInt z) (VInt 1)) with (VInt z).
  rewrite parseInt_VInt by done. by apply num_or_Some.
Qed.

Lemma limitNum_VInt (z : Z) :
  z <> 0 -> safe_integer z -> Helpers.limitNum (VInt z) = z.
Proof.
  intros Hz Hs. unfold Helpers.limitNum.
  change (default_param (VInt z) (VInt 10)) with (VInt z).
  rewrite parseInt_VInt by done. by apply num_or_Some.
Qed.

Lemma safe_integer_factor (a b : Z) :
  b <> 0 -> safe_integer (a * b) -> safe_integer a.
Proof. unfold safe_integer. intros Hb H. rewrite Z.abs_mul in H. nia. Qed.

(** What the routes get back for a page and a limit that are not zero, as
    long as these and the offset are below 2^53. *)
Lemma paginateResults_VInt (pageNum limitNum : Z) :
  pageNum <> 0 -> limitNum <> 0 ->
  safe_integer pageNum -> safe_integer limitNum ->
  safe_integer ((pageNum - 1) * limitNum) ->
  Helpers.paginateResults (VInt pageNum) (VInt limitNum)
  = {| Helpers.offset := Some ((pageNum - 1) * limitNum);
       Helpers.limit := limitNum |}.
Proof.
  intros Hp Hl Sp Sl Spl.
  pose proof (paginateResults_offset (VInt pageNum) (VInt limitNum)) as Hoff.
  unfold Helpers.paginateResults in *. cbn [Helpers.offset] in Hoff.
  rewrite pageNum_VInt, limitNum_VInt in * by done.
  rewrite Hoff; [done| |done|done]. by apply (safe_integer_factor _ limitNum).
Qed.

(** An argument that is [undefined], does not parse, or parses to zero
    resolves to the default. *)
Lemma resolved_default (v : jsval) (k : Z) :
  k <> 0 -> safe_integer k ->
  v = VUndefined \/ parseInt v = None \/ parseInt v = Some 0 ->
  num_or (parseInt (default_param v (VInt k))) k = k.
Proof.
  intros Hk Sk [-> | [Hv | Hv]].
  - simpl default_param. rewrite parseInt_VInt by done. by apply num_or_Some.
  - destruct v; simpl default_param;
      first [ rewrite parseInt_VInt by done; by apply num_or_Some | by rewrite Hv ].
  - destruct v; simpl default_param;
      first [ rewrite parseInt_VInt by done; by apply num_or_Some | by rewrite Hv ].
Qed.

Lemma resolved_not_negative (v : jsval) (k : Z) :
  1 <= k -> safe_integer k ->
  (forall z, parseInt v = Some z -> 0 <= z) ->
  1 <= num_or (parseInt (default_param v (VInt k))) k.
Proof.
  intros Hk Sk Hv.
  destruct (parseInt (default_param v (VInt k))) as [z|] eqn:E; simpl; [|lia].
  assert (0 <= z) as Hz.
  { destruct v; try (apply Hv; exact E).
    simpl default_param in E. rewrite parseInt_VInt in E by done.
    injection E as <-; lia. }
  destruct z; simpl; lia.
Qed.

(** C4, as amended.  For every page and limit argument that does not parse
    to a negative number (non-numeric text, [null], [undefined], zero or a
    positive number), [paginateResults] resolves the page to a number that is
    at least 1 and the limit to a number that is at least 1, and its offset,
    when it is a number, is not negative.  When the resolved page, the
    resolved limit and their offset are integers below 2^53, the offset is
    (resolved page - 1) * resolved limit, a number (never NaN).  An argument
    that is [undefined], does not parse or is zero resolves to the default:
    page 1, limit 10.  The helper has no upper bound on the limit. *)
Theorem paginateResults_resolved (page limit : jsval) :
  (forall z, parseInt page = Some z -> 0 <= z) ->
  (forall z, parseInt limit = Some z -> 0 <= z) ->
  let r := Helpers.paginateResults page limit in
  let p := Helpers.pageNum page in
  1 <= p /\ 1 <= Helpers.limit r /\
  (forall offset, Helpers.offset r = Some offset -> 0 <= offset) /\
  (safe_integer p -> safe_integer (Helpers.limit r) ->
   safe_integer ((p - 1) * Helpers.limit r) ->
   Helpers.offset r = Some ((p - 1) * Helpers.limit r) /\
   0 <= (p - 1) * Helpers.limit r) /\
  (page = VUndefined \/ parseInt page = None \/ parseInt page = Some 0 -> p = 1) /\
  (limit = VUndefined \/ parseInt limit = None \/ parseInt limit = Some 0 ->
   Helpers.limit r = 10).
Proof.
  intros Hpage Hlimit r p.
  assert (safe_integer 1 /\ safe_integer 10) as [S1 S10] by (split; by vm_compute).
  assert (1 <= p) as Hp by (apply resolved_not_negative; [lia | done | done]).
  assert (1 <= Helpers.limit r) as Hl
    by (apply (resolved_not_negative limit 10); [lia | done | done]).
  split; [done|]. split; [done|]. split; [|split; [|split]].
  - intros offset. subst r. unfold Helpers.paginateResults in *.
    cbn [Helpers.offset Helpers.limit] in *. fold p.
    pose proof (to_double_bounds (p - 1) ltac:(lia)) as Hsub.
    unfold js_sub, js_mul. destruct (_ || _); [done|].
    cbn [mbind option_bind]. intros Hoff.
    apply parseInt_VInt_nonneg in Hoff; [lia|].
    apply to_double_bounds. nia.
  - intros Sp Sl Spl. split; [|nia].
    apply paginateResults_offset; [|done|done].
    unfold safe_integer in *. fold p. lia.
  - intros H. by apply (resolved_default page 1).
  - intros H. by apply (resolved_default limit 10).
Qed.

Lemma paginateResults_resolved_witness :
  let r := Helpers.paginateResults (VInt 0) VNull in
  let p := Helpers.pageNum (VInt 0) in
  p = 1 /\ Helpers.limit r = 10 /\
  Helpers.offset r = Some ((p - 1) * Helpers.limit r).
Proof.
  intros r p.
  destruct (paginateResults_resolved (VInt 0) VNull)
    as (_ & _ & _ & Hoffset & Hpage & Hlimit).
  - intros z. vm_compute. intros [= <-]. discriminate.
  - intros z. vm_compute. discriminate.
  - split; [|split].
    + apply Hpage. right. right. reflexivity.
    + apply Hlimit. right. left. reflexivity.
    + apply Hoffset; by vm_compute.
Defined.

(** C4, as stated, fails: page 0 with limit -5 comes back with limit -5,
    and page -1 with limit 5 with offset -10; page 2e20 with limit 10 comes
    back with offset 2, the first digit of the product 2e+21; and a page of
    400 digits, which is Infinity, comes back with the offset NaN. *)
Lemma paginateResults_negative_inputs :
  Helpers.paginateResults (VInt 0) (VInt (-5))
  = {| Helpers.offset := Some 0; Helpers.limit := -5 |}
  /\ ~ (1 <= Helpers.limit (Helpers.paginateResults (VInt 0) (VInt (-5))))
  /\ Helpers.offset (Helpers.paginateResults (VInt (-1)) (VInt 5)) = Some (-10)
  /\ Helpers.paginateResults (VInt (2 * 10 ^ 20)) (VInt 10)
     = {| Helpers.offset := Some 2; Helpers.limit := 10 |}
  /\ Helpers.paginateResults (VStr (ones 400)) (VInt 10)
     = {| Helpers.offset := None; Helpers.limit := 10 |}.
Proof.
  split; [by vm_compute|]. split; [|split; [by vm_compute|]].
  - vm_compute. intros H. apply H. reflexivity.
  - split; by vm_compute.
Qed.

(** [GET /] clamps before it calls the helper: the page is at least 1, the
    limit is between 1 and 100; the helper gives the limit back and an offset
    that is a number and not negative, so the guard on the result never
    fires. *)
Lemma list_pagination (req : Express.request) :
  1 <= Routes.list_pageNum req /\ 1 <= Routes.list_limitNum req <= 100 /\
  Helpers.paginateResults (VInt (Routes.list_pageNum req))
                          (VInt (Routes.list_limitNum req))
  = {| Helpers.offset := Some (list_offset req);
       Helpers.limit := Routes.list_limitNum req |} /\
  0 <= list_offset req.
Proof.
  assert (1 <= Routes.list_pageNum req) as HP by (unfold Routes.list_pageNum; lia).
  assert (1 <= Routes.list_limitNum req <= 100) as HL
    by (unfold Routes.list_limitNum; lia).
  split; [done|]. split; [done|].
  unfold list_offset.
  set (P := Routes.list_pageNum req) in *. set (L := Routes.list_limitNum req) in *.
  assert (safe_integer L) as SL by (unfold safe_integer; rewrite two_53; lia).
  unfold Helpers.paginateResults. rewrite (limitNum_VInt L) by (done || lia).
  cbn [Helpers.offset].
  assert (1 <= Helpers.pageNum (VInt P) < 10 ^ 21) as Hp.
  { unfold Helpers.pageNum.
    change (default_param (VInt P) (VInt 1)) with (VInt P).
    destruct (parseInt (VInt P)) as [r|] eqn:E; [|by rewrite ten_21].
    apply parseInt_VInt_nonneg in E as Hr; [|lia].
    destruct r; simpl; rewrite ten_21 in *; lia. }
  set (p := Helpers.pageNum (VInt P)) in *.
  pose proof ten_21_infinity as Hinf. rewrite ten_21 in *.
  pose proof (to_double_bounds (p - 1) ltac:(lia)) as Hsub.
  unfold js_sub, js_mul.
  destruct (Z.eqb_spec (Z.abs L) infinity); [lia|].
  destruct (Z.eqb_spec (Z.abs (to_double (p - 1))) infinity); [lia|].
  rewrite !andb_false_r. cbn [orb mbind option_bind].
  pose proof (to_double_bounds (to_double (p - 1) * L) ltac:(nia)) as Hmul.
  destruct (parseInt_VInt_finite (to_double (to_double (p - 1) * L))) as [r Hr];
    [lia | nia |].
  rewrite Hr. simpl. split; [done|].
  apply parseInt_VInt_nonneg in Hr; lia.
Qed.

(** Below 2^53 the offset of [GET /] is (page - 1) * limit. *)
Lemma list_offset_safe (req : Express.request) :
  safe_integer (Routes.list_pageNum req) ->
  safe_integer ((Routes.list_pageNum req - 1) * Routes.list_limitNum req) ->
  list_offset req = (Routes.list_pageNum req - 1) * Routes.list_limitNum req.
Proof.
  intros Hp Hs. destruct (list_pagination req) as (HP & HL & _ & _).
  unfold list_offset. rewrite paginateResults_VInt; try done; try lia.
  unfold safe_integer. rewrite two_53. lia.
Qed.

(** ** [mergeCityData] *)

Lemma key_returns (city : obj) :
  well_keyed city = true -> PythonService.key city = Returns (key_of city).
Proof.
  unfold well_keyed, key_of, PythonService.key. intros H.
  apply andb_prop in H as [Hn Hc].
  destruct (get city "name"), (get city "country"); try done.
Qed.

Lemma key_strings (city : obj) (n c : string) :
  city !! "name" = Some (VStr n) -> city !! "country" = Some (VStr c) ->
  PythonService.key city = Returns (toLowerCase n +:+ "_" +:+ toLowerCase c).
Proof. unfold PythonService.key, get. by intros -> ->. Qed.

Lemma last_with_key_Some (k : string) (P : list obj) (p : obj) :
  last_with_key k P = Some p -> p ∈ P /\ key_of p = k.
Proof.
  induction P as [|q P IH]; simpl; [done|].
  destruct (last_with_key k P) as [found|].
  - intros [= ->]. destruct (IH eq_refl) as [Hin Hk]. split; [by right | done].
  - destruct (String.eqb_spec (key_of q) k); [|done].
    intros [= ->]. split; [by left | done].
Qed.

Lemma last_with_key_None (k : string) (P : list obj) :
  last_with_key k P = None -> forall p, p ∈ P -> key_of p <> k.
Proof.
  induction P as [|q P IH]; simpl; intros H p Hin.
  - by apply not_elem_of_nil in Hin.
  - destruct (last_with_key k P) as [found|]; [done|].
    destruct (String.eqb_spec (key_of q) k); [done|].
    apply elem_of_cons in Hin as [-> | Hin]; [done | by apply IH].
Qed.

Lemma last_with_key_is_Some (k : string) (P : list obj) (p : obj) :
  p ∈ P -> key_of p = k -> is_Some (last_with_key k P).
Proof.
  intros Hin Hk. destruct (last_with_key k P) eqn:E; [by eexists|].
  by destruct (last_with_key_None k P E p Hin).
Qed.

(** The index [mergeCityData] builds maps a key to the last prediction
    that has it. *)
Lemma build_map_returns (P : list obj) (m : gmap string obj) :
  Forall (fun p => well_keyed p = true) P ->
  exists mlMap, PythonService.build_map P m = Returns mlMap /\
    forall k, mlMap !! k = match last_with_key k P with
                           | Some p => Some p
                           | None => m !! k
                           end.
Proof.
  intros HP. revert m. induction HP as [|p P Hp HP IH]; intros m; simpl.
  - by exists m.
  - rewrite (key_returns p Hp). simpl.
    destruct (IH (<[key_of p := p]> m)) as (mlMap & -> & Hlook).
    exists mlMap. split; [done|]. intros k. rewrite Hlook.
    destruct (last_with_key k P); [done|].
    destruct (String.eqb_spec (key_of p) k) as [<- | Hne].
    + by rewrite lookup_insert_eq.
    + by rewrite lookup_insert_ne.
Qed.

Lemma mapM_returns {A B} (f : A -> outcome B) (g : A -> B) (l : list A) :
  Forall (fun x => f x = Returns (g x)) l -> mapM f l = Returns (map g l).
Proof.
  induction 1 as [|x l Hx Hl IH]; simpl; [done|]. by rewrite Hx, IH.
Qed.

(** On arrays of city records the merge returns, and maps each record of
    the store to its merged record. *)
Lemma mergeCityData_arrays (R P : list obj) :
  Forall (fun r => well_keyed r = true) R ->
  Forall (fun p => well_keyed p = true) P ->
  PythonService.mergeCityData (Arr R) (Arr P)
  = Returns (Arr (map (merged_record P) R)).
Proof.
  intros HR HP. unfold PythonService.mergeCityData.
  destruct (build_map_returns P ∅ HP) as (mlMap & -> & Hlook). simpl.
  rewrite (mapM_returns _ (merged_record P)); [done|].
  eapply Forall_impl; [exact HR|]. intros r Hr. simpl in Hr.
  unfold PythonService.merge_one, merged_record.
  rewrite (key_returns r Hr). simpl. rewrite Hlook.
  destruct (last_with_key (key_of r) P); [done|]. by rewrite lookup_empty.
Qed.

(** C3.  On arrays of city records [mergeCityData] joins on the key
    lowercase(name) + "_" + lowercase(country): it returns one record per
    record of the store; a record whose key no prediction has gets
    [predicted_score] 0 and [ml_enhanced] false; a record whose key some
    prediction has gets [ml_enhanced] true and the [predicted_score] of the
    prediction with that key (the last one of the list, should several share
    the key).  Scenario A: Lisbon/Portugal against lisbon/PORTUGAL scored
    0.72 yields 0.72 and true. *)
Theorem mergeCityData_joins_on_key :
  (forall R P : list obj,
     Forall (fun r => well_keyed r = true) R ->
     Forall (fun p => well_keyed p = true) P ->
     exists out,
       PythonService.mergeCityData (Arr R) (Arr P) = Returns (Arr out) /\
       length out = length R /\
       forall (i : nat) (r : obj), R !! i = Some r ->
         exists o, out !! i = Some o /\
           ((forall p, p ∈ P -> key_of p <> key_of r) ->
              get o "predicted_score" = VInt 0 /\
              get o "ml_enhanced" = VBool false) /\
           ((exists p, p ∈ P /\ key_of p = key_of r) ->
              exists p, p ∈ P /\ key_of p = key_of r /\
                last_with_key (key_of r) P = Some p /\
                get o "predicted_score" = get p "predicted_score" /\
                get o "ml_enhanced" = VBool true)) /\
  (forall (city : obj) (n c : string),
     city !! "name" = Some (VStr n) -> city !! "country" = Some (VStr c) ->
     PythonService.key city = Returns (toLowerCase n +:+ "_" +:+ toLowerCase c)) /\
  (exists o,
     PythonService.mergeCityData (Arr [Scenario.lisbon]) (Arr [Scenario.lisbon_scored])
     = Returns (Arr [o]) /\
     get o "predicted_score" = VNum 0.72 /\ get o "ml_enhanced" = VBool true).
Proof.
  split; [|split].
  - intros R P HR HP. exists (map (merged_record P) R).
    split; [by apply mergeCityData_arrays|]. split; [by rewrite length_map|].
    intros i r Hi. exists (merged_record P r).
    split; [by rewrite list_lookup_fmap, Hi|]. unfold merged_record. split.
    + intros Hnone. destruct (last_with_key (key_of r) P) as [p|] eqn:E.
      * apply last_with_key_Some in E as [Hin Hk]. by destruct (Hnone p Hin).
      * unfold PythonService.unenhanced, get.
        by rewrite lookup_insert_ne, lookup_insert_eq, lookup_insert_eq.
    + intros (p0 & Hin0 & Hk0).
      destruct (last_with_key_is_Some _ _ _ Hin0 Hk0) as [p E]. rewrite E.
      destruct (last_with_key_Some _ _ _ E) as [Hin Hk].
      exists p. repeat split; try done.
      * unfold PythonService.enhanced, get at 1.
        by rewrite lookup_insert_ne, lookup_insert_eq.
      * unfold PythonService.enhanced, get. by rewrite lookup_insert_eq.
  - apply key_strings.
  - eexists. split; [vm_compute; reflexivity|]. split; reflexivity.
Qed.

Lemma mergeCityData_joins_on_key_witness :
  exists out,
    PythonService.mergeCityData (Arr [Scenario.lisbon; Scenario.bangkok])
                                (Arr [Scenario.lisbon_scored])
    = Returns (Arr out) /\
    length out = 2%nat.
Proof.
  destruct (proj1 mergeCityData_joins_on_key
              [Scenario.lisbon; Scenario.bangkok] [Scenario.lisbon_scored])
    as (out & Hout & Hlen & _).
  - repeat constructor.
  - repeat constructor.
  - exists out. split; [exact Hout | exact Hlen].
Defined.

Lemma merged_record_frame (P : list obj) (r : obj) (k : string) :
  k <> "predicted_score" -> k <> "ml_enhanced" ->
  merged_record P r !! k = r !! k.
Proof.
  intros H1 H2. unfold merged_record, PythonService.enhanced, PythonService.unenhanced.
  destruct (last_with_key (key_of r) P); by rewrite !lookup_insert_ne.
Qed.

Lemma merged_record_fields (P : list obj) (r : obj) :
  is_Some (merged_record P r !! "predicted_score") /\
  is_Some (merged_record P r !! "ml_enhanced").
Proof.
  unfold merged_record, PythonService.enhanced, PythonService.unenhanced.
  destruct (last_with_key (key_of r) P);
    rewrite lookup_insert_ne, !lookup_insert_eq by done; split; by eexists.
Qed.

(** C10.  On arrays of city records [mergeCityData] returns an array of the
    length of [dbCities] whose record at every position is the record of
    [dbCities] at that position with [predicted_score] and [ml_enhanced]
    set: every other property is there with its value, and none is added. *)
Theorem mergeCityData_keeps_records (R P : list obj) :
  Forall (fun r => well_keyed r = true) R ->
  Forall (fun p => well_keyed p = true) P ->
  exists out,
    PythonService.mergeCityData (Arr R) (Arr P) = Returns (Arr out) /\
    length out = length R /\
    forall (i : nat) (r : obj), R !! i = Some r ->
      exists o, out !! i = Some o /\
        (forall k, k <> "predicted_score" -> k <> "ml_enhanced" -> o !! k = r !! k) /\
        is_Some (o !! "predicted_score") /\ is_Some (o !! "ml_enhanced").
Proof.
  intros HR HP. exists (map (merged_record P) R).
  split; [by apply mergeCityData_arrays|]. split; [by rewrite length_map|].
  intros i r Hi. exists (merged_record P r).
  split; [by rewrite list_lookup_fmap, Hi|].
  split; [intros k; apply merged_record_frame | apply merged_record_fields].
Qed.

Lemma mergeCityData_keeps_records_witness :
  exists out,
    PythonService.mergeCityData (Arr [Scenario.bangkok; Scenario.lisbon])
                                (Arr [Scenario.lisbon_scored])
    = Returns (Arr out) /\
    length out = 2%nat /\
    exists o, out !! 1%nat = Some o /\ o !! "name" = Some (VStr "Lisbon").
Proof.
  destruct (mergeCityData_keeps_records
              [Scenario.bangkok; Scenario.lisbon] [Scenario.lisbon_scored])
    as (out & Hout & Hlen & Hrec).
  - repeat constructor.
  - repeat constructor.
  - exists out. split; [exact Hout|]. split; [exact Hlen|].
    destruct (Hrec 1%nat Scenario.lisbon eq_refl) as (o & Ho & Hframe & _).
    exists o. split; [exact Ho|]. by rewrite Hframe.
Defined.

(** *** Order of the predictions *)

Lemma key_of_insert (city : obj) (k : string) (v : jsval) :
  k <> "name" -> k <> "country" -> key_of (<[k := v]> city) = key_of city.
Proof.
  intros H1 H2. unfold key_of, PythonService.key, get.
  by rewrite !lookup_insert_ne.
Qed.

Lemma well_keyed_insert (city : obj) (k : string) (v : jsval) :
  k <> "name" -> k <> "country" ->
  well_keyed (<[k := v]> city) = well_keyed city.
Proof.
  intros H1 H2. unfold well_keyed, get. by rewrite !lookup_insert_ne.
Qed.

Lemma key_of_merged_record (P : list obj) (r : obj) :
  key_of (merged_record P r) = key_of r.
Proof.
  unfold merged_record, PythonService.enhanced, PythonService.unenhanced.
  destruct (last_with_key (key_of r) P); by rewrite !key_of_insert.
Qed.

Lemma well_keyed_merged_record (P : list obj) (r : obj) :
  well_keyed (merged_record P r) = well_keyed r.
Proof.
  unfold merged_record, PythonService.enhanced, PythonService.unenhanced.
  destruct (last_with_key (key_of r) P); by rewrite !well_keyed_insert.
Qed.

Lemma merged_record_idempotent (P : list obj) (r : obj) :
  merged_record P (merged_record P r) = merged_record P r.
Proof.
  unfold merged_record at 1. rewrite key_of_merged_record.
  unfold merged_record, PythonService.enhanced, PythonService.unenhanced.
  destruct (last_with_key (key_of r) P); apply map_eq; intros k;
    rewrite !lookup_insert; repeat case_decide; done.
Qed.

Lemma NoDup_key_inj (P : list obj) (p q : obj) :
  NoDup (map key_of P) -> p ∈ P -> q ∈ P -> key_of p = key_of q -> p = q.
Proof.
  induction P as [|x P IH]; simpl; intros Hnd Hp Hq Hk.
  - by apply not_elem_of_nil in Hp.
  - apply NoDup_cons in Hnd as [Hx Hnd].
    apply elem_of_cons in Hp as [-> | Hp]; apply elem_of_cons in Hq as [-> | Hq].
    + done.
    + destruct Hx. rewrite Hk. apply list_elem_of_fmap. by exists q.
    + destruct Hx. rewrite <- Hk. apply list_elem_of_fmap. by exists p.
    + by apply IH.
Qed.

Lemma last_with_key_permutation (k : string) (P P' : list obj) :
  NoDup (map key_of P) -> P ≡ₚ P' -> last_with_key k P = last_with_key k P'.
Proof.
  intros Hnd Hperm.
  destruct (last_with_key k P) as [p|] eqn:E, (last_with_key k P') as [p'|] eqn:E';
    try done.
  - apply last_with_key_Some in E as [Hin Hk].
    apply last_with_key_Some in E' as [Hin' Hk'].
    f_equal. apply (NoDup_key_inj P); try done; [by rewrite Hperm | congruence].
  - apply last_with_key_Some in E as [Hin Hk].
    rewrite Hperm in Hin. by destruct (last_with_key_None k P' E' p Hin).
  - apply last_with_key_Some in E' as [Hin Hk].
    rewrite <- Hperm in Hin. by destruct (last_with_key_None k P E p' Hin).
Qed.

(** C5, as amended.  [mergeCityData] is a function of its two arguments
    alone; merging the merged records with the same predictions again
    changes nothing; and when no two predictions share a key, every
    permutation of the predictions yields the same merged records, in the
    same order. *)
Theorem mergeCityData_order_independent (R P P' : list obj) :
  Forall (fun r => well_keyed r = true) R ->
  Forall (fun p => well_keyed p = true) P ->
  NoDup (map key_of P) ->
  P ≡ₚ P' ->
  exists out,
    PythonService.mergeCityData (Arr R) (Arr P) = Returns (Arr out) /\
    PythonService.mergeCityData (Arr R) (Arr P') = Returns (Arr out) /\
    PythonService.mergeCityData (Arr out) (Arr P) = Returns (Arr out).
Proof.
  intros HR HP Hnd Hperm. exists (map (merged_record P) R).
  split; [by apply mergeCityData_arrays|]. split.
  - rewrite mergeCityData_arrays; [|done|by rewrite <- Hperm].
    do 2 f_equal. apply map_ext. intros r. unfold merged_record.
    by rewrite (last_with_key_permutation _ P P').
  - rewrite mergeCityData_arrays; [| |done].
    + do 2 f_equal. rewrite map_map. apply map_ext. intros r.
      apply merged_record_idempotent.
    + apply Forall_fmap. eapply Forall_impl; [exact HR|]. intros r Hr. simpl.
      by rewrite well_keyed_merged_record.
Qed.

Lemma mergeCityData_order_independent_witness :
  exists out,
    PythonService.mergeCityData (Arr [Scenario.lisbon; Scenario.bangkok])
      (Arr [Scenario.lisbon_scored; Scenario.bangkok_scored]) = Returns (Arr out) /\
    PythonService.mergeCityData (Arr [Scenario.lisbon; Scenario.bangkok])
      (Arr [Scenario.bangkok_scored; Scenario.lisbon_scored]) = Returns (Arr out) /\
    PythonService.mergeCityData (Arr out)
      (Arr [Scenario.lisbon_scored; Scenario.bangkok_scored]) = Returns (Arr out).
Proof.
  apply (mergeCityData_order_independent
           [Scenario.lisbon; Scenario.bangkok]
           [Scenario.lisbon_scored; Scenario.bangkok_scored]
           [Scenario.bangkok_scored; Scenario.lisbon_scored]).
  - repeat constructor.
  - repeat constructor.
  - vm_compute. repeat constructor; intros H; inversion H; subst;
      try discriminate; match goal with H' : _ ∈ [] |- _ => inversion H' end.
  - apply Permutation_swap.
Defined.

(** C5, as stated, fails: two predictions that share a key, in the two
    possible orders, give merged records with different scores. *)
Lemma mergeCityData_duplicate_keys :
  [Scenario.lisbon_scored; Scenario.lisbon_rescored]
    ≡ₚ [Scenario.lisbon_rescored; Scenario.lisbon_scored] /\
  exists o1 o2,
    PythonService.mergeCityData (Arr [Scenario.lisbon])
      (Arr [Scenario.lisbon_scored; Scenario.lisbon_rescored]) = Returns (Arr [o1]) /\
    PythonService.mergeCityData (Arr [Scenario.lisbon])
      (Arr [Scenario.lisbon_rescored; Scenario.lisbon_scored]) = Returns (Arr [o2]) /\
    get o1 "predicted_score" = VNum 0.31 /\
    get o2 "predicted_score" = VNum 0.72 /\
    ~ (forall o, o ∈ [o1] <-> o ∈ [o2]).
Proof.
  split; [apply Permutation_swap|].
  exists (merged_record [Scenario.lisbon_scored; Scenario.lisbon_rescored]
                        Scenario.lisbon),
         (merged_record [Scenario.lisbon_rescored; Scenario.lisbon_scored]
                        Scenario.lisbon).
  split; [apply (mergeCityData_arrays [Scenario.lisbon]); repeat constructor|].
  split; [apply (mergeCityData_arrays [Scenario.lisbon]); repeat constructor|].
  split; [reflexivity|]. split; [reflexivity|].
  intros H. destruct (H (merged_record
    [Scenario.lisbon_scored; Scenario.lisbon_rescored] Scenario.lisbon)) as [H1 _].
  specialize (H1 ltac:(left)). apply list_elem_of_singleton in H1.
  apply (f_equal (fun o => get o "predicted_score")) in H1.
  vm_compute in H1. discriminate.
Qed.

(** ** Pagination blocks *)


Lemma filter_pageNum_nonzero (req : Express.request) : Routes.filter_pageNum req <> 0.
Proof. unfold Routes.filter_pageNum. apply num_or_nonzero. lia. Qed.

Lemma filter_limitNum_nonzero (req : Express.request) : Routes.filter_limitNum req <> 0.
Proof. unfold Routes.filter_limitNum. apply num_or_nonzero. lia. Qed.


(** The page window of the statement of [GET /filter]: the LIMIT and the
    OFFSET are the helper's; below 2^53 the OFFSET is (page - 1) * LIMIT. *)
Lemma filter_query_window (w : world) (req : Express.request) :
  let page := Routes.filter_pageNum req in
  let limit := Db.q_limit (Routes.filter_query w req) in
  safe_integer page -> safe_integer limit -> safe_integer ((page - 1) * limit) ->
  Db.q_offset (Routes.filter_query w req) = Some ((page - 1) * limit).
Proof.
  intros page limit Sp Sl Spl. subst limit. unfold Routes.filter_query in *.
  cbn [Db.q_limit Db.q_offset] in *.
  unfold Helpers.paginateResults in Sl, Spl. cbn [Helpers.limit] in Sl, Spl.
  rewrite paginateResults_offset.
  - by rewrite pageNum_VInt by (apply filter_pageNum_nonzero || done).
  - rewrite pageNum_VInt by (apply filter_pageNum_nonzero || done).
    by apply (safe_integer_factor _ _ (limitNum_nonzero _) Spl).
  - done.
  - by rewrite pageNum_VInt by (apply filter_pageNum_nonzero || done).
Qed.

(** When the page and the limit of the request are below 2^53, with their
    offset, the LIMIT is the limit of the request. *)
Lemma filter_query_safe (w : world) (req : Express.request) :
  let page := Routes.filter_pageNum req in
  let limit := Routes.filter_limitNum req in
  safe_integer page -> safe_integer limit -> safe_integer ((page - 1) * limit) ->
  Db.q_limit (Routes.filter_query w req) = limit /\
  Db.q_offset (Routes.filter_query w req) = Some ((page - 1) * limit).
Proof.
  intros page limit Sp Sl Spl.
  assert (Db.q_limit (Routes.filter_query w req) = limit) as Hl.
  { unfold Routes.filter_query. cbn [Db.q_limit].
    unfold Helpers.paginateResults. cbn [Helpers.limit].
    by rewrite limitNum_VInt by (apply filter_limitNum_nonzero || done). }
  split; [done|]. rewrite <- Hl in *. by apply filter_query_window.
Qed.

(** A success of [GET /filter]: the count and the page were read, and the
    block was assembled from the resolved page and the LIMIT of the
    statement. *)
Lemma get_filter_success (w : world) (req : Express.request) (message : string)
  (cities : list obj) (pg : Helpers.pagination Z bool) :
  Helpers.json (Routes.get_filter w req)
  = Helpers.Success message (Helpers.Listing cities pg) ->
  exists total rows,
    count_cities w (Routes.whereParams w req) = Returns total /\
    select_cities w (Routes.filter_query w req) = Returns rows /\
    Routes.saved_status w (Express.user req) rows = Returns cities /\
    pg = Routes.pagination_block (Routes.filter_pageNum req) total
                                 (Db.q_limit (Routes.filter_query w req)).
Proof.
  unfold Routes.get_filter.
  destruct (count_cities w (Routes.whereParams w req)) as [total|]; [|done].
  destruct (select_cities w (Routes.filter_query w req)) as [rows|]; [|done].
  simpl.
  destruct (Routes.saved_status w (Express.user req) rows) as [cs|] eqn:Hsaved;
    [|done].
  simpl. intros H. injection H as _ Hc Hp. subst. by exists total, rows.
Qed.

(** ** The two [GET /] handlers without the pagination guard *)

Lemma list_guard (req : Express.request) :
  (Routes.list_limitNum req <? 1) || (list_offset req <? 0) = false.
Proof.
  destruct (list_pagination req) as (Hp & Hl & _ & Hoff).
  apply orb_false_intro; apply Z.ltb_ge; lia.
Qed.

Lemma merging_get_root_unfold (w : world) (req : Express.request) :
  CitiesRoutes.get_root w req
  = try_catch
      (total ← count_cities w (Routes.whereParams w req);
       rows ← select_cities w (merging_list_query w req);
       cities ← Routes.saved_status w (Express.user req)
         (CitiesRoutes.enrich w
            (Express.param_string (Express.sort_by req) "name")
            (Express.param_string (Express.sort_order req) "ASC") rows);
       Returns (Helpers.successResponse
                  (Helpers.Listing cities
                     (Routes.pagination_block (Routes.list_pageNum req) total
                        (Routes.list_limitNum req)))
                  "Cities retrieved successfully"))
      (fun _ => Helpers.errorResponse "Failed to retrieve cities" 500).
Proof.
  unfold CitiesRoutes.get_root.
  destruct (list_pagination req) as (_ & _ & -> & _).
  cbn [Helpers.offset Helpers.limit]. by rewrite list_guard.
Qed.

Lemma direct_get_root_unfold (w : world) (req : Express.request) :
  CitiesRoutesDirect.get_root w req
  = try_catch
      (total ← count_cities w (Routes.whereParams w req);
       match CitiesRoutesDirect.fetched w (Express.country req)
               (Routes.list_limitNum req) with
       | None => Throws TypeError
       | Some fetched =>
           cities ←
             (if Z.of_nat (length fetched) =? 0 then
                rows ← select_cities w (direct_list_query w req);
                Returns (map Routes.with_defaults rows)
              else Returns fetched);
           cities ← Routes.saved_status w (Express.user req) cities;
           Returns (Helpers.successResponse
                      (Helpers.Listing cities
                         (Routes.pagination_block (Routes.list_pageNum req) total
                            (Routes.list_limitNum req)))
                      "Cities retrieved successfully")
       end)
      (fun _ => Helpers.errorResponse "Failed to retrieve cities" 500).
Proof.
  unfold CitiesRoutesDirect.get_root.
  destruct (list_pagination req) as (_ & _ & -> & _).
  cbn [Helpers.offset Helpers.limit]. by rewrite list_guard.
Qed.

(** The page the service supplied is there exactly when [cities] ended up
    an array that is not empty. *)
Lemma from_python_fetched (w : world) (country : option string) (finalLimit : Z)
  (page : list obj) :
  CitiesRoutesDirect.fetched w country finalLimit = Some page ->
  CitiesRoutesDirect.from_python w country finalLimit = page.
Proof. unfold CitiesRoutesDirect.from_python. by intros ->. Qed.

Lemma from_python_nonempty (w : world) (country : option string) (finalLimit : Z) :
  CitiesRoutesDirect.from_python w country finalLimit <> [] ->
  CitiesRoutesDirect.fetched w country finalLimit
  = Some (CitiesRoutesDirect.from_python w country finalLimit).
Proof.
  unfold CitiesRoutesDirect.from_python.
  by destruct (CitiesRoutesDirect.fetched w country finalLimit).
Qed.

Lemma merging_get_root_success (w : world) (req : Express.request)
  (message : string) (cities : list obj) (pg : Helpers.pagination Z bool) :
  Helpers.json (CitiesRoutes.get_root w req)
  = Helpers.Success message (Helpers.Listing cities pg) ->
  exists total rows,
    count_cities w (Routes.whereParams w req) = Returns total /\
    select_cities w (merging_list_query w req) = Returns rows /\
    Routes.saved_status w (Express.user req)
      (CitiesRoutes.enrich w
         (Express.param_string (Express.sort_by req) "name")
         (Express.param_string (Express.sort_order req) "ASC") rows)
    = Returns cities /\
    pg = Routes.pagination_block (Routes.list_pageNum req) total
                                 (Routes.list_limitNum req).
Proof.
  rewrite merging_get_root_unfold.
  destruct (count_cities w (Routes.whereParams w req)) as [total|]; [|done].
  destruct (select_cities w (merging_list_query w req)) as [rows|]; [|done].
  simpl.
  destruct (Routes.saved_status _ _ _) as [cs|] eqn:Hsaved; [|done].
  simpl. intros H. injection H as _ Hc Hp. subst. by exists total, rows.
Qed.

Lemma direct_get_root_success (w : world) (req : Express.request)
  (message : string) (cities : list obj) (pg : Helpers.pagination Z bool) :
  Helpers.json (CitiesRoutesDirect.get_root w req)
  = Helpers.Success message (Helpers.Listing cities pg) ->
  exists total page,
    count_cities w (Routes.whereParams w req) = Returns total /\
    (let fetched := CitiesRoutesDirect.from_python w (Express.country req)
                      (Routes.list_limitNum req) in
     (fetched <> [] /\ page = fetched) \/
     (fetched = [] /\ exists rows,
        select_cities w (direct_list_query w req) = Returns rows /\
        page = map Routes.with_defaults rows)) /\
    Routes.saved_status w (Express.user req) page = Returns cities /\
    pg = Routes.pagination_block (Routes.list_pageNum req) total
                                 (Routes.list_limitNum req).
Proof.
  rewrite direct_get_root_unfold.
  destruct (count_cities w (Routes.whereParams w req)) as [total|]; [|done].
  simpl. unfold CitiesRoutesDirect.from_python.
  destruct (CitiesRoutesDirect.fetched w (Express.country req)
              (Routes.list_limitNum req)) as [[|c fetched]|] eqn:Hf; [| |done].
  - simpl.
    destruct (select_cities w (direct_list_query w req)) as [rows|]; [|done].
    simpl.
    destruct (Routes.saved_status _ _ _) as [cs|] eqn:Hsaved; [|done].
    simpl. intros H. injection H as _ Hc Hp. subst.
    exists total, (map Routes.with_defaults rows).
    repeat split; try done. right. split; [done|]. by exists rows.
  - replace (Z.of_nat (length (c :: fetched)) =? 0) with false
      by (symmetry; apply Z.eqb_neq; simpl length; lia).
    simpl.
    destruct (Routes.saved_status _ _ _) as [cs|] eqn:Hsaved; [|done].
    simpl. intros H. injection H as _ Hc Hp. subst.
    exists total, (c :: fetched). repeat split; try done. by left.
Qed.

(** ** Sort validation *)

Lemma sortOrder_cases (sort_order : string) :
  (toUpperCase sort_order = "DESC" -> Routes.sortOrder sort_order = "DESC") /\
  (toUpperCase sort_order <> "DESC" -> Routes.sortOrder sort_order = "ASC").
Proof.
  unfold Routes.sortOrder, Routes.includes, Routes.allowedSortOrders. simpl.
  destruct (String.eqb_spec (toUpperCase sort_order) "ASC") as [-> | Hasc];
    [by split|].
  destruct (String.eqb_spec (toUpperCase sort_order) "DESC") as [-> | Hdesc];
    by split.
Qed.

(** C8, as amended.  In the statements of [GET /filter] and of the
    fallback of [GET /], a [sort_by] outside the allow-list falls back to
    the sort field [name]; the direction is validated on its own: DESC when
    [sort_order] is DESC in any letter case, ASC otherwise. *)
Theorem unknown_sort_field_orders_by_name (route : listing_route) (w : world)
  (req : Express.request) :
  route <> MergingList ->
  Routes.includes Routes.allowedSortFields
    (Express.param_string (Express.sort_by req) "name") = false ->
  let sort_order := Express.param_string (Express.sort_order req) "ASC" in
  Db.q_field (listing_query route w req) = "name" /\
  (toUpperCase sort_order = "DESC" ->
     Db.q_order (listing_query route w req) = "DESC") /\
  (toUpperCase sort_order <> "DESC" ->
     Db.q_order (listing_query route w req) = "ASC").
Proof.
  intros Hroute Hunknown sort_order.
  assert (Db.q_field (listing_query route w req)
          = Routes.sortField (Express.param_string (Express.sort_by req) "name") /\
          Db.q_order (listing_query route w req) = Routes.sortOrder sort_order)
    as [-> ->] by (by destruct route).
  unfold Routes.sortField. rewrite Hunknown.
  split; [done | apply sortOrder_cases].
Qed.

Lemma unknown_sort_field_orders_by_name_witness :
  let w := Scenario.a_world Scenario.python_down [] 0 in
  let req := Scenario.a_request None None (Some "popularity") (Some "asc") in
  Db.q_field (listing_query DirectList w req) = "name" /\
  (toUpperCase "asc" = "DESC" ->
     Db.q_order (listing_query DirectList w req) = "DESC") /\
  (toUpperCase "asc" <> "DESC" ->
     Db.q_order (listing_query DirectList w req) = "ASC").
Proof.
  intros w req.
  apply (unknown_sort_field_orders_by_name DirectList w req).
  - discriminate.
  - reflexivity.
Defined.

(** C8, as stated, fails: [sort_by=popularity&sort_order=desc] makes
    [GET /filter] order by [name DESC]. *)
Lemma unknown_sort_field_keeps_direction :
  let w := Scenario.a_world Scenario.python_down [] 0 in
  let req := Scenario.a_request None None (Some "popularity") (Some "desc") in
  Routes.includes Routes.allowedSortFields "popularity" = false /\
  Db.q_field (Routes.filter_query w req) = "name" /\
  Db.q_order (Routes.filter_query w req) = "DESC" /\
  Db.q_order (Routes.filter_query w req) <> "ASC".
Proof. repeat split; try reflexivity. discriminate. Qed.

(** In the merging router the statement of [GET /] without filters orders
    by [name ASC] whatever the request asks for. *)
Lemma merging_list_query_without_filters (w : world) (req : Express.request) :
  Routes.whereParams w req = [] ->
  Db.q_field (merging_list_query w req) = "name" /\
  Db.q_order (merging_list_query w req) = "ASC".
Proof.
  intros Hw. unfold merging_list_query, CitiesRoutes.list_query. by rewrite Hw.
Qed.

(** ** [GET /personalized] *)

(** C7.  The pagination block of every successful personalized response
    carries the values the prediction service replied with, unchanged:
    current_page, total_pages, has_next_page and has_prev_page of the reply's
    pagination member ([undefined] when the reply has none), and the reply's
    total and limit (under the names total_items and items_per_page). *)
Theorem personalized_pagination_verbatim (w : world) (req : Express.request)
  (message : string) (cities : list obj) (pg : Helpers.pagination jsval jsval)
  (prefs : jsval) :
  Helpers.json (CitiesRoutesDirect.get_personalized w req)
  = Helpers.Success message (Helpers.Personalized cities pg prefs) ->
  exists (row : obj) (limitNum pageNum : Z) (reply : PythonService.reply),
    PythonService.post_cities_personalized (python w)
      (parse_lifestyle_priorities w row) limitNum pageNum = Returns reply /\
    Helpers.total_items pg = PythonService.r_total reply /\
    Helpers.items_per_page pg = PythonService.r_limit reply /\
    match PythonService.r_pagination reply with
    | Some sent =>
        Helpers.current_page pg = PythonService.pg_current_page sent /\
        Helpers.total_pages pg = PythonService.pg_total_pages sent /\
        Helpers.has_next_page pg = PythonService.pg_has_next_page sent /\
        Helpers.has_prev_page pg = PythonService.pg_has_prev_page sent
    | None =>
        Helpers.current_page pg = VUndefined /\
        Helpers.total_pages pg = VUndefined /\
        Helpers.has_next_page pg = VUndefined /\
        Helpers.has_prev_page pg = VUndefined
    end.
Proof.
  unfold CitiesRoutesDirect.get_personalized.
  destruct (Express.given (Express.token req)) as [token|]; [|done].
  destruct (jwt_verify w token) as [userId|]; [|done].
  destruct (Express.given userId) as [userIdStr|]; [|done].
  destruct (select_user w userIdStr) as [[row|]|]; [|done|done].
  simpl. unfold PythonService.getPersonalizedCities, PythonService.rethrow.
  set (limitNum := Z.min (Z.min _ 200) 200). set (pageNum := Z.max (Z.max _ 1) 1).
  destruct (PythonService.post_cities_personalized (python w) _ limitNum pageNum)
    as [reply|] eqn:Hreply; [|done].
  simpl. destruct (PythonService.r_data reply) as [data|]; [|done].
  simpl. destruct (mapM _ _) as [cs|]; [|done].
  simpl. intros H. injection H as _ _ Hpg _. subst pg.
  exists row, limitNum, pageNum, reply. split; [exact Hreply|].
  by destruct (PythonService.r_pagination reply).
Qed.

Lemma personalized_pagination_verbatim_witness :
  let w := Scenario.a_world (Scenario.python_up [Scenario.lisbon_scored]) [] 0 in
  let req := Scenario.a_request (Some "2") None None None in
  exists cities pg prefs,
    Helpers.json (CitiesRoutesDirect.get_personalized w req)
    = Helpers.Success "Personalized city recommendations retrieved successfully"
        (Helpers.Personalized cities pg prefs) /\
    Helpers.current_page pg = VInt 2 /\ Helpers.total_pages pg = VInt 5 /\
    Helpers.total_items pg = VInt 42.
Proof.
  intros w req.
  destruct (Helpers.json (CitiesRoutesDirect.get_personalized w req))
    as [message [cs pg | cs pg prefs] | message code] eqn:Hjson;
    try (vm_compute in Hjson; discriminate).
  assert (message = "Personalized city recommendations retrieved successfully")
    as -> by (vm_compute in Hjson; by injection Hjson).
  exists cs, pg, prefs. split; [reflexivity|].
  destruct (personalized_pagination_verbatim w req _ cs pg prefs Hjson)
    as (row & l & p & reply & Hreply & Ht & _ & Hsent).
  simpl in Hreply. injection Hreply as <-. simpl in Hsent.
  destruct Hsent as (-> & -> & _). by rewrite Ht.
Defined.

(** ** The saved-status loop *)

Lemma mapM_Forall2 {A B} (f : A -> outcome B) (l : list A) (out : list B) :
  mapM f l = Returns out -> Forall2 (fun x y => f x = Returns y) l out.
Proof.
  revert out. induction l as [|x l IH]; simpl; intros out.
  - intros [= <-]. constructor.
  - destruct (f x) as [y|] eqn:Hx; [|done]. simpl.
    destruct (mapM f l) as [ys|]; [|done]. simpl. intros [= <-].
    constructor; [done | by apply IH].
Qed.

Lemma saved_status_annotates (w : world) (user : option string)
  (l cities : list obj) :
  Routes.saved_status w user l = Returns cities ->
  cities = map (annotate w user) l.
Proof.
  destruct user as [userId|]; simpl.
  - intros H. apply mapM_Forall2 in H.
    induction H as [|c c' l cs Hc _ IH]; simpl; [done|]. f_equal; [|done].
    unfold Routes.mark_saved in Hc.
    destruct (select_saved w userId (get c "id")); [|done].
    simpl in Hc. by injection Hc as <-.
  - intros [= <-]. by rewrite map_id.
Qed.

Lemma saved_status_returns (w : world) (user : option string) (l : list obj) :
  (forall userId id, exists saved, select_saved w userId id = Returns saved) ->
  Routes.saved_status w user l = Returns (map (annotate w user) l).
Proof.
  intros Hsaved. destruct user as [userId|]; simpl; [|by rewrite map_id].
  apply mapM_returns. apply Forall_forall. intros c _.
  unfold Routes.mark_saved, annotate.
  destruct (Hsaved userId (get c "id")) as [saved E]. by rewrite E.
Qed.

Lemma annotate_lookup (w : world) (user : option string) (city : obj)
  (k : string) :
  k <> "is_saved" -> annotate w user city !! k = city !! k.
Proof.
  intros Hk. unfold annotate. destruct user as [userId|]; [|done].
  destruct (select_saved w userId (get city "id")); [|done].
  by rewrite lookup_insert_ne.
Qed.

Lemma annotate_get (w : world) (user : option string) (city : obj) (k : string) :
  k <> "is_saved" -> get (annotate w user city) k = get city k.
Proof. intros Hk. unfold get. by rewrite annotate_lookup. Qed.

Lemma with_defaults_get (city : obj) :
  get (Routes.with_defaults city) "predicted_score" = VInt 0 /\
  get (Routes.with_defaults city) "ml_enhanced" = VBool false.
Proof.
  unfold Routes.with_defaults, get.
  by rewrite lookup_insert_ne, !lookup_insert_eq.
Qed.

(** A page of defaults, after the saved-status loop. *)
Lemma defaults_page (w : world) (user : option string) (rows : list obj) :
  Forall (fun city => get city "predicted_score" = VInt 0 /\
                      get city "ml_enhanced" = VBool false)
         (map (annotate w user) (map Routes.with_defaults rows)).
Proof.
  apply Forall_forall. intros c Hc.
  apply list_elem_of_fmap in Hc as (c1 & -> & Hc1).
  apply list_elem_of_fmap in Hc1 as (r & -> & _).
  rewrite !annotate_get by done. apply with_defaults_get.
Qed.

(** ** The degraded path *)

Lemma enrich_degraded (w : world) (req : Express.request) (rows : list obj) :
  enrichment_fails MergingList w req rows ->
  CitiesRoutes.enrich w
    (Express.param_string (Express.sort_by req) "name")
    (Express.param_string (Express.sort_order req) "ASC") rows
  = map Routes.with_defaults rows.
Proof.
  unfold CitiesRoutes.enrich. intros [Hdown | [e He]].
  - unfold CitiesRoutes.enhance. by rewrite Hdown.
  - by rewrite He.
Qed.

Lemma fetched_degraded (w : world) (req : Express.request) (rows : list obj) :
  enrichment_fails DirectList w req rows ->
  CitiesRoutesDirect.fetched w (Express.country req)
    (Routes.list_limitNum req) = Some [].
Proof.
  unfold CitiesRoutesDirect.fetched. intros [Hdown | [e He]].
  - by rewrite Hdown.
  - rewrite He. by destruct (PythonService.isAvailable (python w)).
Qed.

Lemma from_python_degraded (w : world) (req : Express.request) (rows : list obj) :
  enrichment_fails DirectList w req rows ->
  CitiesRoutesDirect.from_python w (Express.country req)
    (Routes.list_limitNum req) = [].
Proof.
  intros H. unfold CitiesRoutesDirect.from_python.
  by rewrite (fetched_degraded w req rows H).
Qed.

(** C2, as amended.  On [GET /] of either router, when the record store
    answers its statements and the prediction service is unavailable or its
    call fails (a timeout, a rejected request; in the merging router also an
    exception anywhere in the enrichment step), the response is a 200 whose
    page holds one record per row of the store, each with [predicted_score] 0
    and [ml_enhanced] false.  [GET /personalized] has no fallback: for every
    authenticated request of a user the store holds, a call of the prediction
    service that fails is answered with a 500. *)
Theorem degraded_listing_succeeds :
  (forall (route : listing_route) (w : world) (req : Express.request)
     (total : Z) (rows : list obj),
     route <> Filter ->
     count_cities w (Routes.whereParams w req) = Returns total ->
     select_cities w (listing_query route w req) = Returns rows ->
     (forall userId id, exists saved, select_saved w userId id = Returns saved) ->
     enrichment_fails route w req rows ->
     exists cities pg message,
       listing_handler route w req
       = {| Helpers.status := 200;
            Helpers.json := Helpers.Success message (Helpers.Listing cities pg) |} /\
       length cities = length rows /\
       Forall (fun city => get city "predicted_score" = VInt 0 /\
                           get city "ml_enhanced" = VBool false) cities) /\
  (forall (w : world) (req : Express.request) (userId : string) (row : obj),
     authenticated w req = Some userId ->
     select_user w userId = Returns (Some row) ->
     (forall userPreferences limit page, exists e,
        PythonService.post_cities_personalized (python w) userPreferences limit page
        = Throws e) ->
     CitiesRoutesDirect.get_personalized w req
     = Helpers.errorResponse "Failed to retrieve personalized cities" 500).
Proof.
  split.
  - intros route w req total rows Hroute Hcount Hselect Hsaved Hfails.
    exists (map (annotate w (Express.user req)) (map Routes.with_defaults rows)).
    exists (Routes.pagination_block (Routes.list_pageNum req) total
              (Routes.list_limitNum req)).
    exists "Cities retrieved successfully".
    split; [|split; [by rewrite !length_map | apply defaults_page]].
    destruct route; [done| |]; simpl in Hselect |- *.
    + rewrite merging_get_root_unfold, Hcount, Hselect. simpl.
      rewrite (enrich_degraded w req rows Hfails).
      by rewrite (saved_status_returns w _ _ Hsaved).
    + rewrite direct_get_root_unfold, Hcount. simpl.
      rewrite (fetched_degraded w req rows Hfails). simpl.
      rewrite Hselect. simpl.
      by rewrite (saved_status_returns w _ _ Hsaved).
  - intros w req userId row Hauth Huser Hfails.
    unfold CitiesRoutesDirect.get_personalized. unfold authenticated in Hauth.
    destruct (Express.given (Express.token req)) as [token|]; [|done].
    destruct (jwt_verify w token) as [u|]; [|done].
    rewrite Hauth, Huser. simpl.
    unfold PythonService.getPersonalizedCities.
    destruct (Hfails (parse_lifestyle_priorities w row)
                (Z.min (Z.min (num_or (parseInt (Express.param (Express.limit req) (VInt 20))) 20) 200) 200)
                (Z.max (Z.max (num_or (parseInt (Express.param (Express.page req) (VInt 1))) 1) 1) 1))
      as [e He].
    by rewrite He.
Qed.

Lemma degraded_listing_succeeds_witness :
  let rows := [Scenario.bangkok; Scenario.chiang_mai; Scenario.lisbon] in
  let w := Scenario.a_world Scenario.python_down rows 3 in
  let req := Scenario.a_request None None None None in
  (exists cities pg message,
     listing_handler MergingList w req
     = {| Helpers.status := 200;
          Helpers.json := Helpers.Success message (Helpers.Listing cities pg) |} /\
     length cities = 3%nat /\
     Forall (fun city => get city "predicted_score" = VInt 0 /\
                         get city "ml_enhanced" = VBool false) cities) /\
  CitiesRoutesDirect.get_personalized w req
  = Helpers.errorResponse "Failed to retrieve personalized cities" 500.
Proof.
  intros rows w req. split.
  - apply (proj1 degraded_listing_succeeds MergingList w req 3 rows).
    + discriminate.
    + reflexivity.
    + reflexivity.
    + intros userId id. exists false. reflexivity.
    + left. reflexivity.
  - eapply (proj2 degraded_listing_succeeds w req).
    + reflexivity.
    + reflexivity.
    + intros userPreferences limit page. eexists. reflexivity.
Defined.

(** C2, as stated, fails on [GET /personalized]: with the prediction
    service down the request is answered with a 500. *)
Lemma personalized_surfaces_failure :
  let w := Scenario.a_world Scenario.python_down [] 0 in
  let req := Scenario.a_request None None None None in
  PythonService.isAvailable (python w) = false /\
  CitiesRoutesDirect.get_personalized w req
  = Helpers.errorResponse "Failed to retrieve personalized cities" 500 /\
  Helpers.status (CitiesRoutesDirect.get_personalized w req) <> 200.
Proof. repeat split; try reflexivity. vm_compute. discriminate. Qed.

(** ** The sort *)

Section Sorting.

Context {A : Type}.

Lemma sort_insert_permutation (comparefn : A -> A -> option Q) (x : A) (l : list A) :
  sort_insert comparefn x l ≡ₚ x :: l.
Proof.
  induction l as [|y l IH]; simpl; [done|].
  destruct (Qle_bool _ 0); [done|]. rewrite IH. apply Permutation_swap.
Qed.

Lemma js_sort_permutation (comparefn : A -> A -> option Q) (l : list A) :
  js_sort comparefn l ≡ₚ l.
Proof.
  induction l as [|x l IH]; simpl; [done|].
  by rewrite sort_insert_permutation, IH.
Qed.

Lemma sort_insert_ext (f g : A -> A -> option Q) (x : A) (l : list A) :
  (forall y, y ∈ l -> f x y = g x y) -> sort_insert f x l = sort_insert g x l.
Proof.
  induction l as [|y l IH]; simpl; intros H; [done|].
  rewrite (H y) by left. rewrite IH; [done|]. intros z Hz. apply H. by right.
Qed.

(** The sort only consults the comparator on elements of the array. *)
Lemma js_sort_ext (f g : A -> A -> option Q) (l : list A) :
  (forall x y, x ∈ l -> y ∈ l -> f x y = g x y) -> js_sort f l = js_sort g l.
Proof.
  induction l as [|x l IH]; simpl; intros H; [done|].
  rewrite IH by (intros y z Hy Hz; apply H; by right).
  apply sort_insert_ext. intros y Hy. apply H; [by left|].
  right. by rewrite <- (js_sort_permutation g l).
Qed.

Variable key : A -> Q.

Lemma sort_insert_sorted (x : A) (l : list A) :
  StronglySorted (not_below key) l ->
  StronglySorted (not_below key) (sort_insert (descending_by key) x l).
Proof.
  induction 1 as [|y l Hl IH Hy]; simpl.
  - repeat constructor.
  - destruct (Qle_bool (key y - key x) 0) eqn:E.
    + apply Qle_bool_iff in E.
      assert ((not_below key) x y) as Hxy by (unfold not_below; lra).
      constructor; [by constructor|]. constructor; [done|].
      eapply Forall_impl; [exact Hy|]. unfold not_below in *. intros z Hz. lra.
    + assert (~ (key y - key x <= 0)%Q) as Hlt
        by (intros H; apply Qle_bool_iff in H; congruence).
      constructor; [done|].
      rewrite sort_insert_permutation. constructor; [|done].
      unfold not_below. lra.
Qed.

Lemma js_sort_sorted (l : list A) :
  StronglySorted (not_below key) (js_sort (descending_by key) l).
Proof.
  induction l as [|x l IH]; simpl; [constructor | by apply sort_insert_sorted].
Qed.

Lemma sort_insert_stable (q : Q) (x : A) (l : list A) :
  List.filter (has_key key q) (sort_insert (descending_by key) x l)
  = List.filter (has_key key q) (x :: l).
Proof.
  induction l as [|y l IH]; [done|]. simpl sort_insert.
  destruct (Qle_bool (key y - key x) 0) eqn:E; [done|].
  assert (~ (key y - key x <= 0)%Q) as Hlt
    by (intros H; apply Qle_bool_iff in H; congruence).
  simpl in IH |- *. rewrite IH.
  destruct (has_key key q x) eqn:Hx, (has_key key q y) eqn:Hy; try done.
  unfold has_key in *. apply Qeq_bool_iff in Hx, Hy. lra.
Qed.

(** Records with equal keys keep their relative order. *)
Lemma js_sort_stable (q : Q) (l : list A) :
  List.filter (has_key key q) (js_sort (descending_by key) l) = List.filter (has_key key q) l.
Proof.
  induction l as [|x l IH]; [done|]. simpl js_sort.
  rewrite sort_insert_stable. simpl. by rewrite IH.
Qed.

End Sorting.

(** ** The enrichment step of the merging router *)

Lemma bind_Returns {A B} (a : A) (f : A -> outcome B) : Returns a ≫= f = f a.
Proof. reflexivity. Qed.

Lemma getTopCities_returns (c : PythonService.client) (limit : Z)
  (mlResult : PythonService.result) :
  PythonService.getTopCities c limit = Returns mlResult ->
  PythonService.success mlResult = true.
Proof.
  unfold PythonService.getTopCities, PythonService.rethrow.
  destruct (PythonService.get_cities_top c (Z.min limit 50)); simpl; [|done].
  by intros [= <-].
Qed.

(** With the service up, a non-empty list of predictions and city records
    on both sides, the page is the merged rows, sorted by score when the
    sort parameters are [name] and [ASC]. *)
Lemma enrich_enhanced (w : world) (sort_by sort_order : string)
  (rows : list obj) (mlResult : PythonService.result) :
  PythonService.isAvailable (python w) = true ->
  PythonService.getTopCities (python w) 1000 = Returns mlResult ->
  PythonService.data mlResult <> [] ->
  Forall (fun r => well_keyed r = true) rows ->
  Forall (fun p => well_keyed p = true) (PythonService.data mlResult) ->
  CitiesRoutes.enrich w sort_by sort_order rows
  = if String.eqb sort_by "name" && String.eqb sort_order "ASC"
    then js_sort (CitiesRoutes.by_score_desc w)
           (map (merged_record (PythonService.data mlResult)) rows)
    else map (merged_record (PythonService.data mlResult)) rows.
Proof.
  intros Hup Htop Hdata Hrows Hml.
  unfold CitiesRoutes.enrich, CitiesRoutes.enhance.
  rewrite Hup, Htop, bind_Returns.
  rewrite (getTopCities_returns _ _ _ Htop).
  unfold PythonService.data in *.
  destruct (PythonService.data_member mlResult) as [[|p mlCities]|]; [done| |done].
  simpl default in *.
  replace (0 <? Z.of_nat (length (p :: mlCities))) with true
    by (symmetry; apply Z.ltb_lt; simpl length; lia).
  by rewrite (mergeCityData_arrays rows _ Hrows Hml).
Qed.

Lemma enrich_length (w : world) (sort_by sort_order : string) (rows : list obj) :
  length (CitiesRoutes.enrich w sort_by sort_order rows) = length rows.
Proof.
  unfold CitiesRoutes.enrich, CitiesRoutes.enhance.
  destruct (PythonService.isAvailable (python w)); simpl;
    [|by rewrite length_map].
  destruct (PythonService.getTopCities (python w) 1000) as [mlResult|]; simpl;
    [|by rewrite length_map].
  destruct (PythonService.success mlResult); simpl; [|done].
  destruct (PythonService.data_member mlResult) as [mlCities|]; simpl;
    [|by rewrite length_map].
  destruct (0 <? _); simpl; [|done].
  unfold PythonService.mergeCityData.
  destruct (PythonService.build_map _ _) as [mlMap|]; simpl;
    [|by rewrite length_map].
  destruct (mapM _ rows) as [merged|] eqn:Hmerged; simpl;
    [|by rewrite length_map].
  apply mapM_Forall2, Forall2_length in Hmerged.
  destruct (_ && _); [|done]. by rewrite js_sort_permutation.
Qed.

Lemma merge_one_frame (mlMap : gmap string obj) (r o : obj) (k : string) :
  PythonService.merge_one mlMap r = Returns o ->
  k <> "predicted_score" -> k <> "ml_enhanced" -> o !! k = r !! k.
Proof.
  unfold PythonService.merge_one. destruct (PythonService.key r); [|done]. simpl.
  destruct (mlMap !! a); intros [= <-] H1 H2;
    unfold PythonService.enhanced, PythonService.unenhanced;
    by rewrite !lookup_insert_ne.
Qed.

(** Without the sort, every path of the enrichment step keeps the rows in
    place and touches only the two properties it sets. *)
Lemma enrich_in_place (w : world) (sort_by sort_order : string) (rows : list obj) :
  String.eqb sort_by "name" && String.eqb sort_order "ASC" = false ->
  Forall2 (fun r o => forall k, k <> "predicted_score" -> k <> "ml_enhanced" ->
                                o !! k = r !! k)
          rows (CitiesRoutes.enrich w sort_by sort_order rows).
Proof.
  intros Hcond.
  assert (Forall2 (fun r o => forall k, k <> "predicted_score" ->
                                k <> "ml_enhanced" -> o !! k = r !! k)
                  rows (map Routes.with_defaults rows)) as Hdefaults.
  { apply Forall2_fmap_r, Forall_Forall2_diag, Forall_forall.
    intros r _ k H1 H2. unfold Routes.with_defaults. by rewrite !lookup_insert_ne. }
  unfold CitiesRoutes.enrich, CitiesRoutes.enhance. rewrite Hcond.
  destruct (PythonService.isAvailable (python w)); [|done].
  destruct (PythonService.getTopCities (python w) 1000) as [mlResult|]; [|done].
  assert (Forall2 (fun r o : obj => forall k, k <> "predicted_score" ->
                                k <> "ml_enhanced" -> o !! k = r !! k)
                  rows rows) as Hsame
    by (by apply Forall_Forall2_diag, Forall_forall).
  simpl. destruct (PythonService.success mlResult); simpl; [|done].
  destruct (PythonService.data_member mlResult) as [mlCities|]; [|done].
  destruct (0 <? _); simpl; [|done].
  unfold PythonService.mergeCityData.
  destruct (PythonService.build_map _ _) as [mlMap|]; [|done]. simpl.
  destruct (mapM _ rows) as [merged|] eqn:Hmerged; [|done]. simpl.
  apply mapM_Forall2 in Hmerged.
  eapply Forall2_impl; [exact Hmerged|]. intros r o Ho k.
  by apply (merge_one_frame mlMap).
Qed.

Lemma merged_record_flag (P : list obj) (r : obj) :
  (get (merged_record P r) "ml_enhanced" = VBool true /\
   exists p, p ∈ P /\ key_of p = key_of (merged_record P r)) \/
  (get (merged_record P r) "ml_enhanced" = VBool false /\
   forall p, p ∈ P -> key_of p <> key_of (merged_record P r)).
Proof.
  rewrite key_of_merged_record. unfold merged_record.
  destruct (last_with_key (key_of r) P) as [p|] eqn:E.
  - left. split; [unfold PythonService.enhanced, get; by rewrite lookup_insert_eq|].
    exists p. by apply last_with_key_Some.
  - right. split; [unfold PythonService.unenhanced, get; by rewrite lookup_insert_eq|].
    by apply last_with_key_None.
Qed.

Lemma key_of_annotate (w : world) (user : option string) (city : obj) :
  key_of (annotate w user city) = key_of city.
Proof.
  unfold key_of, PythonService.key. by rewrite !annotate_get.
Qed.

(** ** The page of the router that asks the prediction service first *)

Lemma from_python_flags (w : world) (country : option string) (finalLimit : Z) :
  Forall (fun city => get city "ml_enhanced" = VBool true)
         (CitiesRoutesDirect.from_python w country finalLimit).
Proof.
  unfold CitiesRoutesDirect.from_python, CitiesRoutesDirect.fetched.
  destruct (PythonService.isAvailable (python w)); [|constructor].
  destruct (CitiesRoutesDirect.service_call w country finalLimit)
    as [mlResult|]; [|constructor].
  destruct (PythonService.success mlResult); [|constructor].
  destruct (PythonService.data_member mlResult) as [page|]; [|constructor].
  apply Forall_fmap, Forall_forall. intros c _. simpl.
  unfold CitiesRoutesDirect.flag_enhanced, get. by rewrite lookup_insert_eq.
Qed.

(** C1, as amended.  A page of [GET /] of the router that asks the
    prediction service first is uniform: every record has [ml_enhanced]
    true, or every record has it false.  On a page of [GET /] of the merging
    router every record has [ml_enhanced] false when the probe fails or the
    enrichment step throws; when predictions were merged, a record has
    [ml_enhanced] true exactly when some prediction has its key, and false
    exactly when none has. *)
Theorem listing_page_flags :
  (forall (w : world) (req : Express.request) (message : string)
          (cities : list obj) (pg : Helpers.pagination Z bool),
     Helpers.json (CitiesRoutesDirect.get_root w req)
     = Helpers.Success message (Helpers.Listing cities pg) ->
     Forall (fun city => get city "ml_enhanced" = VBool true) cities \/
     Forall (fun city => get city "ml_enhanced" = VBool false) cities) /\
  (forall (w : world) (req : Express.request) (message : string)
          (cities : list obj) (pg : Helpers.pagination Z bool),
     Helpers.json (CitiesRoutes.get_root w req)
     = Helpers.Success message (Helpers.Listing cities pg) ->
     exists rows,
       select_cities w (merging_list_query w req) = Returns rows /\
       length cities = length rows /\
       (enrichment_fails MergingList w req rows ->
          Forall (fun city => get city "ml_enhanced" = VBool false) cities) /\
       (forall mlResult,
          PythonService.isAvailable (python w) = true ->
          PythonService.getTopCities (python w) 1000 = Returns mlResult ->
          PythonService.data mlResult <> [] ->
          Forall (fun r => well_keyed r = true) rows ->
          Forall (fun p => well_keyed p = true) (PythonService.data mlResult) ->
          Forall (fun city =>
                    (get city "ml_enhanced" = VBool true /\
                     exists p, p ∈ PythonService.data mlResult /\
                               key_of p = key_of city) \/
                    (get city "ml_enhanced" = VBool false /\
                     forall p, p ∈ PythonService.data mlResult ->
                               key_of p <> key_of city))
                 cities)).
Proof.
  split.
  - intros w req message cities pg Hjson.
    apply direct_get_root_success in Hjson
      as (total & page & _ & Hpage & Hsaved & _).
    apply saved_status_annotates in Hsaved as ->.
    destruct Hpage as [[_ ->] | [_ (rows & _ & ->)]].
    + left. apply Forall_fmap. eapply Forall_impl; [apply from_python_flags|].
      intros c Hc. simpl. by rewrite annotate_get.
    + right. eapply Forall_impl; [apply defaults_page|]. by intros c [_ Hc].
  - intros w req message cities pg Hjson.
    apply merging_get_root_success in Hjson
      as (total & rows & _ & Hrows & Hsaved & _).
    apply saved_status_annotates in Hsaved as ->.
    exists rows. split; [done|]. split.
    { by rewrite length_map, enrich_length. }
    split.
    + intros Hfails. rewrite (enrich_degraded w req rows Hfails).
      eapply Forall_impl; [apply defaults_page|]. by intros c [_ Hc].
    + intros mlResult Hup Htop Hdata Hwk Hml.
      rewrite (enrich_enhanced w _ _ rows mlResult Hup Htop Hdata Hwk Hml).
      apply Forall_fmap, Forall_forall. intros c Hc. simpl.
      rewrite annotate_get, key_of_annotate by done.
      assert (c ∈ map (merged_record (PythonService.data mlResult)) rows) as Hin.
      { destruct (_ && _); [|done]. by rewrite js_sort_permutation in Hc. }
      apply list_elem_of_fmap in Hin as (r & -> & _).
      apply merged_record_flag.
Qed.

Lemma listing_page_flags_witness :
  let w := Scenario.a_world
             (Scenario.python_up [Scenario.lisbon_scored; Scenario.bangkok_scored])
             [] 2 in
  let req := Scenario.a_request None None None None in
  exists cities pg,
    Helpers.json (CitiesRoutesDirect.get_root w req)
    = Helpers.Success "Cities retrieved successfully" (Helpers.Listing cities pg) /\
    (Forall (fun city => get city "ml_enhanced" = VBool true) cities \/
     Forall (fun city => get city "ml_enhanced" = VBool false) cities).
Proof.
  intros w req.
  exists (map CitiesRoutesDirect.flag_enhanced
            [Scenario.lisbon_scored; Scenario.bangkok_scored]),
         (Routes.pagination_block 1 2 20).
  assert (Helpers.json (CitiesRoutesDirect.get_root w req)
          = Helpers.Success "Cities retrieved successfully"
              (Helpers.Listing
                 (map CitiesRoutesDirect.flag_enhanced
                    [Scenario.lisbon_scored; Scenario.bangkok_scored])
                 (Routes.pagination_block 1 2 20)))
    as Hjson by (vm_compute; reflexivity).
  split; [exact Hjson|].
  exact (proj1 listing_page_flags w req _ _ _ Hjson).
Defined.

(** C1, as stated, fails: the store returns Bangkok and Lisbon, the
    prediction service scores Lisbon only, and the page of the merging
    router holds Lisbon with [ml_enhanced] true and Bangkok with false. *)
Lemma merging_page_mixed :
  let w := Scenario.a_world (Scenario.python_up [Scenario.lisbon_scored])
             [Scenario.bangkok; Scenario.lisbon] 2 in
  let req := Scenario.a_request None None None None in
  exists cities pg,
    CitiesRoutes.get_root w req
    = {| Helpers.status := 200;
         Helpers.json := Helpers.Success "Cities retrieved successfully"
                           (Helpers.Listing cities pg) |} /\
    map (fun city => (get city "name", get city "ml_enhanced")) cities
    = [(VStr "Lisbon", VBool true); (VStr "Bangkok", VBool false)] /\
    ~ (Forall (fun city => get city "ml_enhanced" = VBool true) cities \/
       Forall (fun city => get city "ml_enhanced" = VBool false) cities).
Proof.
  intros w req.
  exists [merged_record [Scenario.lisbon_scored] Scenario.lisbon;
          merged_record [Scenario.lisbon_scored] Scenario.bangkok],
         (Routes.pagination_block 1 2 20).
  split; [vm_compute; reflexivity|]. split; [reflexivity|].
  intros [H | H].
  - apply Forall_cons in H as [_ H]. apply Forall_cons in H as [H _].
    vm_compute in H. discriminate.
  - apply Forall_cons in H as [H _]. vm_compute in H. discriminate.
Qed.

(** ** The order of the page of the merging router *)

Lemma score_annotate (w : world) (user : option string) (city : obj) :
  CitiesRoutes.score w (annotate w user city) = CitiesRoutes.score w city.
Proof. unfold CitiesRoutes.score. by rewrite annotate_get. Qed.

Lemma score_merged_record (w : world) (P : list obj) (r : obj) :
  Forall (fun p => is_Some (CitiesRoutes.score w p)) P ->
  is_Some (CitiesRoutes.score w (merged_record P r)).
Proof.
  intros HP. unfold merged_record.
  destruct (last_with_key (key_of r) P) as [p|] eqn:E.
  - apply last_with_key_Some in E as [Hin _].
    rewrite Forall_forall in HP. specialize (HP p Hin).
    unfold CitiesRoutes.score, PythonService.enhanced, get in *.
    by rewrite lookup_insert_ne, lookup_insert_eq.
  - unfold CitiesRoutes.score, PythonService.unenhanced, get.
    rewrite lookup_insert_ne, lookup_insert_eq by done. by eexists.
Qed.

Lemma by_score_desc_numeric (w : world) (a b : obj) :
  is_Some (CitiesRoutes.score w a) -> is_Some (CitiesRoutes.score w b) ->
  CitiesRoutes.by_score_desc w a b = descending_by (score_of w) a b.
Proof.
  unfold CitiesRoutes.by_score_desc, descending_by, score_of.
  by intros [sa ->] [sb ->].
Qed.

Lemma StronglySorted_map {A B} (R : A -> A -> Prop) (S : B -> B -> Prop)
  (f : A -> B) (l : list A) :
  (forall a b, R a b -> S (f a) (f b)) ->
  StronglySorted R l -> StronglySorted S (map f l).
Proof.
  intros Hf. induction 1 as [|a l Hl IH Ha]; simpl; constructor; [done|].
  apply Forall_fmap. eapply Forall_impl; [exact Ha|]. intros b. apply Hf.
Qed.

Lemma filter_map_commute {A} (p : A -> bool) (f : A -> A) (l : list A) :
  (forall a, p (f a) = p a) ->
  List.filter p (map f l) = map f (List.filter p l).
Proof.
  intros Hf. induction l as [|a l IH]; simpl; [done|].
  rewrite Hf. destruct (p a); simpl; by rewrite IH.
Qed.

(** X27.  What the enrichment step of [GET /] of the merging router does
    to the order of a page.  Its test for a sort that was not asked for is
    [sort_by === 'name' && sort_order === 'ASC'], on the values after their
    defaults: when both hold and predictions with numeric scores were merged,
    the page is the merged rows sorted by [predicted_score], highest first,
    records of equal score in the order of the rows; for every other
    [sort_by] or [sort_order] the rows stay in the order the record store
    returned them. *)
Theorem merging_page_order (w : world) (req : Express.request)
  (message : string) (cities : list obj) (pg : Helpers.pagination Z bool) :
  Helpers.json (CitiesRoutes.get_root w req)
  = Helpers.Success message (Helpers.Listing cities pg) ->
  let sort_by := Express.param_string (Express.sort_by req) "name" in
  let sort_order := Express.param_string (Express.sort_order req) "ASC" in
  exists rows,
    select_cities w (merging_list_query w req) = Returns rows /\
    (~ (sort_by = "name" /\ sort_order = "ASC") -> Forall2 same_city rows cities) /\
    (sort_by = "name" -> sort_order = "ASC" ->
     forall mlResult,
       PythonService.isAvailable (python w) = true ->
       PythonService.getTopCities (python w) 1000 = Returns mlResult ->
       PythonService.data mlResult <> [] ->
       Forall (fun r => well_keyed r = true) rows ->
       Forall (fun p => well_keyed p = true) (PythonService.data mlResult) ->
       Forall (fun p => is_Some (CitiesRoutes.score w p))
              (PythonService.data mlResult) ->
       exists unsorted,
         Forall2 same_city rows unsorted /\
         cities ≡ₚ unsorted /\
         StronglySorted (not_below (score_of w)) cities /\
         forall q, List.filter (has_key (score_of w) q) cities
                   = List.filter (has_key (score_of w) q) unsorted).
Proof.
  intros Hjson sort_by sort_order.
  apply merging_get_root_success in Hjson
    as (total & rows & _ & Hrows & Hsaved & _).
  apply saved_status_annotates in Hsaved as ->.
  fold sort_by sort_order. exists rows. split; [done|]. split.
  - intros Hexplicit.
    assert (String.eqb sort_by "name" && String.eqb sort_order "ASC" = false)
      as Hcond.
    { apply andb_false_iff.
      destruct (String.eqb_spec sort_by "name"), (String.eqb_spec sort_order "ASC");
        auto; by destruct Hexplicit. }
    apply Forall2_fmap_r.
    eapply Forall2_impl; [apply (enrich_in_place w _ _ rows Hcond)|].
    intros r o Ho k H1 H2 H3. rewrite annotate_lookup by done. by apply Ho.
  - intros Hby Horder mlResult Hup Htop Hdata Hwk Hml Hnum.
    rewrite (enrich_enhanced w _ _ rows mlResult Hup Htop Hdata Hwk Hml).
    rewrite Hby, Horder. simpl andb. cbv iota.
    set (P := PythonService.data mlResult) in *.
    set (merged := map (merged_record P) rows).
    assert (forall a, score_of w (annotate w (Express.user req) a) = score_of w a)
      as Hscore by (intros a; unfold score_of; by rewrite score_annotate).
    assert (js_sort (CitiesRoutes.by_score_desc w) merged
            = js_sort (descending_by (score_of w)) merged) as ->.
    { apply js_sort_ext. intros a b Ha Hb.
      apply list_elem_of_fmap in Ha as (ra & -> & _).
      apply list_elem_of_fmap in Hb as (rb & -> & _).
      apply by_score_desc_numeric; by apply score_merged_record. }
    exists (map (annotate w (Express.user req)) merged). repeat split.
    + apply Forall2_fmap_r, Forall2_fmap_r, Forall_Forall2_diag, Forall_forall.
      intros r _ k H1 H2 H3.
      rewrite annotate_lookup by done. by apply merged_record_frame.
    + by rewrite js_sort_permutation.
    + eapply StronglySorted_map; [|apply js_sort_sorted].
      intros a b. unfold not_below. by rewrite !Hscore.
    + intros q.
      rewrite !filter_map_commute by (intros a; unfold has_key; by rewrite Hscore).
      by rewrite js_sort_stable.
Qed.

Lemma merging_page_order_witness :
  let w := Scenario.a_world (Scenario.python_up [Scenario.lisbon_scored])
             [Scenario.bangkok; Scenario.lisbon] 2 in
  let req := Scenario.a_request None None None None in
  exists cities pg,
    Helpers.json (CitiesRoutes.get_root w req)
    = Helpers.Success "Cities retrieved successfully" (Helpers.Listing cities pg) /\
    map (fun city => get city "name") cities = [VStr "Lisbon"; VStr "Bangkok"] /\
    StronglySorted (not_below (score_of w)) cities.
Proof.
  intros w req.
  exists [merged_record [Scenario.lisbon_scored] Scenario.lisbon;
          merged_record [Scenario.lisbon_scored] Scenario.bangkok],
         (Routes.pagination_block 1 2 20).
  assert (Helpers.json (CitiesRoutes.get_root w req)
          = Helpers.Success "Cities retrieved successfully"
              (Helpers.Listing
                 [merged_record [Scenario.lisbon_scored] Scenario.lisbon;
                  merged_record [Scenario.lisbon_scored] Scenario.bangkok]
                 (Routes.pagination_block 1 2 20)))
    as Hjson by (vm_compute; reflexivity).
  split; [exact Hjson|]. split; [reflexivity|].
  destruct (merging_page_order w req _ _ _ Hjson) as (rows & Hrows & _ & Hsorted).
  injection Hrows as <-.
  edestruct (Hsorted eq_refl eq_refl _ eq_refl eq_refl)
    as (unsorted & _ & _ & Hdesc & _); [| | | |exact Hdesc].
  - discriminate.
  - repeat constructor.
  - repeat constructor.
  - repeat constructor. by eexists.
Defined.

(** C6.  The request [sort_by=name&sort_order=ASC] asks for a sort: the
    store returns Bangkok before Lisbon as asked, and the page comes back
    sorted by score, Lisbon first.  The comment on the test says the sort by
    score is for a request in which no specific sort is requested; the test
    reads the parameters after their defaults, where an asked-for name and
    ASC look like none. *)
Lemma explicit_name_sort_overridden :
  let w := Scenario.a_world (Scenario.python_up [Scenario.lisbon_scored])
             [Scenario.bangkok; Scenario.lisbon] 2 in
  let req := Scenario.a_request None None (Some "name") (Some "ASC") in
  select_cities w (merging_list_query w req)
  = Returns [Scenario.bangkok; Scenario.lisbon] /\
  Db.q_field (merging_list_query w req) = "name" /\
  Db.q_order (merging_list_query w req) = "ASC" /\
  exists cities pg,
    CitiesRoutes.get_root w req
    = {| Helpers.status := 200;
         Helpers.json := Helpers.Success "Cities retrieved successfully"
                           (Helpers.Listing cities pg) |} /\
    map (fun city => get city "name") cities = [VStr "Lisbon"; VStr "Bangkok"] /\
    map (fun city => get city "name") cities
    <> map (fun row => get row "name") [Scenario.bangkok; Scenario.lisbon].
Proof.
  intros w req. repeat split; try reflexivity.
  exists [merged_record [Scenario.lisbon_scored] Scenario.lisbon;
          merged_record [Scenario.lisbon_scored] Scenario.bangkok],
         (Routes.pagination_block 1 2 20).
  split; [vm_compute; reflexivity|]. split; [reflexivity|].
  vm_compute. discriminate.
Qed.

(** * Further properties of the code *)

(** ** Status codes of the listing routes *)

(** X1.  [GET /filter] and the two [GET /] handlers answer with 200 or 500
    and nothing else (the 400 of the pagination guard of [GET /] cannot
    happen).  They answer 200 with a page and its pagination block whenever
    the record store answers its statements and, in the router that asks the
    prediction service first, the [try] block left [cities] an array (the
    service was down, its call failed, or its reply carried a data array); a
    reply of that service without a data array makes that router answer 500
    although the record store answers. *)
Theorem listing_status :
  (forall (route : listing_route) (w : world) (req : Express.request),
     Helpers.status (listing_handler route w req) = 200 \/
     Helpers.status (listing_handler route w req) = 500) /\
  (forall (route : listing_route) (w : world) (req : Express.request)
          (total : Z) (rows : list obj),
     count_cities w (Routes.whereParams w req) = Returns total ->
     select_cities w (listing_query route w req) = Returns rows ->
     (forall userId id, exists saved, select_saved w userId id = Returns saved) ->
     (route = DirectList ->
      CitiesRoutesDirect.fetched w (Express.country req)
        (Routes.list_limitNum req) <> None) ->
     exists cities pg message,
       listing_handler route w req
       = {| Helpers.status := 200;
            Helpers.json := Helpers.Success message (Helpers.Listing cities pg) |} /\
       Helpers.total_items pg = total) /\
  (forall (w : world) (req : Express.request),
     CitiesRoutesDirect.fetched w (Express.country req)
       (Routes.list_limitNum req) = None ->
     CitiesRoutesDirect.get_root w req
     = Helpers.errorResponse "Failed to retrieve cities" 500).
Proof.
  split; [|split].
  - intros route w req. destruct route; simpl.
    + unfold Routes.get_filter.
      destruct (count_cities w _); [|by right]. simpl.
      destruct (select_cities w _); [|by right]. simpl.
      destruct (Routes.saved_status w _ _); [by left | by right].
    + rewrite merging_get_root_unfold.
      destruct (count_cities w _); [|by right]. simpl.
      destruct (select_cities w _); [|by right]. simpl.
      destruct (Routes.saved_status w _ _); [by left | by right].
    + rewrite direct_get_root_unfold.
      destruct (count_cities w _); [|by right]. simpl.
      destruct (CitiesRoutesDirect.fetched w _ _) as [fetched|]; [|by right].
      destruct (Z.of_nat _ =? 0); simpl.
      * destruct (select_cities w _); [|by right]. simpl.
        destruct (Routes.saved_status w _ _); [by left | by right].
      * destruct (Routes.saved_status w _ _); [by left | by right].
  - intros route w req total rows Hcount Hselect Hsaved Hfetched.
    destruct route; simpl in Hselect |- *.
    + unfold Routes.get_filter. rewrite Hcount, Hselect. simpl.
      rewrite (saved_status_returns w _ _ Hsaved). simpl. by eexists _, _, _.
    + rewrite merging_get_root_unfold, Hcount, Hselect. simpl.
      rewrite (saved_status_returns w _ _ Hsaved). simpl. by eexists _, _, _.
    + rewrite direct_get_root_unfold, Hcount. simpl.
      destruct (CitiesRoutesDirect.fetched w _ _) as [fetched|];
        [|by destruct Hfetched].
      destruct (Z.of_nat _ =? 0); simpl.
      * rewrite Hselect. simpl.
        rewrite (saved_status_returns w _ _ Hsaved). simpl. by eexists _, _, _.
      * rewrite (saved_status_returns w _ _ Hsaved). simpl. by eexists _, _, _.
  - intros w req Hfetched. rewrite direct_get_root_unfold.
    destruct (count_cities w _); [|done]. simpl. by rewrite Hfetched.
Qed.

Lemma listing_status_witness :
  let w := Scenario.a_world (Scenario.python_up [Scenario.lisbon_scored])
             [Scenario.bangkok; Scenario.lisbon] 2 in
  let req := Scenario.a_request (Some "0") (Some "-5") None None in
  exists cities pg message,
    listing_handler DirectList w req
    = {| Helpers.status := 200;
         Helpers.json := Helpers.Success message (Helpers.Listing cities pg) |} /\
    Helpers.total_items pg = 2.
Proof.
  intros w req.
  apply (proj1 (proj2 listing_status) DirectList w req 2
           [Scenario.bangkok; Scenario.lisbon]).
  - reflexivity.
  - reflexivity.
  - intros userId id. exists false. reflexivity.
  - intros _. vm_compute. discriminate.
Defined.

(** ** The page of [GET /filter] *)

(** X2.  A successful [GET /filter] returns the rows of the record store
    in the store's order; for a request without a user they are returned
    untouched, and for a user every city keeps all its properties and gets
    a boolean [is_saved]. *)
Theorem get_filter_returns_rows (w : world) (req : Express.request)
  (message : string) (cities : list obj) (pg : Helpers.pagination Z bool) :
  Helpers.json (Routes.get_filter w req)
  = Helpers.Success message (Helpers.Listing cities pg) ->
  exists rows,
    select_cities w (Routes.filter_query w req) = Returns rows /\
    Forall2 (fun row city => forall k, k <> "is_saved" -> city !! k = row !! k)
            rows cities /\
    (Express.user req = None -> cities = rows) /\
    (forall userId, Express.user req = Some userId ->
       Forall (fun city => exists saved, city !! "is_saved" = Some (VBool saved))
              cities).
Proof.
  intros Hjson.
  apply get_filter_success in Hjson as (total & rows & _ & Hrows & Hsaved & _).
  exists rows. split; [done|]. split; [|split].
  - apply saved_status_annotates in Hsaved as ->.
    apply Forall2_fmap_r, Forall_Forall2_diag, Forall_forall.
    intros r _ k Hk. by apply annotate_lookup.
  - intros Hnone. rewrite Hnone in Hsaved. simpl in Hsaved. by injection Hsaved.
  - intros userId Huser. rewrite Huser in Hsaved. simpl in Hsaved.
    apply mapM_Forall2 in Hsaved. clear Hrows.
    induction Hsaved as [|r c rows cities Hc _ IH]; [constructor|].
    constructor; [|done].
    unfold Routes.mark_saved in Hc.
    destruct (select_saved w userId (get r "id")) as [saved|]; [|done].
    simpl in Hc. injection Hc as <-. exists saved. by rewrite lookup_insert_eq.
Qed.

Lemma get_filter_returns_rows_witness :
  let w := Scenario.a_world Scenario.python_down
             [Scenario.bangkok; Scenario.lisbon] 2 in
  let req := Scenario.a_request None None None None in
  exists rows,
    select_cities w (Routes.filter_query w req) = Returns rows /\
    Forall2 (fun row city => forall k, k <> "is_saved" -> city !! k = row !! k)
            rows [Scenario.bangkok; Scenario.lisbon].
Proof.
  intros w req.
  destruct (get_filter_returns_rows w req
              "Filtered cities retrieved successfully"
              [Scenario.bangkok; Scenario.lisbon]
              (Routes.pagination_block 1 2 20))
    as (rows & Hrows & Hframe & _).
  - vm_compute. reflexivity.
  - exists rows. split; [exact Hrows | exact Hframe].
Defined.

(** ** The page windows *)

(** X3.  Whatever the request, the statement of [GET /] (both routers)
    has the clamped limit of the request as its LIMIT, between 1 and 100, and
    an OFFSET that is a number and not negative; the OFFSET is
    (page - 1) * limit when the page and that product are below 2^53.  Beyond
    that the OFFSET is what the helper re-parses from the rounded product:
    for page 100000000000000000000 and limit 20 it is 2. *)
Theorem list_window_bounds :
  (forall (route : listing_route) (w : world) (req : Express.request),
     route <> Filter ->
     let limit := Db.q_limit (listing_query route w req) in
     limit = Routes.list_limitNum req /\
     1 <= limit <= 100 /\
     exists offset,
       Db.q_offset (listing_query route w req) = Some offset /\
       0 <= offset /\
       (safe_integer (Routes.list_pageNum req) ->
        safe_integer ((Routes.list_pageNum req - 1) * limit) ->
        offset = (Routes.list_pageNum req - 1) * limit)) /\
  (forall (route : listing_route) (w : world),
     route <> Filter ->
     let req := Scenario.a_request (Some "100000000000000000000") (Some "20")
                  None None in
     Routes.list_pageNum req = 10 ^ 20 /\
     Db.q_offset (listing_query route w req) = Some 2).
Proof.
  split.
  - intros route w req Hroute limit.
    destruct (list_pagination req) as (Hp & Hl & _ & Hoff).
    assert (limit = Routes.list_limitNum req /\
            Db.q_offset (listing_query route w req) = Some (list_offset req))
      as [-> ->].
    { subst limit. destruct route; [done| |done]. simpl.
      unfold merging_list_query, CitiesRoutes.list_query. by destruct (_ =? _). }
    split; [done|]. split; [done|]. exists (list_offset req).
    split; [done|]. split; [done|]. apply list_offset_safe.
  - intros route w Hroute req.
    assert (list_offset req = 2) as Hoff by (by vm_compute).
    split; [by vm_compute|].
    destruct route; [done| |]; cbn [listing_query].
    + unfold merging_list_query, CitiesRoutes.list_query. rewrite Hoff.
      by destruct (Z.of_nat _ =? 0).
    + unfold direct_list_query, CitiesRoutesDirect.fallback_query. by rewrite Hoff.
Qed.

Lemma list_window_bounds_witness :
  let w := Scenario.a_world Scenario.python_down [] 0 in
  let req := Scenario.a_request (Some "-3") (Some "100000") None None in
  1 <= Db.q_limit (listing_query MergingList w req) <= 100 /\
  Db.q_offset (listing_query MergingList w req) = Some 0.
Proof.
  intros w req.
  destruct (proj1 list_window_bounds MergingList w req)
    as (_ & Hl & offset & Hq & _ & Hoff); [discriminate|].
  split; [exact Hl|]. rewrite Hq. f_equal. apply Hoff; by vm_compute.
Defined.

(** X4.  [GET /filter] does not clamp: a [limit] that parses to a number
    other than zero, negative or beyond 100 alike, is the LIMIT of its
    statement, and with a [page] that parses to a number other than zero
    the OFFSET is (page - 1) * limit, negative when the page is; this for a
    page, a limit and a product below 2^53 in absolute value.  Beyond that
    the helper re-parses the numbers: a limit of 1000000000000000000000 makes
    the LIMIT 1. *)
Theorem filter_window_unclamped :
  (forall (w : world) (req : Express.request) (page limit : Z),
     parseInt (Express.param (Express.page req) (VInt 1)) = Some page ->
     parseInt (Express.param (Express.limit req) (VInt 20)) = Some limit ->
     page <> 0 -> limit <> 0 ->
     safe_integer page -> safe_integer limit -> safe_integer ((page - 1) * limit) ->
     Db.q_limit (Routes.filter_query w req) = limit /\
     Db.q_offset (Routes.filter_query w req) = Some ((page - 1) * limit)) /\
  (forall w : world,
     let req := Scenario.a_request None (Some "1000000000000000000000")
                  None None in
     Routes.filter_limitNum req = 10 ^ 21 /\
     Db.q_limit (Routes.filter_query w req) = 1).
Proof.
  split.
  - intros w req page limit Hpage Hlimit Hp Hl Sp Sl Spl.
    assert (Routes.filter_pageNum req = page) as Hpn
      by (unfold Routes.filter_pageNum; by rewrite Hpage, num_or_Some).
    assert (Routes.filter_limitNum req = limit) as Hln
      by (unfold Routes.filter_limitNum; by rewrite Hlimit, num_or_Some).
    rewrite <- Hpn, <- Hln in *. by apply filter_query_safe.
  - intros w req. split; by vm_compute.
Qed.

Lemma filter_window_unclamped_witness :
  let w := Scenario.a_world Scenario.python_down [] 0 in
  let req := Scenario.a_request (Some "-3") (Some "100000") None None in
  Db.q_limit (Routes.filter_query w req) = 100000 /\
  Db.q_offset (Routes.filter_query w req) = Some (-400000).
Proof.
  intros w req.
  apply (proj1 filter_window_unclamped w req (-3) 100000);
    first [reflexivity | discriminate | by vm_compute].
Defined.

(** ** The page the prediction service supplies *)

(** X5.  In the router that asks the prediction service first, when the
    service supplies a non-empty page and the count and the saved-status
    lookups are answered, [GET /] answers 200 with exactly that page, every
    record flagged [ml_enhanced] true, and the statement for the page of
    cities plays no part: the response is the same whatever that statement
    would return or throw. *)
Theorem direct_page_from_service (w : world) (req : Express.request)
  (total : Z) :
  CitiesRoutesDirect.from_python w (Express.country req)
    (Routes.list_limitNum req) <> [] ->
  count_cities w (Routes.whereParams w req) = Returns total ->
  (forall userId id, exists saved, select_saved w userId id = Returns saved) ->
  let page := map (annotate w (Express.user req))
                  (CitiesRoutesDirect.from_python w (Express.country req)
                     (Routes.list_limitNum req)) in
  Forall (fun city => get city "ml_enhanced" = VBool true) page /\
  forall select : Db.query -> outcome (list obj),
    CitiesRoutesDirect.get_root (with_select_cities w select) req
    = Helpers.successResponse
        (Helpers.Listing page
           (Routes.pagination_block (Routes.list_pageNum req) total
              (Routes.list_limitNum req)))
        "Cities retrieved successfully".
Proof.
  intros Hfetched Hcount Hsaved page. split.
  - apply Forall_fmap. eapply Forall_impl; [apply from_python_flags|].
    intros c Hc. simpl. by rewrite annotate_get.
  - intros select. rewrite direct_get_root_unfold.
    change (count_cities (with_select_cities w select)
              (Routes.whereParams (with_select_cities w select) req))
      with (count_cities w (Routes.whereParams w req)).
    rewrite Hcount. simpl.
    change (CitiesRoutesDirect.fetched (with_select_cities w select))
      with (CitiesRoutesDirect.fetched w).
    rewrite (from_python_nonempty w _ _ Hfetched).
    destruct (CitiesRoutesDirect.from_python w (Express.country req)
                (Routes.list_limitNum req)) as [|c fetched] eqn:Hf; [done|].
    replace (Z.of_nat (length (c :: fetched)) =? 0) with false
      by (symmetry; apply Z.eqb_neq; simpl length; lia).
    simpl.
    rewrite (saved_status_returns (with_select_cities w select) _ _ Hsaved).
    reflexivity.
Qed.

Lemma direct_page_from_service_witness :
  let w := Scenario.a_world
             (Scenario.python_up [Scenario.lisbon_scored; Scenario.bangkok_scored])
             [Scenario.chiang_mai] 7 in
  let req := Scenario.a_request None None (Some "country") (Some "DESC") in
  CitiesRoutesDirect.get_root
    (with_select_cities w (fun _ => Throws StorageError)) req
  = Helpers.successResponse
      (Helpers.Listing
         (map (annotate w (Express.user req))
            (CitiesRoutesDirect.from_python w (Express.country req)
               (Routes.list_limitNum req)))
         (Routes.pagination_block (Routes.list_pageNum req) 7
            (Routes.list_limitNum req)))
      "Cities retrieved successfully".
Proof.
  intros w req.
  apply (direct_page_from_service w req 7).
  - vm_compute. discriminate.
  - reflexivity.
  - intros userId id. exists false. reflexivity.
Defined.

(** X6.  The merging router asks the prediction service for 1000 top
    cities, and the service method caps every request at 50: the response of
    [GET /] depends on the client of the prediction service through the
    health probe and the reply to [/cities/top?limit=50] only. *)
Theorem merging_uses_top_50 (w : world) (c1 c2 : PythonService.client)
  (req : Express.request) :
  PythonService.get_health c1 = PythonService.get_health c2 ->
  PythonService.get_cities_top c1 50 = PythonService.get_cities_top c2 50 ->
  CitiesRoutes.get_root (with_python w c1) req
  = CitiesRoutes.get_root (with_python w c2) req.
Proof.
  intros Hhealth Htop. rewrite !merging_get_root_unfold.
  assert (forall sort_by sort_order rows,
            CitiesRoutes.enrich (with_python w c1) sort_by sort_order rows
            = CitiesRoutes.enrich (with_python w c2) sort_by sort_order rows)
    as Henrich.
  { intros sort_by sort_order rows.
    unfold CitiesRoutes.enrich, CitiesRoutes.enhance,
      PythonService.isAvailable, PythonService.checkHealth,
      PythonService.getTopCities.
    cbn [python with_python]. rewrite Hhealth.
    change (Z.min 1000 50) with 50. by rewrite Htop. }
  change (count_cities (with_python w c1)) with (count_cities w).
  change (count_cities (with_python w c2)) with (count_cities w).
  change (Routes.whereParams (with_python w c1) req) with (Routes.whereParams w req).
  change (Routes.whereParams (with_python w c2) req) with (Routes.whereParams w req).
  destruct (count_cities w (Routes.whereParams w req)) as [total|]; [|done].
  simpl.
  change (merging_list_query (with_python w c1) req) with (merging_list_query w req).
  change (merging_list_query (with_python w c2) req) with (merging_list_query w req).
  destruct (select_cities w (merging_list_query w req)) as [rows|]; [|done].
  simpl. by rewrite Henrich.
Qed.

Lemma merging_uses_top_50_witness :
  let w := Scenario.a_world Scenario.python_down
             [Scenario.bangkok; Scenario.lisbon] 2 in
  let req := Scenario.a_request None None None None in
  let c1 := Scenario.python_up [Scenario.lisbon_scored] in
  let c2 :=
    {| PythonService.get_health := Returns VNull;
       PythonService.get_cities_top := fun limit =>
         if limit =? 50 then Returns (Scenario.answer [Scenario.lisbon_scored])
         else Throws ServiceError;
       PythonService.get_cities_by_country := fun _ _ => Throws ServiceError;
       PythonService.post_cities_personalized :=
         fun _ _ _ => Throws ServiceError |} in
  CitiesRoutes.get_root (with_python w c1) req
  = CitiesRoutes.get_root (with_python w c2) req.
Proof.
  intros w req c1 c2.
  apply (merging_uses_top_50 w c1 c2 req); reflexivity.
Defined.

(** ** Who reaches the prediction service on [GET /personalized] *)

(** X7.  [GET /personalized] answers 401 exactly when the request is not
    authenticated (no token, a token that does not verify, or a payload
    without a user id), and a 200 is only ever given to an authenticated
    request whose user has a row in the users table. *)
Theorem personalized_status (w : world) (req : Express.request) :
  (Helpers.status (CitiesRoutesDirect.get_personalized w req) = 401
   <-> authenticated w req = None) /\
  (Helpers.status (CitiesRoutesDirect.get_personalized w req) = 200 ->
   exists userId row,
     authenticated w req = Some userId /\
     select_user w userId = Returns (Some row)) /\
  (forall userId, authenticated w req = Some userId ->
     select_user w userId = Returns None ->
     Helpers.status (CitiesRoutesDirect.get_personalized w req) = 404).
Proof.
  unfold CitiesRoutesDirect.get_personalized, authenticated.
  destruct (Express.given (Express.token req)) as [token|]; [|by repeat split].
  destruct (jwt_verify w token) as [userId|]; [|by repeat split].
  destruct (Express.given userId) as [userIdStr|]; [|by repeat split].
  destruct (select_user w userIdStr) as [[row|]|] eqn:Huser; simpl.
  - destruct (PythonService.getPersonalizedCities _ _ _ _) as [mlResult|]; simpl.
    + destruct (PythonService.success mlResult); simpl.
      * destruct (PythonService.data_member mlResult) as [data|]; simpl;
          [destruct (mapM _ _); simpl|];
          repeat split; try done;
          try (intros _; by exists userIdStr, row);
          intros u [= <-]; by rewrite Huser.
      * repeat split; try done. intros u [= <-]. by rewrite Huser.
    + repeat split; try done. intros u [= <-]. by rewrite Huser.
  - repeat split; try done.
  - repeat split; try done. intros u [= <-]. by rewrite Huser.
Qed.

Lemma personalized_status_witness :
  let w := Scenario.a_world (Scenario.python_up [Scenario.lisbon_scored]) [] 0 in
  let req := Scenario.a_request None None None None in
  exists userId row,
    authenticated w req = Some userId /\
    select_user w userId = Returns (Some row).
Proof.
  intros w req.
  apply (proj1 (proj2 (personalized_status w req))).
  vm_compute. reflexivity.
Defined.

(** ** When [mergeCityData] throws *)

Lemma key_throws (city : obj) :
  well_keyed city = false -> PythonService.key city = Throws TypeError.
Proof.
  unfold well_keyed, PythonService.key. intros H.
  apply andb_false_iff in H as [H | H].
  - by destruct (get city "name").
  - destruct (get city "name"); simpl; try done;
      by destruct (get city "country").
Qed.

Lemma build_map_throws (P : list obj) (m : gmap string obj) :
  Exists (fun p => well_keyed p = false) P ->
  PythonService.build_map P m = Throws TypeError.
Proof.
  intros HP. revert m. induction P as [|p P IH]; intros m; [by inversion HP|].
  simpl. destruct (well_keyed p) eqn:Hp.
  - rewrite (key_returns p Hp). simpl. apply IH.
    inversion HP; subst; [congruence | done].
  - by rewrite (key_throws p Hp).
Qed.

Lemma merge_throws (mlMap : gmap string obj) (R : list obj) :
  Exists (fun r => well_keyed r = false) R ->
  mapM (PythonService.merge_one mlMap) R = Throws TypeError.
Proof.
  induction R as [|r R IH]; intros HR; [by inversion HR|].
  cbn [mapM]. destruct (well_keyed r) eqn:Hr.
  - assert (exists o, PythonService.merge_one mlMap r = Returns o) as [o ->].
    { unfold PythonService.merge_one. rewrite (key_returns r Hr). simpl.
      destruct (mlMap !! key_of r); by eexists. }
    rewrite bind_Returns.
    by rewrite IH by (inversion HR; subst; [congruence | done]).
  - assert (PythonService.merge_one mlMap r = Throws TypeError) as ->
      by (unfold PythonService.merge_one; by rewrite (key_throws r Hr)).
    done.
Qed.

Lemma Forall_or_Exists_keyed (l : list obj) :
  Forall (fun c => well_keyed c = true) l \/
  Exists (fun c => well_keyed c = false) l.
Proof.
  induction l as [|c l [IH | IH]].
  - left. constructor.
  - destruct (well_keyed c) eqn:Hc; [left | right]; by constructor.
  - right. by apply Exists_cons_tl.
Qed.

(** X8.  On two arrays [mergeCityData] returns an array exactly when the
    name and the country of every record of both arrays are strings or
    absent; with any other name or country, in a record of the store or in
    a prediction, it throws a TypeError and returns nothing.  When one of the
    arguments is not an array it never throws: it returns [dbCities] as it
    is when that is truthy, and the empty array otherwise. *)
Theorem mergeCityData_throws_or_returns :
  (forall R P : list obj,
     (Forall (fun r => well_keyed r = true) R /\
      Forall (fun p => well_keyed p = true) P ->
      exists merged,
        PythonService.mergeCityData (Arr R) (Arr P) = Returns (Arr merged)) /\
     (Exists (fun r => well_keyed r = false) R \/
      Exists (fun p => well_keyed p = false) P ->
      PythonService.mergeCityData (Arr R) (Arr P) = Throws TypeError)) /\
  (forall (R : list obj) (v : jsval),
     PythonService.mergeCityData (Arr R) (NonArr v) = Returns (Arr R)) /\
  (forall (v : jsval) (mlCities : jsarg),
     PythonService.mergeCityData (NonArr v) mlCities
     = Returns (if truthy v then NonArr v else Arr [])).
Proof.
  split; [|split; [done | by intros v []]].
  intros R P. split.
  - intros [HR HP]. eexists. by apply mergeCityData_arrays.
  - intros Hbad. unfold PythonService.mergeCityData.
    destruct (Forall_or_Exists_keyed P) as [HP | HP].
    + destruct Hbad as [HR | HP'].
      * destruct (build_map_returns P ∅ HP) as (mlMap & -> & _). simpl.
        by rewrite (merge_throws mlMap R HR).
      * apply Exists_exists in HP' as (p & Hin & Hp).
        rewrite Forall_forall in HP. specialize (HP p Hin). congruence.
    + by rewrite (build_map_throws P ∅ HP).
Qed.

Lemma mergeCityData_throws_or_returns_witness :
  PythonService.mergeCityData
    (Arr [Scenario.lisbon; {[ "name" := VNum 7%Q ]}])
    (Arr [Scenario.lisbon_scored])
  = Throws TypeError.
Proof.
  apply (proj1 mergeCityData_throws_or_returns). left.
  apply Exists_cons_tl, Exists_cons_hd. reflexivity.
Defined.

(** ** Records that share a key *)

Lemma map_string_app (f : ascii -> ascii) (s t : string) :
  map_string f (s +:+ t) = map_string f s +:+ map_string f t.
Proof. induction s as [|c s IH]; simpl; [done | by rewrite IH]. Qed.

Lemma string_app_assoc (s t u : string) : (s +:+ t) +:+ u = s +:+ (t +:+ u).
Proof.
  induction s as [|c s IH]; [done|].
  change (String c ((s +:+ t) +:+ u) = String c (s +:+ (t +:+ u))).
  by rewrite IH.
Qed.

Lemma string_length_app (s t : string) :
  String.length (s +:+ t) = (String.length s + String.length t)%nat.
Proof.
  induction s as [|c s IH]; [done|].
  change (S (String.length (s +:+ t)) = S (String.length s + String.length t)).
  by rewrite IH.
Qed.

(** X9.  The join key does not determine the city.  A prediction for the
    city named a_b in country c has the key of the record named a in
    country b_c, so [mergeCityData] gives that record the prediction's score
    and flags it enhanced; and a record without a name shares its key with
    a record named "undefined" (in any letter case) of the same country. *)
Theorem key_collisions :
  (forall (a b c : string) (score : jsval) (other : obj),
     let dbCity : obj :=
       <["name" := VStr a]> (<["country" := VStr (b +:+ "_" +:+ c)]> other) in
     let mlCity : obj :=
       {[ "name" := VStr (a +:+ "_" +:+ b); "country" := VStr c;
          "predicted_score" := score ]} in
     get dbCity "name" <> get mlCity "name" /\
     exists merged,
       PythonService.mergeCityData (Arr [dbCity]) (Arr [mlCity])
       = Returns (Arr [merged]) /\
       get merged "predicted_score" = score /\
       get merged "ml_enhanced" = VBool true) /\
  (forall (u c : string) (other : obj),
     toLowerCase u = "undefined" ->
     key_of (<["name" := VStr u]> (<["country" := VStr c]> other))
     = key_of (delete "name" (<["country" := VStr c]> other))).
Proof.
  split.
  - intros a b c score other dbCity mlCity.
    assert (key_of mlCity = key_of dbCity) as Hkey.
    { unfold key_of.
      rewrite (key_strings mlCity (a +:+ "_" +:+ b) c) by done.
      rewrite (key_strings dbCity a (b +:+ "_" +:+ c));
        [|by unfold dbCity; rewrite lookup_insert_eq
         |by unfold dbCity; rewrite lookup_insert_ne, lookup_insert_eq].
      unfold toLowerCase. rewrite !map_string_app, !string_app_assoc.
      reflexivity. }
    split.
    + assert (get mlCity "name" = VStr (a +:+ "_" +:+ b)) as -> by done.
      unfold dbCity, get. rewrite lookup_insert_eq. simpl.
      intros [= H]. apply (f_equal String.length) in H.
      rewrite !string_length_app in H. simpl in H. lia.
    + exists (merged_record [mlCity] dbCity). split.
      * apply (mergeCityData_arrays [dbCity] [mlCity]); repeat constructor.
        -- unfold well_keyed, dbCity, get.
           by rewrite lookup_insert_eq, lookup_insert_ne, lookup_insert_eq.
      * unfold merged_record. simpl last_with_key. rewrite Hkey, String.eqb_refl.
        unfold PythonService.enhanced, get.
        by rewrite lookup_insert_ne, !lookup_insert_eq.
  - intros u c other Hu. unfold key_of, PythonService.key, get.
    rewrite lookup_insert_eq, lookup_delete_eq.
    rewrite lookup_insert_ne, lookup_delete_ne by done.
    rewrite lookup_insert_eq. simpl. by rewrite Hu.
Qed.

Lemma key_collisions_witness :
  key_of (<["name" := VStr "Undefined"]>
            (<["country" := VStr "Peru"]> (∅ : obj)))
  = key_of (delete "name" (<["country" := VStr "Peru"]> (∅ : obj))).
Proof.
  apply (proj2 key_collisions "Undefined" "Peru" ∅). reflexivity.
Defined.

(** ** [sanitizeInput] *)

Lemma chars_trimStart_suffix (s : string) : chars (trimStart s) `suffix_of` chars s.
Proof.
  induction s as [|c s IH]; simpl; [done|].
  destruct (is_space c); [|done].
  destruct IH as [k Hk]. exists (c :: k). unfold chars in *. simpl. by rewrite Hk.
Qed.

Lemma chars_rev_string (s acc : string) :
  chars (rev_string s acc) = (rev (chars s) ++ chars acc)%list.
Proof.
  revert acc. induction s as [|c s IH]; intros acc; simpl; [done|].
  rewrite IH. unfold chars. simpl. by rewrite <- app_assoc.
Qed.

Lemma chars_trimEnd_prefix (s : string) : chars (trimEnd s) `prefix_of` chars s.
Proof.
  unfold trimEnd. rewrite chars_rev_string, app_nil_r.
  destruct (chars_trimStart_suffix (rev_string s "")) as [k Hk].
  rewrite chars_rev_string, app_nil_r in Hk.
  exists (rev k). apply (f_equal (@rev ascii)) in Hk.
  by rewrite rev_involutive, rev_app_distr in Hk.
Qed.

Lemma chars_strip_angle (s : string) :
  chars (Helpers.strip_angle s)
  = List.filter (fun c => negb (is_angle c)) (chars s).
Proof.
  unfold Helpers.strip_angle, chars. apply list_ascii_of_string_of_list_ascii.
Qed.

Lemma list_filter_sublist {A} (p : A -> bool) (l : list A) :
  List.filter p l `sublist_of` l.
Proof.
  induction l as [|x l IH]; simpl; [done|].
  destruct (p x); [by apply sublist_skip | by apply sublist_cons].
Qed.

Lemma string_length_chars (s : string) : String.length s = length (chars s).
Proof. induction s as [|c s IH]; simpl; [done | by rewrite IH]. Qed.

(** X10.  The string [sanitizeInput] returns holds no [<] and no [>]; its
    characters are characters of the input, in the order of the input, so it
    is never longer than the input. *)
Theorem sanitizeInput_strips (input : string) :
  Forall (fun c => c <> "<"%char /\ c <> ">"%char)
         (chars (Helpers.sanitizeInput input)) /\
  chars (Helpers.sanitizeInput input) `sublist_of` chars input /\
  (String.length (Helpers.sanitizeInput input) <= String.length input)%nat.
Proof.
  assert (chars (Helpers.sanitizeInput input) `sublist_of` chars input) as Hsub.
  { unfold Helpers.sanitizeInput. rewrite chars_strip_angle.
    etrans; [apply list_filter_sublist|]. unfold trim.
    trans (chars (trimStart input)).
    - destruct (chars_trimEnd_prefix (trimStart input)) as [k Hk].
      rewrite Hk. by apply sublist_inserts_r.
    - destruct (chars_trimStart_suffix input) as [k Hk].
      rewrite Hk. by apply sublist_inserts_l. }
  split; [|split; [done|]].
  - unfold Helpers.sanitizeInput. rewrite chars_strip_angle.
    apply Forall_forall. intros c Hc. apply list_elem_of_In, filter_In in Hc as [_ Hc].
    unfold is_angle in Hc. apply negb_true_iff, orb_false_iff in Hc as [H1 H2].
    split; intros ->; by vm_compute in H1, H2.
  - rewrite !string_length_chars. by apply sublist_length.
Qed.

Lemma chars_inj (s t : string) : chars s = chars t -> s = t.
Proof.
  unfold chars. intros H. apply (f_equal string_of_list_ascii) in H.
  by rewrite !string_of_list_ascii_of_string in H.
Qed.

Lemma head_rev {A} (l : list A) : head (rev l) = last l.
Proof.
  destruct (last l) as [x|] eqn:E.
  - apply last_Some in E as [l' ->]. by rewrite rev_app_distr.
  - apply last_None in E as ->. done.
Qed.

(** [trimStart] changes a string exactly when it starts with white space. *)
Lemma trimStart_unchanged (s : string) :
  trimStart s = s <-> forall c, head (chars s) = Some c -> is_space c = false.
Proof.
  destruct s as [|c s]; [done|]. simpl. split.
  - intros H c' [= <-]. destruct (is_space c); [|done].
    apply (f_equal chars) in H.
    pose proof (chars_trimStart_suffix s) as [k Hk].
    apply (f_equal (@length ascii)) in H, Hk.
    unfold chars in *. simpl in H. rewrite length_app in Hk. lia.
  - intros H. by rewrite (H c eq_refl).
Qed.

(** [trimEnd] changes a string exactly when it ends with white space. *)
Lemma trimEnd_unchanged (s : string) :
  trimEnd s = s <-> forall c, last (chars s) = Some c -> is_space c = false.
Proof.
  rewrite <- head_rev.
  replace (rev (chars s)) with (chars (rev_string s ""))
    by (by rewrite chars_rev_string, app_nil_r).
  rewrite <- trimStart_unchanged. unfold trimEnd. split.
  - intros H. apply chars_inj. apply (f_equal chars) in H.
    rewrite chars_rev_string, app_nil_r in H.
    apply (f_equal (@rev ascii)) in H. rewrite rev_involutive in H.
    by rewrite H, chars_rev_string, app_nil_r.
  - intros ->. apply chars_inj.
    by rewrite !chars_rev_string, !app_nil_r, rev_involutive.
Qed.

Lemma strip_angle_unchanged (s : string) :
  Helpers.strip_angle s = s <-> Forall (fun c => is_angle c = false) (chars s).
Proof.
  split.
  - intros H. apply (f_equal chars) in H. rewrite chars_strip_angle in H.
    rewrite <- H. apply Forall_forall. intros c Hc.
    apply list_elem_of_In, filter_In in Hc as [_ Hc]. by apply negb_true_iff.
  - intros H. apply chars_inj. rewrite chars_strip_angle.
    induction H as [|c l Hc _ IH]; simpl; [done|]. by rewrite Hc, IH.
Qed.

Lemma sublist_same_length {A} (l k : list A) :
  l `sublist_of` k -> (length k <= length l)%nat -> l = k.
Proof.
  induction 1 as [|x l k _ IH|x l k Hsub _]; simpl; intros Hlen.
  - done.
  - f_equal. apply IH. lia.
  - apply sublist_length in Hsub. lia.
Qed.

(** X11.  [sanitizeInput] returns its input unchanged exactly when the
    input holds no [<] and no [>] and neither starts nor ends with white
    space. *)
Theorem sanitizeInput_unchanged (input : string) :
  Helpers.sanitizeInput input = input <->
  Forall (fun c => is_angle c = false) (chars input) /\
  (forall c, head (chars input) = Some c -> is_space c = false) /\
  (forall c, last (chars input) = Some c -> is_space c = false).
Proof.
  rewrite <- strip_angle_unchanged, <- trimStart_unchanged, <- trimEnd_unchanged.
  unfold Helpers.sanitizeInput, trim. split.
  - intros H.
    assert (chars (trimStart input) = chars input) as Hstart.
    { apply sublist_same_length.
      - destruct (chars_trimStart_suffix input) as [k Hk].
        rewrite Hk. by apply sublist_inserts_l.
      - rewrite <- H at 1. apply sublist_length. rewrite chars_strip_angle.
        etrans; [apply list_filter_sublist|].
        destruct (chars_trimEnd_prefix (trimStart input)) as [k Hk].
        rewrite Hk. by apply sublist_inserts_r. }
    apply chars_inj in Hstart. rewrite Hstart in H.
    assert (chars (trimEnd input) = chars input) as Hend.
    { apply sublist_same_length.
      - destruct (chars_trimEnd_prefix input) as [k Hk].
        rewrite Hk. by apply sublist_inserts_r.
      - rewrite <- H at 1. apply sublist_length. rewrite chars_strip_angle.
        apply list_filter_sublist. }
    apply chars_inj in Hend. rewrite Hend in H. done.
  - intros (Hstrip & Hstart & Hend). by rewrite Hstart, Hend.
Qed.

(** ** [GET /saved] *)

Lemma saved_limit (req : Express.request) :
  1 <= CitiesRoutesSaved.finalLimit req <= 100.
Proof. unfold CitiesRoutesSaved.finalLimit. lia. Qed.

Lemma saved_offset_nonneg (req : Express.request) :
  0 <= CitiesRoutesSaved.finalOffset req.
Proof.
  pose proof (saved_limit req). unfold CitiesRoutesSaved.finalOffset. nia.
Qed.

Lemma saved_guard (req : Express.request) :
  (CitiesRoutesSaved.finalLimit req <? 0)
  || (CitiesRoutesSaved.finalOffset req <? 0) = false.
Proof.
  pose proof (saved_limit req). pose proof (saved_offset_nonneg req).
  apply orb_false_intro; apply Z.ltb_ge; lia.
Qed.

Lemma saved_pageNum_nonzero (req : Express.request) :
  CitiesRoutesSaved.pageNum req <> 0.
Proof. unfold CitiesRoutesSaved.pageNum. apply num_or_nonzero. lia. Qed.

(** The index the slice starts at, for a page up to 2^53. *)
Lemma saved_start (p : Z) :
  p <> 0 -> - 2 ^ 53 < p <= 2 ^ 53 ->
  Z.max 0 (js_sub (num_or (parseInt (VInt p)) 1) 1) = Z.max 1 p - 1.
Proof.
  intros Hp Hr.
  destruct (Z.eq_dec p (2 ^ 53)) as [-> | Htop]; [by vm_compute|].
  destruct (Z.eq_dec p (- 2 ^ 53 + 1)) as [-> | Hbot]; [by vm_compute|].
  rewrite two_53 in *.
  rewrite parseInt_VInt, num_or_Some, js_sub_safe;
    unfold safe_integer; rewrite ?two_53; try lia.
Qed.

Lemma saved_window (req : Express.request) :
  - 2 ^ 53 < CitiesRoutesSaved.pageNum req <= 2 ^ 53 ->
  CitiesRoutesSaved.finalOffset req
  = (Z.max 1 (CitiesRoutesSaved.pageNum req) - 1) * CitiesRoutesSaved.finalLimit req.
Proof.
  intros Hp. unfold CitiesRoutesSaved.finalOffset.
  by rewrite saved_start by (apply saved_pageNum_nonzero || done).
Qed.

(** No number is the odd integer after 2^53, so [parseInt] returns none. *)
Lemma first_digit_bounds (x : Q) : 0 <= first_digit x < 10.
Proof.
  unfold first_digit. destruct (shortest x) as [[s k] n].
  apply Z.mod_pos_bound. lia.
Qed.

Lemma parseInt_gap (v : jsval) : parseInt v <> Some (2 ^ 53 + 1).
Proof.
  rewrite two_53.
  assert (forall z, Some (to_double z) <> Some (9007199254740992 + 1)) as Hgap.
  { intros z [= H]. apply (to_double_gap z). by rewrite two_53. }
  destruct v as [| | b | q | s]; simpl; try done.
  - unfold parseInt_number. destruct (Qeq_bool _ _).
    + unfold parseInt_integer. destruct (_ <=? _); [done|].
      destruct (_ <? _); [apply Hgap|].
      pose proof (first_digit_bounds (inject_Z (Z.abs (to_double (Qfloor q))))).
      intros [= H1]. destruct (Z.sgn_spec (to_double (Qfloor q)))
        as [[? E] | [[? E] | [? E]]]; rewrite E in H1; lia.
    + unfold parseInt_fraction. destruct (Qle_bool 1 _); [apply Hgap|].
      destruct (_ <? _); [done|].
      pose proof (first_digit_bounds (Qabs q)).
      intros [= H1]. destruct (Qle_bool 0 q); lia.
  - unfold parseInt_string.
    destruct (match trimStart s with
              | String "-" r => (-1, r)
              | String "+" r => (1, r)
              | _ => (1, trimStart s)
              end) as [sign s2].
    destruct (match s2 with
              | String "0" (String "x" r) => (16, r)
              | String "0" (String "X" r) => (16, r)
              | _ => (10, s2)
              end) as [radix s3].
    destruct (parse_digits radix s3 None); [apply Hgap | done].
Qed.

Lemma saved_pageNum_gap (req : Express.request) :
  CitiesRoutesSaved.pageNum req <> 2 ^ 53 + 1.
Proof.
  unfold CitiesRoutesSaved.pageNum.
  pose proof (parseInt_gap (Express.param (Express.page req) (VInt 1))) as H.
  destruct (parseInt _) as [[| |]|]; simpl; try done; congruence.
Qed.

Lemma slice_take_drop {A} (l : list A) (start count : Z) :
  0 <= start -> 0 <= count ->
  slice l start (start + count)
  = take (Z.to_nat count) (drop (Z.to_nat start) l).
Proof.
  intros Hs Hc. unfold slice.
  replace (start <? 0) with false by (symmetry; apply Z.ltb_ge; lia).
  replace (start + count <? 0) with false by (symmetry; apply Z.ltb_ge; lia).
  destruct (Z.le_gt_cases start (Z.of_nat (length l))) as [Hle | Hgt].
  - rewrite (Z.min_l start) by done.
    destruct (Z.le_gt_cases (start + count) (Z.of_nat (length l))) as [Hle' | Hgt'].
    + rewrite Z.min_l by done. f_equal. lia.
    + rewrite Z.min_r by lia.
      rewrite !take_ge; [done| |]; rewrite length_drop; lia.
  - rewrite !drop_ge by lia. by rewrite !take_nil.
Qed.




Lemma take_plus {A} (l : list A) (a b : nat) :
  take (a + b) l = (take a l ++ take b (drop a l))%list.
Proof.
  revert l. induction a as [|a IH]; intros [|x l]; simpl; try done.
  - by rewrite take_nil.
  - by rewrite IH.
Qed.

Lemma saved_cities_of_page (w : world) (s : CitiesRoutesSaved.store)
  (req : Express.request) (userId : string) (total : Z) (all : list obj) :
  authenticated w req = Some userId ->
  CitiesRoutesSaved.count_saved s userId = Returns total ->
  CitiesRoutesSaved.select_all_saved s userId = Returns all ->
  saved_cities_of (CitiesRoutesSaved.get_saved w s req)
  = map CitiesRoutesSaved.mark
      (take (Z.to_nat (CitiesRoutesSaved.finalLimit req))
         (drop (Z.to_nat (CitiesRoutesSaved.finalOffset req)) all)).
Proof.
  intros Hauth Hcount Hall.
  pose proof (saved_limit req) as Hl.
  pose proof (saved_offset_nonneg req) as Hoff.
  unfold saved_cities_of, CitiesRoutesSaved.get_saved. unfold authenticated in Hauth.
  destruct (Express.given (Express.token req)) as [token|]; [|done].
  destruct (jwt_verify w token) as [u|]; [|done].
  rewrite Hauth, saved_guard, Hcount. simpl. unfold CitiesRoutesSaved.saved_page.
  rewrite Hall. simpl. by rewrite slice_take_drop by lia.
Qed.

(** X13.  The pages of [GET /saved] tile the list of saved cities: for
    requests of one user with the same limit and the pages 1, 2, ..., n,
    answered from the same list, the pages put one after the other are the
    first n * limit saved cities (all of them once n * limit reaches their
    number), each exactly once and in the order of the list. *)
Theorem saved_pages_tile (w : world) (s : CitiesRoutesSaved.store)
  (userId : string) (total limit : Z) (all : list obj)
  (reqs : list Express.request) :
  CitiesRoutesSaved.count_saved s userId = Returns total ->
  CitiesRoutesSaved.select_all_saved s userId = Returns all ->
  (forall (i : nat) (req : Express.request),
     reqs !! i = Some req ->
     authenticated w req = Some userId /\
     CitiesRoutesSaved.finalLimit req = limit /\
     CitiesRoutesSaved.pageNum req = Z.of_nat i + 1) ->
  concat (map (fun req => saved_cities_of (CitiesRoutesSaved.get_saved w s req)) reqs)
  = map CitiesRoutesSaved.mark (take (length reqs * Z.to_nat limit) all).
Proof.
  intros Hcount Hall. induction reqs as [|req reqs IH] using rev_ind; intros Hreqs.
  - done.
  - rewrite map_app, concat_app, IH; cycle 1.
    { intros i r Hi. apply Hreqs. by apply lookup_app_l_Some. }
    destruct (Hreqs (length reqs) req) as (Hauth & Hlimit & Hpage).
    { by rewrite lookup_app_r, Nat.sub_diag by lia. }
    simpl. rewrite app_nil_r.
    rewrite (saved_cities_of_page w s req userId total all Hauth Hcount Hall).
    assert (Z.of_nat (length reqs) + 1 <= 2 ^ 53) as Hsmall.
    { destruct (Z.le_gt_cases (Z.of_nat (length reqs) + 1) (2 ^ 53))
        as [Hle | Hgt]; [done|].
      destruct (lookup_lt_is_Some_2 (reqs ++ [req]) (Z.to_nat (2 ^ 53)))
        as [req' Hreq'].
      { rewrite length_app. simpl length. rewrite two_53 in *. lia. }
      destruct (Hreqs _ _ Hreq') as (_ & _ & Hgap).
      destruct (saved_pageNum_gap req'). rewrite Hgap, two_53. lia. }
    rewrite saved_window by (rewrite Hpage, two_53 in *; lia).
    rewrite Hlimit, Hpage, <- map_app. f_equal.
    rewrite length_app. simpl length.
    replace ((length reqs + 1) * Z.to_nat limit)%nat
      with (length reqs * Z.to_nat limit + Z.to_nat limit)%nat by lia.
    rewrite take_plus. do 3 f_equal.
    pose proof (saved_limit req) as Hl. rewrite Hlimit in Hl. nia.
Qed.

Lemma saved_pages_tile_witness :
  let w := Scenario.a_world Scenario.python_down [] 0 in
  let all := [Scenario.bangkok; Scenario.chiang_mai; Scenario.lisbon] in
  let s := a_saved_store all in
  let reqs := [Scenario.a_request (Some "1") (Some "2") None None;
               Scenario.a_request (Some "2") (Some "2") None None] in
  concat (map (fun req => saved_cities_of (CitiesRoutesSaved.get_saved w s req)) reqs)
  = map CitiesRoutesSaved.mark (take (length reqs * Z.to_nat 2) all).
Proof.
  intros w all s reqs.
  apply (saved_pages_tile w s "u1" 3 2 all reqs); [reflexivity | reflexivity |].
  intros [|[|i]] req; simpl; intros [= <-]; repeat split; reflexivity.
Defined.

(** X14.  When the first statement of [GET /saved] throws, the route
    answers with the rows of its fallback statement, whose window is fixed:
    every page and every limit get the same cities, under the page number
    that was asked for. *)
Theorem saved_fallback_ignores_page (w : world) (s : CitiesRoutesSaved.store)
  (req : Express.request) (userId : string) (total : Z) (e : exn)
  (rows : list obj) :
  authenticated w req = Some userId ->
  CitiesRoutesSaved.count_saved s userId = Returns total ->
  CitiesRoutesSaved.select_all_saved s userId = Throws e ->
  CitiesRoutesSaved.select_first_saved s userId = Returns rows ->
  CitiesRoutesSaved.get_saved w s req
  = Helpers.successResponse
      (Helpers.Listing (map CitiesRoutesSaved.mark rows)
         (Routes.pagination_block (CitiesRoutesSaved.pageNum req) total
            (CitiesRoutesSaved.finalLimit req)))
      "Saved cities retrieved successfully".
Proof.
  intros Hauth Hcount Hall Hfirst.
  unfold CitiesRoutesSaved.get_saved. unfold authenticated in Hauth.
  destruct (Express.given (Express.token req)) as [token|]; [|done].
  destruct (jwt_verify w token) as [u|]; [|done].
  rewrite Hauth, saved_guard, Hcount. simpl. unfold CitiesRoutesSaved.saved_page.
  by rewrite Hall, Hfirst.
Qed.

Lemma saved_fallback_ignores_page_witness :
  let w := Scenario.a_world Scenario.python_down [] 0 in
  let s :=
    {| CitiesRoutesSaved.count_saved := fun _ => Returns 30;
       CitiesRoutesSaved.test_saved := fun _ => Returns 30;
       CitiesRoutesSaved.select_all_saved := fun _ => Throws StorageError;
       CitiesRoutesSaved.select_first_saved :=
         fun _ => Returns [Scenario.bangkok] |} in
  let req := Scenario.a_request (Some "2") (Some "5") None None in
  CitiesRoutesSaved.get_saved w s req
  = Helpers.successResponse
      (Helpers.Listing (map CitiesRoutesSaved.mark [Scenario.bangkok])
         (Routes.pagination_block (CitiesRoutesSaved.pageNum req) 30
            (CitiesRoutesSaved.finalLimit req)))
      "Saved cities retrieved successfully".
Proof.
  intros w s req.
  apply (saved_fallback_ignores_page w s req "u1" 30 StorageError);
    reflexivity.
Defined.

(** ** The pagination block of the listing responses *)



(** ** [POST /:id/save] *)

(** X15.  For an authenticated user, a city the cities table holds and
    statements that do not throw, [POST /:id/save] toggles: it answers 200,
    reports [is_saved] true exactly when the pair was not saved before, leaves
    the pair saved exactly when it reports true, and a second call restores
    the table and reports the opposite. *)
Theorem post_save_toggles (w : world) (t : CitiesRoutesSave.tables)
  (id userId : string) (req : Express.request)
  (saved_cities : gset (string * string)) :
  authenticated w req = Some userId ->
  id <> "" ->
  CitiesRoutesSave.known_city t id = true ->
  (forall st, CitiesRoutesSave.throws t st = false) ->
  let first := CitiesRoutesSave.post_save w t id req saved_cities in
  let second := CitiesRoutesSave.post_save w t id req first.2 in
  let now_saved := negb (bool_decide ((userId, id) ∈ saved_cities)) in
  first.1 = Http.successResponse now_saved
              (if now_saved then "City saved successfully"
               else "City removed from saved list") /\
  ((userId, id) ∈ first.2 <-> now_saved = true) /\
  Http.json second.1
  = Http.Success (if now_saved then "City removed from saved list"
                  else "City saved successfully") (negb now_saved) /\
  second.2 = saved_cities.
Proof.
  intros Hauth Hid Hknown Hsound.
  assert (forall table,
            CitiesRoutesSave.post_save w t id req table
            = if bool_decide ((userId, id) ∈ table)
              then (Http.successResponse false "City removed from saved list",
                    table ∖ {[ (userId, id) ]})
              else (Http.successResponse true "City saved successfully",
                    {[ (userId, id) ]} ∪ table)) as Hstep.
  { intros table. unfold CitiesRoutesSave.post_save, CitiesRoutesSave.execute.
    unfold authenticated in Hauth.
    destruct (Express.given (Express.token req)) as [token|]; [|done].
    destruct (jwt_verify w token) as [u|]; [|done].
    rewrite Hauth, !Hsound, Hknown.
    replace (truthy (VStr id)) with true
      by (simpl; destruct (String.eqb_spec id ""); done).
    simpl. by destruct (bool_decide _). }
  intros first second now_saved. subst first second now_saved.
  rewrite !Hstep.
  destruct (bool_decide ((userId, id) ∈ saved_cities)) eqn:Hmem; simpl.
  - apply bool_decide_eq_true in Hmem.
    rewrite bool_decide_eq_false_2 by set_solver. simpl.
    repeat split; try done; try set_solver.
    apply set_eq. intros p. destruct (decide (p = (userId, id))); set_solver.
  - apply bool_decide_eq_false in Hmem.
    rewrite bool_decide_eq_true_2 by set_solver. simpl.
    repeat split; try done; try set_solver.
Qed.

Lemma post_save_toggles_witness :
  let w := Scenario.a_world Scenario.python_down [] 0 in
  let t := sound_tables ["c1"; "c2"] in
  let req := Scenario.a_request None None None None in
  let saved_cities : gset (string * string) := {[ ("u1", "c2"); ("u2", "c1") ]} in
  (CitiesRoutesSave.post_save w t "c1" req
     (CitiesRoutesSave.post_save w t "c1" req saved_cities).2).2
  = saved_cities.
Proof.
  intros w t req saved_cities.
  apply (post_save_toggles w t "c1" "u1" req saved_cities).
  - reflexivity.
  - discriminate.
  - reflexivity.
  - reflexivity.
Defined.

(** X16.  Whatever happens (a missing or bad token, an unknown city, a
    statement that throws) [POST /:id/save] changes nothing in saved_cities
    but the pair of the authenticated user and the city of the request, and
    it leaves the table as it was unless it answers 200. *)
Theorem post_save_frame (w : world) (t : CitiesRoutesSave.tables) (id : string)
  (req : Express.request) (saved_cities : gset (string * string)) :
  let result := CitiesRoutesSave.post_save w t id req saved_cities in
  (Http.status result.1 <> 200 -> result.2 = saved_cities) /\
  (forall user city,
     authenticated w req <> Some user \/ city <> id ->
     ((user, city) ∈ result.2 <-> (user, city) ∈ saved_cities)).
Proof.
  unfold CitiesRoutesSave.post_save, CitiesRoutesSave.execute, authenticated.
  destruct (Express.given (Express.token req)) as [token|]; [|done].
  destruct (jwt_verify w token) as [u|]; [|done].
  destruct (Express.given u) as [userIdStr|]; [|done].
  destruct (negb (truthy (VStr id))); [done|].
  destruct (CitiesRoutesSave.throws t CitiesRoutesSave.CityCheck); [done|].
  simpl. destruct (negb (CitiesRoutesSave.known_city t id)); [done|].
  destruct (CitiesRoutesSave.throws t CitiesRoutesSave.ExistingSave); [done|].
  simpl. destruct (bool_decide _).
  - destruct (CitiesRoutesSave.throws t CitiesRoutesSave.DeleteSave); [done|].
    simpl. split; [done|]. intros user city Hother.
    assert ((user, city) <> (userIdStr, id)) by (intros [= -> ->]; by destruct Hother).
    set_solver.
  - destruct (CitiesRoutesSave.throws t CitiesRoutesSave.InsertSave); [done|].
    simpl. split; [done|]. intros user city Hother.
    assert ((user, city) <> (userIdStr, id)) by (intros [= -> ->]; by destruct Hother).
    set_solver.
Qed.

Lemma post_save_frame_witness :
  let w := Scenario.a_world Scenario.python_down [] 0 in
  let t :=
    {| CitiesRoutesSave.known_city := fun _ => true;
       CitiesRoutesSave.throws := fun st =>
         match st with
         | CitiesRoutesSave.InsertSave => true
         | _ => false
         end |} in
  let req := Scenario.a_request None None None None in
  let saved_cities : gset (string * string) := {[ ("u2", "c1") ]} in
  (CitiesRoutesSave.post_save w t "c1" req saved_cities).2 = saved_cities.
Proof.
  intros w t req saved_cities.
  apply (proj1 (post_save_frame w t "c1" req saved_cities)).
  vm_compute. discriminate.
Defined.

(** ** The authentication middleware *)

Lemma split_space_spaceless (s : string) :
  spaceless s -> split_space s = [s].
Proof.
  unfold spaceless, chars. induction s as [|c s IH]; simpl; [done|].
  intros H. apply Forall_cons in H as [Hc Hs].
  destruct (Ascii.eqb_spec c " "); [done|]. by rewrite IH.
Qed.

Lemma split_space_word (word rest : string) :
  spaceless word ->
  split_space (word +:+ " " +:+ rest) = word :: split_space rest.
Proof.
  unfold spaceless, chars. induction word as [|c word IH]; [done|].
  intros H. apply Forall_cons in H as [Hc Hs].
  change (String c word +:+ " " +:+ rest) with (String c (word +:+ " " +:+ rest)).
  simpl. destruct (Ascii.eqb_spec c " "); [done|]. by rewrite IH.
Qed.

(** X17.  The token both middlewares read is the second space-separated word of the authorization header, whatever
    the first word is (the scheme is not compared with "Bearer") and whatever
    follows a further space; a header without a space carries no token. *)
Theorem token_is_second_word :
  (forall scheme token : string,
     spaceless scheme -> spaceless token ->
     AuthMiddleware.token_of (Some (scheme +:+ " " +:+ token)) = Some token /\
     forall rest,
       AuthMiddleware.token_of (Some (scheme +:+ " " +:+ token +:+ " " +:+ rest))
       = Some token) /\
  (forall header : string,
     spaceless header ->
     Express.given (AuthMiddleware.token_of (Some header)) = None) /\
  Express.given (AuthMiddleware.token_of None) = None.
Proof.
  split; [|split; [|done]].
  - intros scheme token Hscheme Htoken.
    assert (forall tail, truthy (VStr (scheme +:+ " " +:+ tail)) = true) as Htruthy.
    { intros tail. by destruct scheme. }
    unfold AuthMiddleware.token_of. split.
    + rewrite Htruthy, split_space_word by done.
      by rewrite split_space_spaceless.
    + intros rest. by rewrite Htruthy, !split_space_word.
  - intros header Hheader. unfold AuthMiddleware.token_of.
    destruct (truthy (VStr header)) eqn:Ht.
    + by rewrite split_space_spaceless.
    + unfold Express.given. by rewrite Ht.
Qed.

Lemma token_is_second_word_witness :
  AuthMiddleware.token_of (Some ("Basic" +:+ " " +:+ "abc.def.ghi"))
  = Some "abc.def.ghi".
Proof.
  apply (proj1 token_is_second_word "Basic" "abc.def.ghi");
    unfold spaceless; vm_compute; repeat constructor; discriminate.
Defined.

(** X18.  [authenticateToken] lets a request through exactly when
    [optionalAuth] sets [req.user], and with the same user: the first row of
    the users statement for the verified token.  It never denies with a
    status other than 401 or 500, and 500 only for an error that is neither a
    JsonWebTokenError nor a TokenExpiredError. *)
Theorem authenticateToken_agrees_with_optionalAuth
  (s : AuthMiddleware.services) (authHeader : option string) :
  (forall user,
     AuthMiddleware.authenticateToken s authHeader = AuthMiddleware.Next user
     <-> AuthMiddleware.optionalAuth s authHeader = Some user) /\
  (forall status error message,
     AuthMiddleware.authenticateToken s authHeader
     = AuthMiddleware.Denied status error message ->
     AuthMiddleware.optionalAuth s authHeader = None /\
     (status = 401 \/
      status = 500 /\
      exists name, name <> "JsonWebTokenError" /\ name <> "TokenExpiredError" /\
        (exists token,
           Express.given (AuthMiddleware.token_of authHeader) = Some token /\
           (AuthMiddleware.verify s token = AuthMiddleware.Rejected name \/
            exists userId,
              AuthMiddleware.verify s token = AuthMiddleware.Resolved userId /\
              AuthMiddleware.select_user_by_id s userId
              = AuthMiddleware.Rejected name)))).
Proof.
  assert (forall name status error message,
            AuthMiddleware.on_error name
            = AuthMiddleware.Denied status error message ->
            status = 401 \/
            status = 500 /\ name <> "JsonWebTokenError" /\
            name <> "TokenExpiredError") as Herr.
  { intros name status error message. unfold AuthMiddleware.on_error.
    destruct (String.eqb_spec name "JsonWebTokenError"); [intros [= <- _ _]; by left|].
    destruct (String.eqb_spec name "TokenExpiredError"); [intros [= <- _ _]; by left|].
    intros [= <- _ _]. by right. }
  assert (forall name user,
            AuthMiddleware.on_error name <> AuthMiddleware.Next user) as Hnext.
  { intros name user. unfold AuthMiddleware.on_error.
    by repeat destruct (String.eqb _ _). }
  unfold AuthMiddleware.authenticateToken, AuthMiddleware.optionalAuth.
  destruct (Express.given (AuthMiddleware.token_of authHeader)) as [token|].
  2: { split; [done|]. intros status error message [= <- _ _]. by split; [|left]. }
  destruct (AuthMiddleware.verify s token) as [userId|name] eqn:Hverify.
  2: { split.
       - intros user. split; [intros H; by apply Hnext in H | done].
       - intros status error message H. split; [done|].
         apply Herr in H as [-> | (-> & H1 & H2)]; [by left | right].
         split; [done|]. exists name. repeat split; try done.
         exists token. split; [done|]. by left. }
  destruct (AuthMiddleware.select_user_by_id s userId) as [[|row rows]|name]
    eqn:Huser.
  - split; [done|]. intros status error message [= <- _ _]. by split; [|left].
  - split; [|done]. intros user. split; by intros [= <-].
  - split.
    + intros user. split; [intros H; by apply Hnext in H | done].
    + intros status error message H. split; [done|].
      apply Herr in H as [-> | (-> & H1 & H2)]; [by left | right].
      split; [done|]. exists name. repeat split; try done.
      exists token. split; [done|]. right. by exists userId.
Qed.

Lemma authenticateToken_agrees_with_optionalAuth_witness :
  AuthMiddleware.optionalAuth a_services (Some "Bearer good")
  = Some {[ "id" := VInt 7 ]}.
Proof.
  apply (proj1 (authenticateToken_agrees_with_optionalAuth
                  a_services (Some "Bearer good"))).
  reflexivity.
Defined.

(** ** The jobs router *)

(** X19.  [GET /jobs] forwards a limit to the Remotive API only when the
    query's limit, read as a string, parses to a number above zero, and then
    that number.  A category, company name or search text that is a string
    is forwarded exactly when it is not empty, trimmed and without any [<] or
    [>]; one that Express parsed into an array or an object (a repeated or
    bracketed key) is forwarded as it came, whatever it holds. *)
Theorem jobs_params_checked (q : JobsRoutes.query) :
  let p := JobsRoutes.params_of q in
  (forall n, JobsRoutes.p_limit p = Some n ->
     0 < n /\ exists v, JobsRoutes.limit q = Some v /\
                        parseInt (VStr (to_string v)) = Some n) /\
  (forall v n, JobsRoutes.limit q = Some v ->
     parseInt (VStr (to_string v)) = Some n ->
     n <= 0 -> JobsRoutes.p_limit p = None) /\
  forwarded_text (JobsRoutes.category q) (JobsRoutes.p_category p) /\
  forwarded_text (JobsRoutes.company_name q) (JobsRoutes.p_company_name p) /\
  forwarded_text (JobsRoutes.search q) (JobsRoutes.p_search p).
Proof.
  intros p. subst p. unfold JobsRoutes.params_of. simpl.
  assert (forall v, forwarded_text v (JobsRoutes.text_param v)) as Htext.
  { intros [[[|c t]|items|members]|]; simpl; try done.
    split; [done | apply sanitizeInput_strips]. }
  split; [|split; [|by repeat split]].
  - intros n. unfold JobsRoutes.limit_member.
    destruct (JobsRoutes.limit q) as [v|]; [|done].
    assert (forall x, match parseInt (VStr (to_string x)) with
                      | Some limitNum => if 0 <? limitNum then Some limitNum else None
                      | None => None
                      end = Some n ->
                      0 < n /\ parseInt (VStr (to_string x)) = Some n) as Hparse.
    { intros x. destruct (parseInt (VStr (to_string x))) as [m|]; [|done].
      destruct (Z.ltb_spec 0 m); [|done]. by intros [= <-]. }
    destruct v as [[|c t]|items|members]; simpl JobsRoutes.given; try done;
      intros H; apply Hparse in H as [? ?]; (split; [done|]); by eexists.
  - intros v n Hv Hn Hle. unfold JobsRoutes.limit_member. rewrite Hv.
    destruct (JobsRoutes.given (Some v)) as [x|] eqn:Hx; [|done].
    assert (x = v) as ->.
    { destruct v as [[|c t]|items|members]; simpl in Hx; congruence. }
    simpl parseInt in *. rewrite Hn. by destruct (Z.ltb_spec 0 n); [lia|].
Qed.

Lemma jobs_params_checked_witness :
  let q := {| JobsRoutes.category := Some (QString " <b>design</b> ");
              JobsRoutes.company_name := Some (QArray [QString "<i>"; QString "x"]);
              JobsRoutes.search := None;
              JobsRoutes.limit := Some (QString "-3") |} in
  JobsRoutes.p_limit (JobsRoutes.params_of q) = None /\
  JobsRoutes.p_category (JobsRoutes.params_of q) = Some (QString "bdesign/b") /\
  JobsRoutes.p_company_name (JobsRoutes.params_of q)
  = Some (QArray [QString "<i>"; QString "x"]).
Proof.
  intros q.
  destruct (jobs_params_checked q) as (_ & Hlimit & Hcategory & Hcompany & _).
  split; [|split].
  - apply (Hlimit (QString "-3") (-3)); first [reflexivity | lia].
  - apply Hcategory.
  - exact Hcompany.
Defined.

Lemma format_lookup (job : obj) (k : string) :
  JobsRoutes.format job !! k
  = get job <$> (list_to_map JobsRoutes.formatted_from : gmap string string) !! k.
Proof.
  unfold JobsRoutes.format.
  induction JobsRoutes.formatted_from as [|[to from] l IH]; [done|].
  cbn [foldr list_to_map fst snd].
  destruct (decide (to = k)) as [-> | Hne].
  - by rewrite !lookup_insert_eq.
  - by rewrite !lookup_insert_ne.
Qed.

(** X20.  A successful [GET /jobs] returns one formatted job per job of
    the upstream body, in the upstream order; a formatted job has exactly the
    eleven listed properties, each with the value of the upstream property of
    the same name, except [location], which carries
    [candidate_required_location]; nothing else the upstream sent is passed
    on.  A body without a jobs array is answered with 500. *)
Theorem jobs_are_formatted (remotive : JobsRoutes.params -> JobsRoutes.upstream)
  (q : JobsRoutes.query) :
  (forall job_count upstream_jobs,
     remotive (JobsRoutes.params_of q)
     = JobsRoutes.Replied job_count (Some upstream_jobs) ->
     exists sent,
       JobsRoutes.get_jobs remotive q
       = Http.successResponse
           {| JobsRoutes.total_jobs := job_count; JobsRoutes.jobs := sent |}
           "Jobs retrieved successfully" /\
       Forall2 formats upstream_jobs sent) /\
  (forall job_count,
     remotive (JobsRoutes.params_of q) = JobsRoutes.Replied job_count None ->
     Http.status (JobsRoutes.get_jobs remotive q) = 500).
Proof.
  split.
  - intros job_count upstream_jobs Hreply.
    exists (map JobsRoutes.format upstream_jobs).
    unfold JobsRoutes.get_jobs. rewrite Hreply. split; [done|].
    apply Forall2_fmap_r, Forall_Forall2_diag, Forall_forall. intros job _.
    unfold formats.
    assert (dom (JobsRoutes.format job)
            = list_to_set (map fst JobsRoutes.formatted_from)) as Hdom.
    { rewrite <- (dom_list_to_map_L (M := gmap string)).
      apply set_eq. intros k.
      by rewrite !elem_of_dom, format_lookup, fmap_is_Some. }
    split; [done|]. split; [by rewrite format_lookup|].
    intros k Hk Hloc. rewrite Hdom in Hk. rewrite format_lookup.
    set_unfold. simpl in Hk. destruct Hk as (x & -> & Hk).
    destruct Hk as [-> | [-> | [-> | [-> | [-> | [-> | [-> | [-> | [-> | [-> | [-> | []]]]]]]]]]]];
      done.
  - intros job_count Hreply. unfold JobsRoutes.get_jobs. by rewrite Hreply.
Qed.

Lemma jobs_are_formatted_witness :
  exists sent,
    JobsRoutes.get_jobs
      (fun _ => JobsRoutes.Replied (VInt 1) (Some [a_job]))
      {| JobsRoutes.category := None; JobsRoutes.company_name := None;
         JobsRoutes.search := None; JobsRoutes.limit := None |}
    = Http.successResponse
        {| JobsRoutes.total_jobs := VInt 1; JobsRoutes.jobs := sent |}
        "Jobs retrieved successfully" /\
    Forall2 formats [a_job] sent.
Proof.
  apply (proj1 (jobs_are_formatted
                  (fun _ => JobsRoutes.Replied (VInt 1) (Some [a_job])) _)).
  reflexivity.
Defined.


(** X21.  [GET /jobs/latest] always sends a limit and never zero: the
    parsed query limit when that is a number other than zero, negative ones
    included, and 10 otherwise.  A negative limit, which [GET /jobs] leaves
    out of its request, is therefore forwarded by [GET /jobs/latest]. *)
Theorem latest_limit_forwarded (limit : option string) :
  JobsRoutes.latest_limit limit <> 0 /\
  (forall s n, limit = Some s -> parseInt (VStr s) = Some n -> n <> 0 ->
     JobsRoutes.latest_limit limit = n) /\
  (limit = None \/
   (exists s, limit = Some s /\
              (parseInt (VStr s) = None \/ parseInt (VStr s) = Some 0)) ->
   JobsRoutes.latest_limit limit = 10) /\
  (forall s n, limit = Some s -> parseInt (VStr s) = Some n -> n < 0 ->
     JobsRoutes.latest_limit limit = n /\ JobsRoutes.limit_param limit = None).
Proof.
  unfold JobsRoutes.latest_limit. split; [by apply num_or_nonzero|].
  split; [|split].
  - intros s n -> Hn Hne. unfold Express.param. rewrite Hn.
    by apply num_or_Some.
  - intros [-> | (s & -> & [Hn | Hn])]; unfold Express.param.
    + by rewrite parseInt_VInt.
    + by rewrite Hn.
    + by rewrite Hn.
  - intros s n -> Hn Hneg. unfold Express.param. rewrite Hn. split.
    + apply num_or_Some. lia.
    + unfold JobsRoutes.limit_param, Express.given.
      destruct (truthy (VStr s)); [|done]. rewrite Hn.
      by destruct (Z.ltb_spec 0 n); [lia|].
Qed.

Lemma latest_limit_forwarded_witness :
  JobsRoutes.latest_limit (Some "-3") = -3 /\
  JobsRoutes.limit_param (Some "-3") = None.
Proof.
  apply (proj2 (proj2 (proj2 (latest_limit_forwarded (Some "-3")))) "-3" (-3));
    first [reflexivity | lia].
Defined.


(** ** Regular expressions *)

Section RegExpFacts.
Import RegExp.

Lemma nullable_lang (r : regex) : nullable r = true <-> lang r [].
Proof.
  induction r as [| |member|r1 IH1 r2 IH2|r1 IH1 r2 IH2|r IH]; simpl.
  - split; [done | inversion 1].
  - split; [constructor | done].
  - split; [done | inversion 1].
  - rewrite andb_true_iff, IH1, IH2. split.
    + intros [H1 H2]. change (@nil ascii) with (@nil ascii ++ [])%list.
      by constructor.
    + inversion 1 as [| |? ? s1 s2 H1 H2 Hr Hs| | | |]; subst.
      by apply app_eq_nil in Hs as [-> ->].
  - rewrite orb_true_iff, IH1, IH2. split.
    + intros [H | H]; [by apply lang_alt_l | by apply lang_alt_r].
    + inversion 1; subst; auto.
  - split; [constructor | done].
Qed.

Lemma lang_star_cons_inv (r : regex) (c : ascii) (s : list ascii) :
  lang (Star r) (c :: s) ->
  exists s1 s2, s = (s1 ++ s2)%list /\ lang r (c :: s1) /\ lang (Star r) s2.
Proof.
  intros H. remember (Star r) as r' eqn:Hr. remember (c :: s) as s' eqn:Hs.
  revert s Hs.
  induction H as [| | | | | |r0 s1 s2 H1 _ H2 IH2]; try discriminate;
    intros s Hs.
  injection Hr as ->. destruct s1 as [|c1 s1].
  - by apply IH2.
  - simpl in Hs. injection Hs as -> <-. by exists s1, s2.
Qed.

Lemma derive_lang (c : ascii) (r : regex) (s : list ascii) :
  lang (derive c r) s <-> lang r (c :: s).
Proof.
  revert s.
  induction r as [| |member|r1 IH1 r2 IH2|r1 IH1 r2 IH2|r IH]; intros s; simpl.
  - split; inversion 1.
  - split; inversion 1.
  - destruct (member c) eqn:Hm; split; inversion 1; subst.
    + by constructor.
    + constructor.
    + congruence.
  - split.
    + inversion 1 as [| | |? ? ? Hl|? ? ? Hl| |]; subst.
      * inversion Hl as [| |? ? s1 s2 H1 H2| | | |]; subst.
        apply IH1 in H1. by apply (lang_cat r1 r2 (c :: s1) s2).
      * destruct (nullable r1) eqn:Hn; [|inversion Hl].
        apply nullable_lang in Hn. apply IH2 in Hl.
        by apply (lang_cat r1 r2 [] (c :: s)).
    + inversion 1 as [| |? ? s1 s2 H1 H2 Hr Hs| | | |]; subst.
      destruct s1 as [|c1 s1]; simpl in Hs.
      * subst s2. apply lang_alt_r. apply nullable_lang in H1 as ->.
        by apply IH2.
      * injection Hs as -> <-. apply lang_alt_l. constructor; [|done].
        by apply IH1.
  - split.
    + inversion 1; subst; [apply lang_alt_l; by apply IH1
                          | apply lang_alt_r; by apply IH2].
    + inversion 1; subst; [apply lang_alt_l; by apply IH1
                          | apply lang_alt_r; by apply IH2].
  - split.
    + inversion 1 as [| |? ? s1 s2 H1 H2| | | |]; subst.
      apply IH in H1. by apply (lang_star_cons r (c :: s1) s2).
    + intros H. apply lang_star_cons_inv in H as (s1 & s2 & -> & H1 & H2).
      constructor; [by apply IH | done].
Qed.

(** The matcher decides the language of the pattern. *)
Lemma accepts_lang (r : regex) (s : list ascii) :
  accepts r s = true <-> lang r s.
Proof.
  revert r. induction s as [|c s IH]; intros r; simpl.
  - apply nullable_lang.
  - rewrite IH. apply derive_lang.
Qed.

Lemma lang_cat_iff (r1 r2 : regex) (s : list ascii) :
  lang (Cat r1 r2) s
  <-> exists s1 s2, s = (s1 ++ s2)%list /\ lang r1 s1 /\ lang r2 s2.
Proof.
  split.
  - inversion 1; subst. eauto.
  - intros (s1 & s2 & -> & H1 & H2). by constructor.
Qed.

Lemma lang_class_iff (member : ascii -> bool) (s : list ascii) :
  lang (Class member) s <-> exists c, s = [c] /\ member c = true.
Proof.
  split.
  - inversion 1; subst. eauto.
  - intros (c & -> & Hc). by constructor.
Qed.

Lemma lang_lit_iff (c : ascii) (s : list ascii) : lang (Lit c) s <-> s = [c].
Proof.
  unfold Lit. rewrite lang_class_iff. split.
  - intros (c' & -> & Hc). by apply Ascii.eqb_eq in Hc as ->.
  - intros ->. exists c. by rewrite Ascii.eqb_refl.
Qed.

Lemma lang_star_class (member : ascii -> bool) (s : list ascii) :
  lang (Star (Class member)) s <-> Forall (fun c => member c = true) s.
Proof.
  split.
  - intros H. remember (Star (Class member)) as r eqn:Hr.
    induction H as [| | | | | |r0 s1 s2 H1 _ H2 IH2]; try discriminate.
    + constructor.
    + injection Hr as ->. apply Forall_app. split; [|by apply IH2].
      apply lang_class_iff in H1 as (c & -> & Hc). by constructor.
  - induction 1 as [|c s Hc _ IH]; [constructor|].
    apply (lang_star_cons _ [c] s); [by constructor | done].
Qed.

Lemma lang_plus_class (member : ascii -> bool) (s : list ascii) :
  lang (Plus (Class member)) s
  <-> s <> [] /\ Forall (fun c => member c = true) s.
Proof.
  unfold Plus. rewrite lang_cat_iff. split.
  - intros (s1 & s2 & -> & H1 & H2).
    apply lang_class_iff in H1 as (c & -> & Hc). split; [done|].
    constructor; [done | by apply lang_star_class].
  - intros [Hne H]. destruct H as [|c s Hc H]; [done|].
    exists [c], s. split; [done|]. split; [by constructor|].
    by apply lang_star_class.
Qed.

Lemma lang_star_any (s : list ascii) : lang (Star any) s.
Proof. apply lang_star_class. by apply Forall_forall. Qed.

(** An unanchored character class matches exactly the strings that hold one
    of its characters. *)
Lemma test_class (member : ascii -> bool) (s : string) :
  test (Class member) s = true
  <-> Exists (fun c => member c = true) (chars s).
Proof.
  unfold test. rewrite accepts_lang, lang_cat_iff. split.
  - intros (s1 & s2 & -> & _ & H).
    apply lang_cat_iff in H as (s3 & s4 & -> & H & _).
    apply lang_class_iff in H as (c & -> & Hc).
    apply Exists_app. right. by constructor.
  - intros H. apply Exists_exists in H as (c & Hin & Hc).
    apply list_elem_of_split in Hin as (s1 & s2 & ->).
    exists s1, (c :: s2). split; [done|]. split; [apply lang_star_any|].
    apply (lang_cat _ _ [c] s2); [by constructor | apply lang_star_any].
Qed.

End RegExpFacts.

Lemma chars_app (s t : string) : chars (s +:+ t) = (chars s ++ chars t)%list.
Proof.
  induction s as [|c s IH]; [done|].
  change (chars (String c (s +:+ t)) = c :: (chars s ++ chars t)%list).
  unfold chars in *. simpl. by rewrite IH.
Qed.

Lemma chars_of_list (l : list ascii) : chars (string_of_list_ascii l) = l.
Proof. apply list_ascii_of_string_of_list_ascii. Qed.

Lemma chars_nil (s : string) : chars s = [] <-> s = "".
Proof. by destruct s. Qed.

Lemma not_space_at_plain (l : list ascii) :
  Forall (fun c => not_space_at c = true) l
  <-> Forall (fun c => is_space c = false /\ c <> "@"%char) l.
Proof.
  apply Forall_iff. intros c. unfold not_space_at.
  rewrite negb_true_iff, orb_false_iff.
  by rewrite Ascii.eqb_neq.
Qed.

(** The strings [emailRegex] matches, as lists of characters. *)
Lemma isValidEmail_chars (email : string) :
  isValidEmail email = true
  <-> exists l h t,
        chars email = (l ++ "@"%char :: h ++ "."%char :: t)%list /\
        (l <> [] /\ Forall (fun c => not_space_at c = true) l) /\
        (h <> [] /\ Forall (fun c => not_space_at c = true) h) /\
        (t <> [] /\ Forall (fun c => not_space_at c = true) t).
Proof.
  unfold isValidEmail, RegExp.test_whole, emailRegex.
  rewrite accepts_lang, lang_cat_iff. split.
  - intros (l & s1 & -> & Hl & H).
    apply lang_cat_iff in H as (a & s2 & -> & Ha & H).
    apply lang_cat_iff in H as (h & s3 & -> & Hh & H).
    apply lang_cat_iff in H as (d & t & -> & Hd & Ht).
    apply lang_lit_iff in Ha as ->. apply lang_lit_iff in Hd as ->.
    apply lang_plus_class in Hl, Hh, Ht. by exists l, h, t.
  - intros (l & h & t & -> & Hl & Hh & Ht).
    apply lang_plus_class in Hl, Hh, Ht.
    exists l, ("@"%char :: h ++ "."%char :: t)%list. split; [done|].
    split; [done|]. apply lang_cat_iff. exists ["@"%char], (h ++ "."%char :: t)%list.
    split; [done|]. split; [by apply lang_lit_iff|].
    apply lang_cat_iff. exists h, ("."%char :: t). split; [done|].
    split; [done|]. apply lang_cat_iff. exists ["."%char], t.
    split; [done|]. split; [by apply lang_lit_iff | done].
Qed.

(** X22.  [isValidEmail] accepts exactly the strings of the form
    local@head.tail in which the three parts are not empty and hold neither
    white space nor [@]; a part may hold dots, so the address may start or
    end with one. *)
Theorem isValidEmail_shape (email : string) :
  isValidEmail email = true
  <-> exists local head tail : string,
        email = local +:+ "@" +:+ head +:+ "." +:+ tail /\
        local <> "" /\ head <> "" /\ tail <> "" /\
        plain local /\ plain head /\ plain tail.
Proof.
  rewrite isValidEmail_chars. unfold plain. split.
  - intros (l & h & t & Hs & [Hl1 Hl2] & [Hh1 Hh2] & [Ht1 Ht2]).
    exists (string_of_list_ascii l), (string_of_list_ascii h),
           (string_of_list_ascii t).
    rewrite <- !chars_nil, !chars_of_list, <- !not_space_at_plain.
    repeat split; try done.
    apply chars_inj. by rewrite !chars_app, !chars_of_list.
  - intros (local & head & tail & -> & Hl & Hh & Ht & Pl & Ph & Pt).
    exists (chars local), (chars head), (chars tail).
    rewrite !chars_nil, !not_space_at_plain.
    repeat split; try done. by rewrite !chars_app.
Qed.

(** X23.  An address [isValidEmail] accepts has exactly one [@], no white
    space and at least five characters. *)
Theorem isValidEmail_one_at (email : string) :
  isValidEmail email = true ->
  count_occ ascii_dec (chars email) "@"%char = 1%nat /\
  Forall (fun c => is_space c = false) (chars email) /\
  (5 <= String.length email)%nat.
Proof.
  intros H.
  apply isValidEmail_chars in H
    as (l & h & t & Hs & [Hl1 Hl2] & [Hh1 Hh2] & [Ht1 Ht2]).
  apply not_space_at_plain in Hl2, Hh2, Ht2.
  assert (forall p, Forall (fun c => is_space c = false /\ c <> "@"%char) p ->
                    count_occ ascii_dec p "@"%char = 0%nat /\
                    Forall (fun c => is_space c = false) p) as Hplain.
  { intros p Hp. split.
    - apply count_occ_not_In. intros Hin.
      apply (proj1 (List.Forall_forall _ _) Hp) in Hin as [_ Hin]. done.
    - eapply Forall_impl; [done|]. by intros c [Hc _]. }
  apply Hplain in Hl2 as [Cl Sl], Hh2 as [Ch Sh], Ht2 as [Ct St].
  rewrite Hs. split; [|split].
  - rewrite count_occ_app, count_occ_cons_eq, count_occ_app by done.
    rewrite count_occ_cons_neq by done. lia.
  - apply Forall_app. split; [done|]. constructor; [done|].
    apply Forall_app. split; [done|]. by constructor.
  - assert (String.length email = length (chars email)) as ->.
    { clear. induction email as [|c s IH]; [done|]. simpl. by rewrite IH. }
    rewrite Hs. rewrite length_app. simpl. rewrite length_app. simpl.
    destruct l; [done|]. destruct h; [done|]. destruct t; [done|]. simpl. lia.
Qed.

Lemma isValidEmail_one_at_witness :
  count_occ ascii_dec (chars "ana@nomad.pal") "@"%char = 1%nat /\
  Forall (fun c => is_space c = false) (chars "ana@nomad.pal") /\
  (5 <= String.length "ana@nomad.pal")%nat.
Proof. apply (isValidEmail_one_at "ana@nomad.pal"). reflexivity. Defined.

Lemma isValid_iff (password : string) :
  isValid (validatePasswordStrength password) = true
  <-> (8 <= String.length password)%nat /\
      Exists (fun c => in_range "A" "Z" c = true) (chars password) /\
      Exists (fun c => in_range "a" "z" c = true) (chars password) /\
      Exists (fun c => in_range "0" "9" c = true) (chars password).
Proof.
  unfold validatePasswordStrength. cbn [isValid].
  rewrite !andb_true_iff, !test_class, Nat.leb_le. tauto.
Qed.

(** X24.  [validatePasswordStrength] rates a password valid exactly when
    it has at least eight characters and holds a character of [A-Z], one of
    [a-z] and one of [0-9]; the reported flags are these four conditions, and
    the special-character flag tells whether one of the twenty listed
    characters occurs. *)
Theorem validatePasswordStrength_flags (password : string) :
  let result := validatePasswordStrength password in
  (isValid result = true
   <-> (8 <= String.length password)%nat /\
       Exists (fun c => in_range "A" "Z" c = true) (chars password) /\
       Exists (fun c => in_range "a" "z" c = true) (chars password) /\
       Exists (fun c => in_range "0" "9" c = true) (chars password)) /\
  isValid result
  = minLength (details result) && hasUpperCase (details result)
    && hasLowerCase (details result) && hasNumbers (details result) /\
  (hasSpecialChar (details result) = true
   <-> exists c, c ∈ chars password /\ c ∈ special_chars).
Proof.
  intros result. subst result. split; [apply isValid_iff|]. split; [done|].
  unfold validatePasswordStrength. cbn [details hasSpecialChar].
  rewrite test_class, Exists_exists. split.
  - intros (c & Hin & Hc). exists c. split; [done|].
    apply existsb_exists in Hc as (c' & Hin' & Hc').
    apply Ascii.eqb_eq in Hc' as <-. by apply list_elem_of_In.
  - intros (c & Hin & Hc). exists c. split; [done|].
    apply existsb_exists. exists c. split; [by apply list_elem_of_In|].
    apply Ascii.eqb_refl.
Qed.

(** X25.  Adding characters anywhere in a password that is rated valid
    leaves it valid: there is no upper bound on the length and no character
    that is refused. *)
Theorem validatePasswordStrength_monotone (password longer : string) :
  sublist (chars password) (chars longer) ->
  isValid (validatePasswordStrength password) = true ->
  isValid (validatePasswordStrength longer) = true.
Proof.
  intros Hsub. rewrite !isValid_iff.
  assert (forall P : ascii -> Prop,
            Exists P (chars password) -> Exists P (chars longer)) as Hex.
  { intros P H. apply Exists_exists in H as (c & Hin & Hc).
    apply Exists_exists. exists c. split; [|done].
    eapply elem_of_submseteq; [done | by apply sublist_submseteq]. }
  assert (forall s, String.length s = length (chars s)) as Hlen.
  { induction s as [|c s IH]; [done|]. simpl. by rewrite IH. }
  intros (Hl & Hu & Hlo & Hd). rewrite Hlen in *.
  apply sublist_length in Hsub. repeat split; auto. lia.
Qed.

Lemma validatePasswordStrength_monotone_witness :
  isValid (validatePasswordStrength "Nomad<Pal> 2024") = true.
Proof.
  apply (validatePasswordStrength_monotone "NomadPal2024").
  - unfold chars. simpl. repeat first [apply sublist_nil | apply sublist_skip | (apply sublist_cons; fail) | apply sublist_cons].
  - reflexivity.
Defined.


(** ** [POST /login] *)

(** The handler of [POST /login], behind the checks. *)
Lemma login_handler_outcomes (s : AuthRoutes.services) (email password : jsval) :
  let r := AuthRoutes.login s email password in
  (Http.status r = 200
   <-> exists u rest token,
         AuthRoutes.select_user_by_email s email = Returns (u :: rest) /\
         AuthRoutes.comparePassword s password (get u "password_hash")
         = Returns true /\
         AuthRoutes.generateToken s (get u "id") = Returns token /\
         r = Http.successResponse
               {| AuthRoutes.user := delete "password_hash" u;
                  AuthRoutes.token := token |}
               "Login successful") /\
  (forall message data,
     Http.json r = Http.Success message data ->
     AuthRoutes.user data !! "password_hash" = None) /\
  (AuthRoutes.select_user_by_email s email = Returns [] \/
   (exists u rest,
      AuthRoutes.select_user_by_email s email = Returns (u :: rest) /\
      AuthRoutes.comparePassword s password (get u "password_hash")
      = Returns false) ->
   r = Http.errorResponse "Invalid email or password" 401) /\
  (Http.status r = 200 \/ Http.status r = 401 \/ Http.status r = 500).
Proof.
  intros r. subst r. unfold AuthRoutes.login.
  destruct (AuthRoutes.select_user_by_email s email) as [[|u rest]|e]
    eqn:Hselect; simpl.
  - split; [split; [done | by intros (? & ? & ? & ? & _)]|].
    split; [done|]. split; [done | auto].
  - destruct (AuthRoutes.comparePassword s password (get u "password_hash"))
      as [[|]|e] eqn:Hcompare; simpl.
    + destruct (AuthRoutes.generateToken s (get u "id")) as [token|e]
        eqn:Htoken; simpl.
      * split.
        { split; [|done]. intros _. exists u, rest, token. by rewrite Hcompare. }
        split; [intros ? ? [= _ <-]; apply lookup_delete_eq|].
        split; [|auto].
        intros [? | (u' & rest' & [= <- <-] & H)]; [done|]. congruence.
      * split.
        { split; [done|]. intros (u' & rest' & token & [= <- <-] & _ & H & _).
          congruence. }
        split; [done|]. split; [|auto].
        intros [? | (u' & rest' & [= <- <-] & H)]; [done|]. congruence.
    + split; [split; [done|]|].
      { intros (u' & rest' & token & [= <- <-] & H & _). congruence. }
      split; [done|]. split; [done | auto].
    + split; [split; [done|]|].
      { intros (u' & rest' & token & [= <- <-] & H & _). congruence. }
      split; [done|]. split; [|auto].
      intros [? | (u' & rest' & [= <- <-] & H)]; [done|]. congruence.
  - split; [split; [done | by intros (? & ? & ? & ? & _)]|].
    split; [done|]. split; [|auto].
    intros [? | (u' & rest' & ? & _)]; done.
Qed.

Lemma post_login_checks (v : AuthRoutes.validation) (s : AuthRoutes.services)
  (email password : jsval) :
  (AuthRoutes.isEmail v email = true /\ AuthRoutes.notEmpty v password = true /\
   AuthRoutes.post_login v s email password
   = AuthRoutes.Handled
       (AuthRoutes.login s (AuthRoutes.normalizeEmail v email) password)) \/
  ((AuthRoutes.isEmail v email = false \/ AuthRoutes.notEmpty v password = false) /\
   exists details,
     AuthRoutes.post_login v s email password = AuthRoutes.ValidationFailed details).
Proof.
  unfold AuthRoutes.post_login, AuthRoutes.validateUserLogin.
  destruct (AuthRoutes.isEmail v email), (AuthRoutes.notEmpty v password); simpl.
  - by left.
  - right. split; [by right | by eexists].
  - right. split; [by left | by eexists].
  - right. split; [by left | by eexists].
Qed.

(** X26.  [POST /login] answers 400 exactly when a check of
    [validateUserLogin] fails: the email is not one, or the password is
    empty.  It answers 200 exactly when the checks pass, the first user with
    the normalized email exists, the password compares equal to its hash and
    a token is made; the user it returns is that row without
    [password_hash].  Behind the checks an unknown email and a wrong password
    get the same 401 response, and no status other than 200, 400, 401 and 500
    is sent. *)
Theorem login_outcomes (v : AuthRoutes.validation) (s : AuthRoutes.services)
  (email password : jsval) :
  let r := AuthRoutes.post_login v s email password in
  let normalized := AuthRoutes.normalizeEmail v email in
  (AuthRoutes.status r = 400
   <-> AuthRoutes.isEmail v email = false \/
       AuthRoutes.notEmpty v password = false) /\
  (AuthRoutes.status r = 200
   <-> AuthRoutes.isEmail v email = true /\
       AuthRoutes.notEmpty v password = true /\
       exists u rest token,
         AuthRoutes.select_user_by_email s normalized = Returns (u :: rest) /\
         AuthRoutes.comparePassword s password (get u "password_hash")
         = Returns true /\
         AuthRoutes.generateToken s (get u "id") = Returns token /\
         r = AuthRoutes.Handled
               (Http.successResponse
                  {| AuthRoutes.user := delete "password_hash" u;
                     AuthRoutes.token := token |}
                  "Login successful")) /\
  (forall response message data,
     r = AuthRoutes.Handled response ->
     Http.json response = Http.Success message data ->
     AuthRoutes.user data !! "password_hash" = None) /\
  (AuthRoutes.isEmail v email = true ->
   AuthRoutes.notEmpty v password = true ->
   AuthRoutes.select_user_by_email s normalized = Returns [] \/
   (exists u rest,
      AuthRoutes.select_user_by_email s normalized = Returns (u :: rest) /\
      AuthRoutes.comparePassword s password (get u "password_hash")
      = Returns false) ->
   r = AuthRoutes.Handled (Http.errorResponse "Invalid email or password" 401)) /\
  (AuthRoutes.status r = 200 \/ AuthRoutes.status r = 400 \/
   AuthRoutes.status r = 401 \/ AuthRoutes.status r = 500).
Proof.
  intros r normalized. subst r normalized.
  destruct (login_handler_outcomes s (AuthRoutes.normalizeEmail v email) password)
    as (H200 & Hhash & H401 & Hstatus).
  destruct (post_login_checks v s email password)
    as [(He & Hp & ->) | (Hfail & details & ->)]; simpl AuthRoutes.status.
  - split; [split; [|intros [? | ?]; congruence]|].
    { intros H400. destruct Hstatus as [? | [? | ?]]; congruence. }
    split.
    { split.
      - intros H. apply H200 in H as (u & rest & token & ? & ? & ? & ->).
        split; [done|]. split; [done|]. by exists u, rest, token.
      - intros (_ & _ & u & rest & token & ? & ? & ? & [= ->]). done. }
    split; [intros response message data [= <-]; apply Hhash|].
    split; [intros _ _ H; by rewrite (H401 H)|].
    destruct Hstatus as [? | [? | ?]]; auto.
  - split; [by split|]. split.
    { split; [done|]. intros (He & Hp & _). destruct Hfail; congruence. }
    split; [done|]. split; [|auto].
    intros He Hp. destruct Hfail; congruence.
Qed.

Lemma login_outcomes_witness :
  AuthRoutes.post_login a_validation a_login_services
    (VStr "Ana@Nomad.pal") (VStr "wrong")
  = AuthRoutes.post_login a_validation a_login_services
      (VStr "bo@nomad.pal") (VStr "right") /\
  AuthRoutes.status
    (AuthRoutes.post_login a_validation a_login_services (VStr "ana") (VStr "right"))
  = 400.
Proof.
  pose proof (login_outcomes a_validation a_login_services (VStr "Ana@Nomad.pal")
                (VStr "wrong")) as (_ & _ & _ & H1 & _).
  pose proof (login_outcomes a_validation a_login_services (VStr "bo@nomad.pal")
                (VStr "right")) as (_ & _ & _ & H2 & _).
  pose proof (login_outcomes a_validation a_login_services (VStr "ana")
                (VStr "right")) as (H3 & _).
  split.
  - rewrite H1, H2; [done | done | done | by left | done | done |].
    right. by eexists _, _.
  - apply H3. by left.
Defined.
